(** * Array construction core ([numpy/core/src/multiarray/ctors.c])

  A shallow embedding of the routines of [ctors.c] that lay out, allocate,
  copy and fill strided arrays, together with the properties established
  about them.  C integers are modelled as [Z] with the wrap-around of the
  machine type written out; the platform is taken to be LP64 (a 64-bit
  [npy_intp] / [npy_uintp] / [size_t]). *)

From Stdlib Require Import ZArith Lia Bool List String Ascii SpecFloat.
From stdpp Require Import base tactics option list.

Local Open Scope Z_scope.
#[local] Set Warnings "-register-all".

(** ** Machine integers *)

Module Machine.

Definition NPY_MAX_INTP : Z := 9223372036854775807.
Definition NPY_MIN_INTP : Z := -9223372036854775808.
Definition uintp_modulus : Z := 18446744073709551616.

(** Conversion to [npy_uintp] / [size_t]: reduction modulo 2^64. *)
Definition to_uintp (z : Z) : Z := z mod uintp_modulus.

(** Conversion to [npy_intp]: the two's complement reading of the low
    64 bits. *)
Definition to_intp (z : Z) : Z :=
  (z + 9223372036854775808) mod uintp_modulus - 9223372036854775808.

Lemma to_uintp_range z : 0 <= to_uintp z < uintp_modulus.
Proof. unfold to_uintp, uintp_modulus. apply Z.mod_pos_bound. lia. Qed.

Lemma to_uintp_small z : 0 <= z < uintp_modulus -> to_uintp z = z.
Proof. intros H. unfold to_uintp. apply Z.mod_small. exact H. Qed.

Lemma to_uintp_idem z : to_uintp (to_uintp z) = to_uintp z.
Proof. apply to_uintp_small, to_uintp_range. Qed.

Lemma to_uintp_mul_l a b : to_uintp (to_uintp a * b) = to_uintp (a * b).
Proof. unfold to_uintp. apply Z.mul_mod_idemp_l. unfold uintp_modulus. lia. Qed.

Lemma to_uintp_mul_r a b : to_uintp (a * to_uintp b) = to_uintp (a * b).
Proof. unfold to_uintp. apply Z.mul_mod_idemp_r. unfold uintp_modulus. lia. Qed.

Lemma to_uintp_add_l a b : to_uintp (to_uintp a + b) = to_uintp (a + b).
Proof. unfold to_uintp. apply Z.add_mod_idemp_l. unfold uintp_modulus. lia. Qed.

Lemma to_uintp_add_r a b : to_uintp (a + to_uintp b) = to_uintp (a + b).
Proof. unfold to_uintp. apply Z.add_mod_idemp_r. unfold uintp_modulus. lia. Qed.

Lemma to_intp_range z : NPY_MIN_INTP <= to_intp z <= NPY_MAX_INTP.
Proof.
  unfold to_intp, NPY_MIN_INTP, NPY_MAX_INTP, uintp_modulus.
  pose proof (Z.mod_pos_bound (z + 9223372036854775808) 18446744073709551616).
  lia.
Qed.

Lemma to_intp_small z : NPY_MIN_INTP <= z <= NPY_MAX_INTP -> to_intp z = z.
Proof.
  unfold to_intp, NPY_MIN_INTP, NPY_MAX_INTP, uintp_modulus. intros H.
  rewrite Z.mod_small by lia. lia.
Qed.

Lemma to_intp_to_uintp z : to_intp (to_uintp z) = to_intp z.
Proof.
  unfold to_intp, to_uintp. f_equal.
  apply Z.add_mod_idemp_l. unfold uintp_modulus. lia.
Qed.

End Machine.
Export Machine.

(** ** Array flags

  The flag bits of [PyArrayObject.flags].  Their values are declared in
  the array header, which is not part of this file. *)

Module Flags.

(** Modelled from the spec: the flag constants [CONTIGUOUS], [FORTRAN],
    [OWNDATA], [ALIGNED], [WRITEABLE], [UPDATEIFCOPY] are distinct single
    bits of the flags word (given here the values of the array header);
    [DEFAULT] is a C-contiguous, aligned, writeable array. *)
Definition CONTIGUOUS : Z := 1.
Definition FORTRAN : Z := 2.
Definition OWNDATA : Z := 4.
Definition ALIGNED : Z := 256.
Definition WRITEABLE : Z := 1024.
Definition UPDATEIFCOPY : Z := 4096.
Definition DEFAULT : Z := Z.lor CONTIGUOUS (Z.lor ALIGNED WRITEABLE).
Definition NPY_F_CONTIGUOUS : Z := FORTRAN.

(** Modelled from the spec: the header macro [PyArray_CHKFLAGS],
    [(flags & FLAG) == FLAG]. *)
Definition CHKFLAGS (flags FLAG : Z) : bool := Z.land flags FLAG =? FLAG.

Lemma CHKFLAGS_CONTIGUOUS f : CHKFLAGS f CONTIGUOUS = Z.testbit f 0.
Proof.
  unfold CHKFLAGS, CONTIGUOUS.
  change 1 with (Z.ones 1) at 1. rewrite Z.land_ones by lia.
  rewrite Z.pow_1_r, <- Z.bit0_mod.
  destruct (Z.testbit f 0); reflexivity.
Qed.

Lemma CHKFLAGS_FORTRAN f : CHKFLAGS f FORTRAN = Z.testbit f 1.
Proof.
  unfold CHKFLAGS, FORTRAN.
  destruct (Z.testbit f 1) eqn:E.
  - apply Z.eqb_eq. apply Z.bits_inj'. intros n Hn.
    rewrite Z.land_spec.
    destruct (Z.eq_dec n 1) as [->|Hne].
    + rewrite E. reflexivity.
    + replace (Z.testbit 2 n) with false; [apply andb_false_r|].
      change 2 with (2 ^ 1). symmetry. apply Z.pow2_bits_false. lia.
  - apply Z.eqb_neq. intros H.
    assert (Hb : Z.testbit (Z.land f 2) 1 = Z.testbit 2 1) by (rewrite H; reflexivity).
    rewrite Z.land_spec, E in Hb. discriminate Hb.
Qed.

End Flags.
Export Flags.

(** ** Contiguous strides ([_array_fill_strides]) *)

Module Strides.

(** [dims[i] ? dims[i] : 1] *)
Definition dim_or_1 (dim : Z) : Z := if dim =? 0 then 1 else dim.

(** Product of a list of extents. *)
Definition list_prod (l : list Z) : Z := foldr Z.mul 1 l.

(** The loop body shared by both orders:
    [strides[i] = itemsize; itemsize *= dims[i] ? dims[i] : 1;]
    where [itemsize] is a [size_t] and [strides[i]] an [npy_intp]. *)
Definition fill_body (dims : list Z) (i : nat) (st : list Z * Z) : list Z * Z :=
  let '(strides, itemsize) := st in
  (<[i := to_intp itemsize]> strides,
   to_uintp (itemsize * to_uintp (dim_or_1 (dims !!! i)))).

(** [for (i = 0; i < nd; i++)], with [n] iterations left. *)
Fixpoint fortran_loop (dims : list Z) (n i : nat) (st : list Z * Z) : list Z * Z :=
  match n with
  | O => st
  | S n' => fortran_loop dims n' (S i) (fill_body dims i st)
  end.

(** [for (i = nd - 1; i >= 0; i--)], the argument being [i + 1]. *)
Fixpoint c_loop (dims : list Z) (i1 : nat) (st : list Z * Z) : list Z * Z :=
  match i1 with
  | O => st
  | S i => c_loop dims i (fill_body dims i st)
  end.

(** [_array_fill_strides(strides, dims, nd, itemsize, inflag, objflags)]:
    the filled [strides], the updated [*objflags] and the returned size. *)
Definition _array_fill_strides (strides dims : list Z) (nd : Z) (itemsize : Z)
    (inflag objflags : Z) : list Z * Z * Z :=
  let itemsize := to_uintp itemsize in
  if negb (Z.land inflag FORTRAN =? 0) && (Z.land inflag CONTIGUOUS =? 0) then
    let '(strides, itemsize) := fortran_loop dims (Z.to_nat nd) 0 (strides, itemsize) in
    let objflags := Z.lor objflags FORTRAN in
    let objflags :=
      if 1 <? nd then Z.land objflags (Z.lnot CONTIGUOUS)
      else Z.lor objflags CONTIGUOUS in
    (strides, objflags, itemsize)
  else
    let '(strides, itemsize) := c_loop dims (Z.to_nat nd) (strides, itemsize) in
    let objflags := Z.lor objflags CONTIGUOUS in
    let objflags :=
      if 1 <? nd then Z.land objflags (Z.lnot FORTRAN)
      else Z.lor objflags FORTRAN in
    (strides, objflags, itemsize).

(** The order [_array_fill_strides] lays the array out in: Fortran only when
    the [FORTRAN] bit of [inflag] is set and the [CONTIGUOUS] bit is not. *)
Definition fortran_requested (inflag : Z) : bool :=
  negb (Z.land inflag FORTRAN =? 0) && (Z.land inflag CONTIGUOUS =? 0).

Example fill_c_2x3 :
  _array_fill_strides [0; 0] [2; 3] 2 8 0 0 = ([24; 8], 1, 48).
Proof. reflexivity. Qed.

Example fill_f_2x3 :
  _array_fill_strides [0; 0] [2; 3] 2 8 FORTRAN 0 = ([8; 16], 2, 48).
Proof. reflexivity. Qed.

Example fill_c_zero_extent :
  _array_fill_strides [0; 0; 0] [2; 0; 3] 3 8 0 0 = ([24; 24; 8], 1, 48).
Proof. reflexivity. Qed.

(** *** Closed forms of the two loops *)

Lemma to_intp_congr a b : to_uintp a = to_uintp b -> to_intp a = to_intp b.
Proof. intros H. rewrite <- (to_intp_to_uintp a), H. apply to_intp_to_uintp. Qed.

Lemma list_prod_app l1 l2 : list_prod (l1 ++ l2) = list_prod l1 * list_prod l2.
Proof.
  induction l1 as [|x l1 IH]; simpl.
  - destruct (list_prod l2); reflexivity.
  - unfold list_prod in *. simpl. rewrite IH. ring.
Qed.

Lemma list_prod_cons x l : list_prod (x :: l) = x * list_prod l.
Proof. reflexivity. Qed.

Lemma list_prod_singleton x : list_prod [x] = x.
Proof. unfold list_prod. simpl. apply Z.mul_1_r. Qed.

Lemma fill_body_size dims i strides sz d :
  dims !! i = Some d ->
  fill_body dims i (strides, sz) =
    (<[i := to_intp sz]> strides, to_uintp (sz * dim_or_1 d)).
Proof.
  intros H. unfold fill_body.
  rewrite (list_lookup_total_correct _ _ _ H), to_uintp_mul_r. reflexivity.
Qed.

Lemma fortran_loop_spec dims n : forall (i : nat) strides sz strides' sz',
  (i + n)%nat = length dims ->
  length strides = length dims ->
  to_uintp sz = sz ->
  fortran_loop dims n i (strides, sz) = (strides', sz') ->
  sz' = to_uintp (sz * list_prod (dim_or_1 <$> drop i dims)) /\
  length strides' = length strides /\
  (forall j, (j < i)%nat -> strides' !! j = strides !! j) /\
  (forall j, (i <= j < i + n)%nat ->
     strides' !! j =
       Some (to_intp (sz * list_prod (dim_or_1 <$> take (j - i) (drop i dims))))).
Proof.
  induction n as [|n IH]; intros i strides sz strides' sz' Hlen Hs Hsz Hrun;
    cbn [fortran_loop] in Hrun.
  - inversion Hrun; subst strides' sz'. repeat split.
    + rewrite drop_ge by lia. simpl. rewrite Z.mul_1_r. symmetry. exact Hsz.
    + intros j Hj. lia.
  - assert (Hi : (i < length dims)%nat) by lia.
    destruct (lookup_lt_is_Some_2 dims i Hi) as [d Hd].
    rewrite (fill_body_size _ _ _ _ _ Hd) in Hrun.
    apply IH in Hrun; [| lia | rewrite length_insert; exact Hs | apply to_uintp_idem].
    destruct Hrun as (Hsz' & Hlen' & Hold & Hnew).
    rewrite length_insert in Hlen'.
    rewrite (drop_S _ _ _ Hd). repeat split.
    + rewrite Hsz'. rewrite fmap_cons, list_prod_cons, to_uintp_mul_l.
      f_equal. ring.
    + exact Hlen'.
    + intros j Hj. rewrite Hold by lia. apply list_lookup_insert_ne. lia.
    + intros j Hj. destruct (decide (j = i)) as [->|Hne].
      * rewrite Hold by lia. rewrite list_lookup_insert_eq by lia.
        rewrite Nat.sub_diag. simpl. rewrite Z.mul_1_r. reflexivity.
      * rewrite Hnew by lia. f_equal.
        replace (j - i)%nat with (S (j - S i)) by lia.
        rewrite firstn_cons, fmap_cons, list_prod_cons.
        apply to_intp_congr. rewrite to_uintp_mul_l. f_equal. ring.
Qed.

Lemma c_loop_spec dims : forall (i1 : nat) strides sz strides' sz',
  (i1 <= length dims)%nat ->
  length strides = length dims ->
  to_uintp sz = sz ->
  c_loop dims i1 (strides, sz) = (strides', sz') ->
  sz' = to_uintp (sz * list_prod (dim_or_1 <$> take i1 dims)) /\
  length strides' = length strides /\
  (forall j, (i1 <= j)%nat -> strides' !! j = strides !! j) /\
  (forall j, (j < i1)%nat ->
     strides' !! j =
       Some (to_intp (sz * list_prod (dim_or_1 <$> drop (S j) (take i1 dims))))).
Proof.
  induction i1 as [|i IH]; intros strides sz strides' sz' Hlen Hs Hsz Hrun;
    cbn [c_loop] in Hrun.
  - inversion Hrun; subst strides' sz'. repeat split.
    + simpl. rewrite Z.mul_1_r. symmetry. exact Hsz.
    + intros j Hj. lia.
  - assert (Hi : (i < length dims)%nat) by lia.
    destruct (lookup_lt_is_Some_2 dims i Hi) as [d Hd].
    rewrite (fill_body_size _ _ _ _ _ Hd) in Hrun.
    apply IH in Hrun; [| lia | rewrite length_insert; exact Hs | apply to_uintp_idem].
    destruct Hrun as (Hsz' & Hlen' & Hold & Hnew).
    rewrite length_insert in Hlen'.
    rewrite (take_S_r _ _ _ Hd). repeat split.
    + rewrite Hsz'. rewrite fmap_app, list_prod_app.
      change (dim_or_1 <$> [d]) with [dim_or_1 d].
      rewrite list_prod_singleton, to_uintp_mul_l. f_equal. ring.
    + exact Hlen'.
    + intros j Hj. rewrite Hold by lia. apply list_lookup_insert_ne. lia.
    + intros j Hj. destruct (decide (j = i)) as [->|Hne].
      * rewrite Hold by lia. rewrite list_lookup_insert_eq by lia.
        rewrite drop_ge by (rewrite length_app, length_take; simpl; lia).
        simpl. rewrite Z.mul_1_r. reflexivity.
      * rewrite Hnew by lia. f_equal.
        rewrite drop_app_le by (rewrite length_take; lia).
        rewrite fmap_app, list_prod_app.
        change (dim_or_1 <$> [d]) with [dim_or_1 d].
        rewrite list_prod_singleton.
        apply to_intp_congr. rewrite to_uintp_mul_l. f_equal. ring.
Qed.

(** *** Contiguity flags after the call *)

Lemma flags_after_fortran_nd f :
  CHKFLAGS (Z.land (Z.lor f FORTRAN) (Z.lnot CONTIGUOUS)) CONTIGUOUS = false /\
  CHKFLAGS (Z.land (Z.lor f FORTRAN) (Z.lnot CONTIGUOUS)) FORTRAN = true.
Proof.
  rewrite CHKFLAGS_CONTIGUOUS, CHKFLAGS_FORTRAN. unfold CONTIGUOUS, FORTRAN.
  rewrite !Z.land_spec, !Z.lor_spec, !Z.lnot_spec by lia.
  split; cbn; [apply andb_false_r | rewrite orb_true_r; reflexivity].
Qed.

Lemma flags_after_c_nd f :
  CHKFLAGS (Z.land (Z.lor f CONTIGUOUS) (Z.lnot FORTRAN)) CONTIGUOUS = true /\
  CHKFLAGS (Z.land (Z.lor f CONTIGUOUS) (Z.lnot FORTRAN)) FORTRAN = false.
Proof.
  rewrite CHKFLAGS_CONTIGUOUS, CHKFLAGS_FORTRAN. unfold CONTIGUOUS, FORTRAN.
  rewrite !Z.land_spec, !Z.lor_spec, !Z.lnot_spec by lia.
  split; cbn; [rewrite orb_true_r; reflexivity | apply andb_false_r].
Qed.

Lemma flags_after_both f g :
  (g = Z.lor (Z.lor f FORTRAN) CONTIGUOUS \/ g = Z.lor (Z.lor f CONTIGUOUS) FORTRAN) ->
  CHKFLAGS g CONTIGUOUS = true /\ CHKFLAGS g FORTRAN = true.
Proof.
  rewrite CHKFLAGS_CONTIGUOUS, CHKFLAGS_FORTRAN. unfold CONTIGUOUS, FORTRAN.
  intros [-> | ->]; rewrite !Z.lor_spec; split; cbn;
    rewrite ?orb_true_r; reflexivity.
Qed.

Lemma fill_strides_flags (strides dims : list Z) (nd itemsize inflag objflags : Z) :
  let objflags' :=
    (_array_fill_strides strides dims nd itemsize inflag objflags).1.2 in
  if 1 <? nd
  then CHKFLAGS objflags' FORTRAN = fortran_requested inflag /\
       CHKFLAGS objflags' CONTIGUOUS = negb (fortran_requested inflag)
  else CHKFLAGS objflags' FORTRAN = true /\
       CHKFLAGS objflags' CONTIGUOUS = true.
Proof.
  unfold _array_fill_strides. fold (fortran_requested inflag).
  destruct (fortran_requested inflag).
  - destruct (fortran_loop dims (Z.to_nat nd) 0 (strides, to_uintp itemsize))
      as [s' sz']. cbn [fst snd].
    destruct (1 <? nd).
    + destruct (flags_after_fortran_nd objflags) as [Hc Hf]. split; assumption.
    + destruct (flags_after_both objflags
                  (Z.lor (Z.lor objflags FORTRAN) CONTIGUOUS)) as [Hc Hf];
        [left; reflexivity|]. split; assumption.
  - destruct (c_loop dims (Z.to_nat nd) (strides, to_uintp itemsize))
      as [s' sz']. cbn [fst snd].
    destruct (1 <? nd).
    + destruct (flags_after_c_nd objflags) as [Hc Hf]. split; assumption.
    + destruct (flags_after_both objflags
                  (Z.lor (Z.lor objflags CONTIGUOUS) FORTRAN)) as [Hc Hf];
        [right; reflexivity|]. split; assumption.
Qed.

Lemma fill_strides_values (strides dims : list Z) (itemsize inflag objflags : Z) :
  length strides = length dims ->
  let strides' :=
    (_array_fill_strides strides dims (Z.of_nat (length dims))
       itemsize inflag objflags).1.1 in
  length strides' = length dims /\
  (forall i : nat, (i < length dims)%nat ->
     strides' !! i =
       Some (to_intp (itemsize * list_prod (dim_or_1 <$>
               (if fortran_requested inflag then take i dims
                else drop (S i) dims))))).
Proof.
  intros Hbuf.
  unfold _array_fill_strides. fold (fortran_requested inflag).
  rewrite Nat2Z.id.
  destruct (fortran_requested inflag) eqn:Hord.
  - destruct (fortran_loop dims (length dims) 0 (strides, to_uintp itemsize))
      as [s' sz'] eqn:Hrun.
    apply fortran_loop_spec in Hrun;
      [| reflexivity | exact Hbuf | apply to_uintp_idem].
    destruct Hrun as (_ & Hlen & _ & Hnew). cbn [fst snd].
    split; [congruence|].
    intros i Hi. rewrite Hnew by lia. rewrite Nat.sub_0_r, drop_0.
    f_equal. apply to_intp_congr. apply to_uintp_mul_l.
  - destruct (c_loop dims (length dims) (strides, to_uintp itemsize))
      as [s' sz'] eqn:Hrun.
    apply c_loop_spec in Hrun;
      [| reflexivity | exact Hbuf | apply to_uintp_idem].
    destruct Hrun as (_ & Hlen & _ & Hnew). cbn [fst snd].
    split; [congruence|].
    intros i Hi. rewrite Hnew by lia. rewrite firstn_all.
    f_equal. apply to_intp_congr. apply to_uintp_mul_l.
Qed.

(** C6.  [_array_fill_strides] on a shape [dims] of [nd] axes and a stride
    buffer of as many slots: in C order (walking the axes from last to
    first) the stride of axis [i] is the element size times the extents of
    the later axes, in Fortran order (walking first to last) times those of
    the earlier axes, a zero extent counting as 1, the products being taken
    in [size_t] and stored as [npy_intp]; afterwards exactly one of
    [CONTIGUOUS] / [FORTRAN] is set when [nd > 1] (the one of the order laid
    out) and both are set when [nd <= 1]. *)
Theorem array_fill_strides_layout
    (strides dims : list Z) (itemsize inflag objflags : Z)
    (Hbuf : length strides = length dims) :
  let r := _array_fill_strides strides dims (Z.of_nat (length dims))
             itemsize inflag objflags in
  let strides' := r.1.1 in
  let objflags' := r.1.2 in
  length strides' = length dims /\
  (forall i : nat, (i < length dims)%nat ->
     strides' !! i =
       Some (to_intp
               (itemsize
                * foldr Z.mul 1
                    ((fun extent => if extent =? 0 then 1 else extent) <$>
                       (if fortran_requested inflag then take i dims
                        else drop (S i) dims))))) /\
  (if 1 <? Z.of_nat (length dims)
   then CHKFLAGS objflags' FORTRAN = fortran_requested inflag /\
        CHKFLAGS objflags' CONTIGUOUS = negb (fortran_requested inflag)
   else CHKFLAGS objflags' FORTRAN = true /\
        CHKFLAGS objflags' CONTIGUOUS = true).
Proof.
  intros r strides' objflags'.
  destruct (fill_strides_values strides dims itemsize inflag objflags Hbuf)
    as [Hlen Hval].
  split; [exact Hlen|]. split; [exact Hval|].
  apply fill_strides_flags.
Qed.

Lemma list_eq_by_lookup (l k : list Z) :
  length l = length k ->
  (forall i : nat, (i < length k)%nat -> l !! i = k !! i) ->
  l = k.
Proof.
  intros Hlen Hval. apply list_eq. intros i.
  destruct (decide (i < length k)%nat) as [Hi|Hi]; [exact (Hval i Hi)|].
  rewrite !lookup_ge_None_2 by lia. reflexivity.
Qed.

(** The shape [(2, 0, 3)] with elements of 8 bytes: the zero extent counts
    as 1, in either order. *)
Lemma array_fill_strides_layout_witness :
  (let r := _array_fill_strides [0; 0; 0] [2; 0; 3] 3 8 0 0 in
   r.1.1 = [24; 24; 8] /\
   CHKFLAGS r.1.2 FORTRAN = false /\ CHKFLAGS r.1.2 CONTIGUOUS = true) /\
  (let r := _array_fill_strides [0; 0; 0] [2; 0; 3] 3 8 FORTRAN 0 in
   r.1.1 = [8; 16; 16] /\
   CHKFLAGS r.1.2 FORTRAN = true /\ CHKFLAGS r.1.2 CONTIGUOUS = false).
Proof.
  pose proof (array_fill_strides_layout [0; 0; 0] [2; 0; 3] 8 0 0 eq_refl)
    as (Hlen & Hval & Hf & Hc).
  pose proof (array_fill_strides_layout [0; 0; 0] [2; 0; 3] 8 FORTRAN 0
                eq_refl) as (Hlen' & Hval' & Hf' & Hc').
  split; (split; [|split; assumption]).
  - apply list_eq_by_lookup; [exact Hlen|].
    intros i Hi. refine (eq_trans (Hval i Hi) _).
    destruct i as [|[|[|i]]]; [reflexivity .. | simpl in Hi; lia].
  - apply list_eq_by_lookup; [exact Hlen'|].
    intros i Hi. refine (eq_trans (Hval' i Hi) _).
    destruct i as [|[|[|i]]]; [reflexivity .. | simpl in Hi; lia].
Defined.

End Strides.

(** ** Objects, descriptors and the interpreter state *)

Module Objects.

(** Exceptions raised by the routines of this file. *)
Inductive PyExc : Type :=
| PyExc_ValueError
| PyExc_OverflowError
| PyExc_MemoryError
| PyExc_RuntimeError
| PyExc_TypeError
| PyExc_ZeroDivisionError.

(** Sub-array shape of a descriptor: a tuple of extents or a single int. *)
Inductive SubShape : Type :=
| ShapeTuple (extents : list Z)
| ShapeInt (extent : Z).

(** [PyArray_Descr]: the fields this file reads.  [descr_id] is the identity
    of the object (its address), under which its reference count is kept. *)
Inductive PyArray_Descr : Type := Build_Descr {
  descr_id : nat;
  type_num : Z;
  elsize : Z;
  needs_init : bool;
  native_byteorder : bool;
  subarray : option PyArray_ArrayDescr
}
with PyArray_ArrayDescr : Type := Build_ArrayDescr {
  sub_base : PyArray_Descr;
  sub_shape : SubShape
}.

(** [PyArrayObject]. *)
Record PyArrayObject : Type := Build_Array {
  ob_id : nat;
  data : Z;
  nd : Z;
  dimensions : list Z;
  strides : list Z;
  base : option nat;
  descr : PyArray_Descr;
  flags : Z
}.

(** The state the routines run in: reference counts by object identity, the
    bytes of memory by address, the error indicator, and the allocation
    frontiers (next object identity, next free address). *)
Record World : Type := Build_World {
  refcnt : nat -> Z;
  mem : Z -> Z;
  err : option (PyExc * string);
  next_obj : nat;
  heap_top : Z
}.

Definition set_refcnt (f : nat -> Z) (w : World) : World :=
  {| refcnt := f; mem := mem w; err := err w;
     next_obj := next_obj w; heap_top := heap_top w |}.

Definition set_mem (m : Z -> Z) (w : World) : World :=
  {| refcnt := refcnt w; mem := m; err := err w;
     next_obj := next_obj w; heap_top := heap_top w |}.

Definition PyErr_SetString (e : PyExc) (msg : string) (w : World) : World :=
  {| refcnt := refcnt w; mem := mem w; err := Some (e, msg);
     next_obj := next_obj w; heap_top := heap_top w |}.

Definition PyErr_NoMemory (w : World) : World :=
  PyErr_SetString PyExc_MemoryError "" w.

Definition PyErr_Occurred (w : World) : bool :=
  match err w with Some _ => true | None => false end.

(** [Py_INCREF] / [Py_DECREF] on an object identity. *)
Definition Py_INCREF (o : nat) (w : World) : World :=
  set_refcnt (fun x => if Nat.eqb x o then refcnt w x + 1 else refcnt w x) w.

Definition Py_DECREF (o : nat) (w : World) : World :=
  set_refcnt (fun x => if Nat.eqb x o then refcnt w x - 1 else refcnt w x) w.

(** [memset(p, c, n)] and [memcpy(dst, src, n)] / [memmove]. *)
Definition memset (p c n : Z) (m : Z -> Z) : Z -> Z :=
  fun a => if (p <=? a) && (a <? p + n) then c else m a.

Definition memcpy (dst src n : Z) (m : Z -> Z) : Z -> Z :=
  fun a => if (dst <=? a) && (a <? dst + n) then m (src + (a - dst)) else m a.

(** Modelled from the spec: the fixed maximum number of dimensions
    ([MAX_DIMS]) and the type numbers of the two text types, declared in the
    array header. *)
Definition MAX_DIMS : Z := 32.
Definition NPY_STRING : Z := 18.
Definition NPY_UNICODE : Z := 19.
Definition sizeof_PyArray_UCS4 : Z := 4.

(** Modelled from the spec: the header macro [PyDataType_ISSTRING], true of
    the two text types. *)
Definition PyDataType_ISSTRING (d : PyArray_Descr) : bool :=
  (type_num d =? NPY_STRING) || (type_num d =? NPY_UNICODE).

Definition with_elsize (d : PyArray_Descr) (n : Z) : PyArray_Descr :=
  {| descr_id := descr_id d; type_num := type_num d; elsize := n;
     needs_init := needs_init d; native_byteorder := native_byteorder d;
     subarray := subarray d |}.

(** Modelled from the spec: the accessor macros of the array header, which
    read the fields of the array. *)
Definition PyArray_NDIM (a : PyArrayObject) : Z := nd a.
Definition PyArray_DIM (a : PyArrayObject) (i : nat) : Z := dimensions a !!! i.
Definition PyArray_STRIDE (a : PyArrayObject) (i : nat) : Z := strides a !!! i.
Definition PyArray_ITEMSIZE (a : PyArrayObject) : Z := elsize (descr a).

(** Modelled from the spec: the header macro [PyArray_SIZE], the number of
    elements, which is the product of the extents. *)
Definition PyArray_SIZE (a : PyArrayObject) : Z :=
  Strides.list_prod (take (Z.to_nat (nd a)) (dimensions a)).

(** Modelled from the spec: the header macros [PyArray_ISFORTRAN]
    (Fortran-contiguous and more than one axis, a layout of at most one axis
    being both orders), [PyArray_ISWRITEABLE] and [PyArray_ISALIGNED]. *)
Definition PyArray_ISFORTRAN (a : PyArrayObject) : bool :=
  CHKFLAGS (flags a) FORTRAN && (1 <? nd a).

Definition PyArray_ISWRITEABLE (a : PyArrayObject) : bool :=
  CHKFLAGS (flags a) WRITEABLE.

Definition PyArray_ISALIGNED (a : PyArrayObject) : bool :=
  CHKFLAGS (flags a) ALIGNED.

Definition set_flags (a : PyArrayObject) (f : Z) : PyArrayObject :=
  {| ob_id := ob_id a; data := data a; nd := nd a; dimensions := dimensions a;
     strides := strides a; base := base a; descr := descr a; flags := f |}.

End Objects.
Export Objects.

(** ** The canonical constructor ([PyArray_NewFromDescr]) *)

Module Alloc.

Import Strides.

(** The type object an array is created for, with what looking up
    [__array_finalize__] on the new instance gives: nothing, [None], a
    capsule holding a C function, or a Python callable. *)
Inductive FinalizeAttr : Type :=
| Finalize_NULL
| Finalize_None
| Finalize_Capsule
    (cfunc : PyArrayObject -> option nat -> World -> Z * PyArrayObject * World)
| Finalize_Callable
    (call : PyArrayObject -> nat -> World -> option nat * PyArrayObject * World).

Inductive PyTypeObject : Type :=
| PyArray_Type
| PySubtype (finalize : FinalizeAttr).

(** The collaborators the constructor calls into: object and memory
    allocation, descriptor copying, deallocation of an array whose last
    reference is dropped, and recomputation of the flags. *)
Class Runtime : Type := Build_Runtime {
  tp_alloc : World -> option nat * World;
  PyDimMem_NEW : Z -> World -> bool * World;
  PyDataMem_NEW : Z -> World -> option Z * World;
  PyArray_DescrNew : PyArray_Descr -> World -> PyArray_Descr * World;
  array_dealloc : PyArrayObject -> World -> World;
  PyArray_UpdateFlags : PyArrayObject -> PyArrayObject;
  Py_None : nat
}.

(** Outcome of the per-axis size check. *)
Inductive DimsCheck : Type :=
| DimsOk (size largest : Z)
| DimsNegative
| DimsTooBig.

(** The loop [for (i = 0; i < nd; i++)] over [dims[i]] of the constructor,
    from the state [(size, largest)]. *)
Fixpoint check_dims (dims : list Z) (size largest : Z) : DimsCheck :=
  match dims with
  | [] => DimsOk size largest
  | dim :: rest =>
      if dim =? 0 then check_dims rest size largest
      else if dim <? 0 then DimsNegative
      else if largest <? dim then DimsTooBig
      else check_dims rest (to_intp (size * dim)) (largest / dim)
  end.

Section Constructor.

Context `{RT : Runtime}.

(** [Py_DECREF] of an array: the last reference deallocates it. *)
Definition Py_DECREF_array (a : PyArrayObject) (w : World) : World :=
  let w := Py_DECREF (ob_id a) w in
  if refcnt w (ob_id a) =? 0 then array_dealloc a w else w.

(** [PyArray_DESCR_REPLACE(descr)]: a fresh copy replaces the descriptor,
    whose reference is dropped. *)
Definition PyArray_DESCR_REPLACE (descr : PyArray_Descr) (w : World)
    : PyArray_Descr * World :=
  let '(new, w) := PyArray_DescrNew descr w in
  (new, Py_DECREF (descr_id descr) w).

(** [_update_descr_and_dimensions]: the descriptor becomes the base of the
    sub-array, whose extents (and, when strides are given, C-contiguous
    strides) are appended; returns the new number of dimensions. *)
Definition subshape_extents (s : SubShape) : list Z :=
  match s with
  | ShapeTuple l => l
  | ShapeInt n => [n]
  end.

Fixpoint substrides (mydim_rev : list Z) (tempsize : Z) : list Z :=
  match mydim_rev with
  | [] => []
  | d :: rest =>
      substrides rest (to_intp (tempsize * dim_or_1 d)) ++ [tempsize]
  end.

Definition _update_descr_and_dimensions (old : PyArray_Descr)
    (sub : PyArray_ArrayDescr) (newdims : list Z)
    (newstrides : option (list Z)) (oldnd : Z) (w : World)
    : PyArray_Descr * list Z * option (list Z) * Z * World :=
  let des := sub_base sub in
  let mydim := subshape_extents (sub_shape sub) in
  let numnew := Z.of_nat (length mydim) in
  let newnd := oldnd + numnew in
  let w' := Py_DECREF (descr_id old) (Py_INCREF (descr_id des) w) in
  if MAX_DIMS <? newnd then (des, newdims, newstrides, newnd, w')
  else
    (des, newdims ++ mydim,
     match newstrides with
     | Some st => Some (st ++ substrides (rev mydim) (elsize des))
     | None => None
     end,
     newnd, w').

Definition fail_descr (descr : PyArray_Descr) (e : PyExc) (msg : string)
    (w : World) : option PyArrayObject * World :=
  (None, Py_DECREF (descr_id descr) (PyErr_SetString e msg w)).

(** The block [if (sd == 0) { ... }] for a text type of size zero: the
    descriptor is replaced by a copy with the default element size. *)
Definition replace_empty_elsize (descr : PyArray_Descr) (w : World)
    : PyArray_Descr * World :=
  if to_uintp (elsize descr) =? 0 then
    let '(new, w) := PyArray_DESCR_REPLACE descr w in
    (with_elsize new (if type_num new =? NPY_STRING then 1
                      else sizeof_PyArray_UCS4), w)
  else (descr, w).

(** [largest = NPY_MAX_INTP / sd], an unsigned division stored as
    [npy_intp]. *)
Definition initial_largest (sd : Z) : Z :=
  to_intp (to_uintp NPY_MAX_INTP / sd).

(** The constructor from [tp_alloc] on, the shape having passed the size
    check with [size] elements. *)
Definition build_array (subtype : PyTypeObject)
    (descr : PyArray_Descr) (nd : Z) (dims : list Z)
    (strides : option (list Z)) (data : option Z) (flags : Z)
    (obj : option nat) (size : Z) (w : World)
    : option PyArrayObject * World :=
  let sd := to_uintp (elsize descr) in
  match tp_alloc w with
  | (None, w) => (None, Py_DECREF (descr_id descr) w)
  | (Some id, w) =>
      let '(sflags, flags) :=
        match data with
        | None =>
            if flags =? 0 then (DEFAULT, flags)
            else
              let f := Z.lor DEFAULT FORTRAN in
              (if 1 <? nd then Z.land f (Z.lnot CONTIGUOUS) else f,
               FORTRAN)
        | Some _ => (Z.land flags (Z.lnot UPDATEIFCOPY), flags)
        end in
      let self0 :=
        {| ob_id := id; data := 0; nd := nd; dimensions := [];
           strides := []; base := None; descr := descr;
           flags := sflags |} in
      (* dimensions and strides *)
      let laid :=
        if 0 <? nd then
          match PyDimMem_NEW (2 * nd) w with
          | (false, w) => (None, PyErr_NoMemory w)
          | (true, w) =>
              let dimensions := take (Z.to_nat nd) dims in
              match strides with
              | None =>
                  let '(st, sflags, sd) :=
                    _array_fill_strides
                      (replicate (Z.to_nat nd) 0) dims nd sd
                      flags sflags in
                  (Some (dimensions, st, sflags, sd), w)
              | Some given =>
                  (Some (dimensions, take (Z.to_nat nd) given, sflags,
                         to_uintp (sd * to_uintp size)), w)
              end
          end
        else (Some ([], [], sflags, sd), w) in
      match laid with
      | (None, w) => (None, Py_DECREF_array self0 w)
      | (Some (dimensions, st, sflags, sd), w) =>
          let self1 :=
            {| ob_id := id; data := 0; nd := nd;
               dimensions := dimensions; strides := st; base := None;
               descr := descr; flags := sflags |} in
          (* the data *)
          let owned :=
            match data with
            | None =>
                let sd := if sd =? 0 then to_uintp (elsize descr)
                          else sd in
                match PyDataMem_NEW sd w with
                | (None, w) => (None, PyErr_NoMemory w)
                | (Some p, w) =>
                    (Some (p, Z.lor sflags OWNDATA),
                     if needs_init descr
                     then set_mem (memset p 0 sd (mem w)) w
                     else w)
                end
            | Some p => (Some (p, Z.land sflags (Z.lnot OWNDATA)), w)
            end in
          match owned with
          | (None, w) => (None, Py_DECREF_array self1 w)
          | (Some (p, sflags), w) =>
              let self :=
                {| ob_id := id; data := p; nd := nd;
                   dimensions := dimensions; strides := st;
                   base := None; descr := descr; flags := sflags |} in
              (* __array_finalize__ of a subtype *)
              match subtype with
              | PyArray_Type => (Some self, w)
              | PySubtype Finalize_NULL
              | PySubtype Finalize_None => (Some self, w)
              | PySubtype (Finalize_Capsule cfunc) =>
                  let self :=
                    match strides with
                    | Some _ => PyArray_UpdateFlags self
                    | None => self
                    end in
                  let '(r, self, w) := cfunc self obj w in
                  if r <? 0 then (None, Py_DECREF_array self w)
                  else (Some self, w)
              | PySubtype (Finalize_Callable call) =>
                  let self :=
                    match strides with
                    | Some _ => PyArray_UpdateFlags self
                    | None => self
                    end in
                  let arg := match obj with
                             | Some o => o
                             | None => Py_None
                             end in
                  let '(res, self, w) := call self arg w in
                  match res with
                  | None => (None, Py_DECREF_array self w)
                  | Some _ => (Some self, w)
                  end
              end
          end
      end
  end.

(** The constructor once sub-array descriptors are expanded. *)
Definition new_from_descr_plain (subtype : PyTypeObject)
    (descr : PyArray_Descr) (nd : Z) (dims : list Z)
    (strides : option (list Z)) (data : option Z) (flags : Z)
    (obj : option nat) (w : World) : option PyArrayObject * World :=
  if nd <? 0 then
    fail_descr descr PyExc_ValueError "number of dimensions must be >=0" w
  else if MAX_DIMS <? nd then
    fail_descr descr PyExc_ValueError "maximum number of dimensions is 32" w
  else if (to_uintp (elsize descr) =? 0) && negb (PyDataType_ISSTRING descr)
  then fail_descr descr PyExc_ValueError "Empty data-type" w
  else
    let '(descr, w) := replace_empty_elsize descr w in
    let sd := to_uintp (elsize descr) in
    match check_dims (take (Z.to_nat nd) dims) 1 (initial_largest sd) with
    | DimsNegative =>
        fail_descr descr PyExc_ValueError
          "negative dimensions are not allowed" w
    | DimsTooBig =>
        fail_descr descr PyExc_ValueError "array is too big." w
    | DimsOk size _ =>
        build_array subtype descr nd dims strides data flags obj size w
    end.

(** [PyArray_NewFromDescr]: a sub-array descriptor is expanded by a
    recursive call on its base. *)
Fixpoint PyArray_NewFromDescr (subtype : PyTypeObject)
    (descr : PyArray_Descr) (nd : Z) (dims : list Z)
    (strides : option (list Z)) (data : option Z) (flags : Z)
    (obj : option nat) (w : World) {struct descr}
    : option PyArrayObject * World :=
  match subarray descr with
  | Some sub =>
      let newdims := take (Z.to_nat nd) dims in
      let newstrides :=
        match strides with
        | Some st => Some (take (Z.to_nat nd) st)
        | None => None
        end in
      let '(des, newdims, newstrides, nd, w) :=
        _update_descr_and_dimensions descr sub newdims newstrides nd w in
      match sub with
      | Build_ArrayDescr base _ =>
          PyArray_NewFromDescr subtype base nd newdims newstrides data
            flags obj w
      end
  | None =>
      new_from_descr_plain subtype descr nd dims strides data flags obj w
  end.

End Constructor.

(** *** The per-axis size check *)

(** The running bound after the extents [seen]: the initial bound divided
    down by each accepted extent, a zero extent being skipped. *)
Definition running_bound (largest : Z) (seen : list Z) : Z :=
  foldl (fun b d => if d =? 0 then b else b / d) largest seen.

(** Every axis before [k] was skipped (extent 0) or accepted (positive and
    within the bound current at that axis). *)
Definition accepted_before (largest : Z) (dims : list Z) (k : nat) : Prop :=
  forall (j : nat) (dj : Z), (j < k)%nat -> dims !! j = Some dj ->
    dj = 0 \/ 0 < dj <= running_bound largest (take j dims).

Lemma accepted_before_tail largest d0 rest k :
  accepted_before largest (d0 :: rest) (S k) ->
  (d0 = 0 \/ 0 < d0 <= largest) /\
  accepted_before (if d0 =? 0 then largest else largest / d0) rest k.
Proof.
  intros H. split.
  - apply (H 0%nat d0); [lia | reflexivity].
  - intros j dj Hj Hlk. apply (H (S j) dj); [lia | exact Hlk].
Qed.

Lemma check_dims_negative dims : forall size largest (k : nat) d,
  accepted_before largest dims k -> dims !! k = Some d -> d < 0 ->
  check_dims dims size largest = DimsNegative.
Proof.
  induction dims as [|d0 rest IH]; intros size largest k d Hacc Hk Hd.
  - discriminate Hk.
  - destruct k as [|k]; simpl in Hk.
    + inversion Hk; subst d0. simpl.
      destruct (Z.eqb_spec d 0); [lia|].
      destruct (Z.ltb_spec d 0); [reflexivity | lia].
    + apply accepted_before_tail in Hacc. destruct Hacc as [H0 Hacc].
      simpl. destruct (Z.eqb_spec d0 0) as [->|Hnz].
      * eapply IH; eauto.
      * destruct (Z.ltb_spec d0 0); [lia|].
        destruct (Z.ltb_spec largest d0); [lia|].
        eapply IH; eauto.
Qed.

Lemma check_dims_too_big dims : forall size largest (k : nat) d,
  accepted_before largest dims k -> dims !! k = Some d -> 0 < d ->
  running_bound largest (take k dims) < d ->
  check_dims dims size largest = DimsTooBig.
Proof.
  induction dims as [|d0 rest IH]; intros size largest k d Hacc Hk Hd Hbig.
  - discriminate Hk.
  - destruct k as [|k]; simpl in Hk.
    + inversion Hk; subst d0. simpl in *. unfold running_bound in Hbig.
      simpl in Hbig.
      destruct (Z.eqb_spec d 0); [lia|].
      destruct (Z.ltb_spec d 0); [lia|].
      destruct (Z.ltb_spec largest d); [reflexivity | lia].
    + apply accepted_before_tail in Hacc. destruct Hacc as [H0 Hacc].
      simpl in Hbig. unfold running_bound in Hbig. simpl in Hbig.
      fold (running_bound (if d0 =? 0 then largest else largest / d0)
              (take k rest)) in Hbig.
      simpl. destruct (Z.eqb_spec d0 0) as [->|Hnz].
      * eapply IH; eauto.
      * destruct (Z.ltb_spec d0 0); [lia|].
        destruct (Z.ltb_spec largest d0); [lia|].
        eapply IH; eauto.
Qed.

Lemma check_dims_accepted dims : forall size largest,
  accepted_before largest dims (length dims) ->
  exists size', check_dims dims size largest
                = DimsOk size' (running_bound largest dims).
Proof.
  induction dims as [|d0 rest IH]; intros size largest Hacc.
  - exists size. reflexivity.
  - apply accepted_before_tail in Hacc. destruct Hacc as [H0 Hacc].
    simpl. unfold running_bound. simpl.
    fold (running_bound (if d0 =? 0 then largest else largest / d0) rest).
    destruct (Z.eqb_spec d0 0) as [->|Hnz].
    + apply IH. exact Hacc.
    + destruct (Z.ltb_spec d0 0); [lia|].
      destruct (Z.ltb_spec largest d0); [lia|].
      apply IH. exact Hacc.
Qed.

Lemma initial_largest_div sd :
  0 < sd <= NPY_MAX_INTP -> initial_largest sd = NPY_MAX_INTP / sd.
Proof.
  intros H. unfold initial_largest.
  rewrite (to_uintp_small NPY_MAX_INTP)
    by (unfold NPY_MAX_INTP, uintp_modulus; lia).
  apply to_intp_small.
  assert (0 <= NPY_MAX_INTP / sd) by (apply Z.div_pos; unfold NPY_MAX_INTP; lia).
  assert (NPY_MAX_INTP / sd <= NPY_MAX_INTP)
    by (apply Z.div_le_upper_bound; unfold NPY_MAX_INTP in *; nia).
  unfold NPY_MIN_INTP. lia.
Qed.

Lemma check_dims_product dims : forall size largest B s l,
  1 <= size -> 0 <= largest -> size * largest <= B -> size <= B ->
  B <= NPY_MAX_INTP ->
  check_dims dims size largest = DimsOk s l ->
  s = size * Strides.list_prod (dim_or_1 <$> dims) /\ 1 <= s <= B.
Proof.
  induction dims as [|d rest IH]; intros size largest B s l H1 H2 H3 H4 HB Hc;
    simpl in Hc.
  - inversion Hc; subst. simpl. unfold Strides.list_prod. simpl. lia.
  - rewrite fmap_cons, Strides.list_prod_cons. unfold dim_or_1 at 1.
    destruct (Z.eqb_spec d 0) as [->|Hnz].
    + destruct (IH _ _ _ _ _ H1 H2 H3 H4 HB Hc) as [E R]. split; [lia | exact R].
    + destruct (Z.ltb_spec d 0); [discriminate Hc|].
      destruct (Z.ltb_spec largest d); [discriminate Hc|].
      assert (Hd : d * (largest / d) <= largest)
        by (apply Z.mul_div_le; lia).
      assert (0 <= largest / d) by (apply Z.div_pos; lia).
      assert (Hsz : size * d <= B) by nia.
      rewrite to_intp_small in Hc by (unfold NPY_MIN_INTP; nia).
      apply (IH _ _ B) in Hc; [| nia | assumption | nia | assumption | assumption].
      destruct Hc as [E R]. split; [lia | exact R].
Qed.

Lemma NewFromDescr_plain `{RT : Runtime} subtype descr nd dims strides data
    flags obj w :
  subarray descr = None ->
  PyArray_NewFromDescr subtype descr nd dims strides data flags obj w
  = new_from_descr_plain subtype descr nd dims strides data flags obj w.
Proof. intros Hsub. destruct descr. simpl in Hsub. subst. reflexivity. Qed.

Lemma replace_empty_elsize_elsize `{RT : Runtime} descr w :
  0 <= elsize descr <= NPY_MAX_INTP ->
  0 < elsize (replace_empty_elsize descr w).1 <= NPY_MAX_INTP /\
  (elsize descr <> 0 -> replace_empty_elsize descr w = (descr, w)).
Proof.
  intros H. unfold replace_empty_elsize.
  rewrite to_uintp_small by (unfold NPY_MAX_INTP, uintp_modulus in *; lia).
  destruct (Z.eqb_spec (elsize descr) 0) as [E|E].
  - unfold PyArray_DESCR_REPLACE.
    destruct (PyArray_DescrNew descr w) as [new w1]. cbn [fst].
    split; [|congruence]. unfold with_elsize. cbn [elsize].
    destruct (type_num new =? NPY_STRING);
      unfold sizeof_PyArray_UCS4, NPY_MAX_INTP; lia.
  - cbn [fst]. split; [lia | reflexivity].
Qed.

(** C2.  The per-axis size check of [PyArray_NewFromDescr], for a
    descriptor without sub-array and a shape [dims] of [nd] axes.  The
    running bound starts at [NPY_MAX_INTP / elsize] and is divided down by
    each accepted extent, axes of extent 0 being skipped.  At the first axis
    that is not accepted, a negative extent fails with
    "negative dimensions are not allowed" and an extent above the current
    bound with "array is too big."; in both cases no array is returned and
    the reference to the descriptor is released.  When every axis is
    accepted the constructor goes on to build the array. *)
Theorem new_from_descr_size_check `{RT : Runtime}
    (subtype : PyTypeObject) (descr : PyArray_Descr) (nd : Z)
    (dims : list Z) (strides : option (list Z)) (data : option Z)
    (flags : Z) (obj : option nat) (w : World)
    (Hsub : subarray descr = None)
    (Hnd : nd = Z.of_nat (length dims))
    (Hmax : nd <= MAX_DIMS)
    (Hel : 0 <= elsize descr <= NPY_MAX_INTP)
    (Hstr : elsize descr = 0 -> PyDataType_ISSTRING descr = true) :
  let descr' := (replace_empty_elsize descr w).1 in
  let w' := (replace_empty_elsize descr w).2 in
  let bound0 := NPY_MAX_INTP / elsize descr' in
  let r := PyArray_NewFromDescr subtype descr nd dims strides data flags obj w in
  let released (msg : string) :=
    r.1 = None /\
    err r.2 = Some (PyExc_ValueError, msg) /\
    refcnt r.2 (descr_id descr') = refcnt w' (descr_id descr') - 1 in
  (forall (k : nat) d, accepted_before bound0 dims k -> dims !! k = Some d ->
     d < 0 -> released "negative dimensions are not allowed"%string) /\
  (forall (k : nat) d, accepted_before bound0 dims k -> dims !! k = Some d ->
     0 < d -> running_bound bound0 (take k dims) < d ->
     released "array is too big."%string) /\
  (accepted_before bound0 dims (length dims) ->
     exists size,
       r = build_array subtype descr' nd dims strides data flags obj size w').
Proof.
  intros descr' w' bound0 r released.
  assert (Hr : r = new_from_descr_plain subtype descr nd dims strides data
                     flags obj w).
  { subst r. apply NewFromDescr_plain. exact Hsub. }
  destruct (replace_empty_elsize_elsize descr w Hel) as [Hel' Hsame].
  fold descr' in Hel'.
  assert (Hplain : r =
    match check_dims dims 1 bound0 with
    | DimsNegative =>
        fail_descr descr' PyExc_ValueError
          "negative dimensions are not allowed" w'
    | DimsTooBig =>
        fail_descr descr' PyExc_ValueError "array is too big." w'
    | DimsOk size _ =>
        build_array subtype descr' nd dims strides data flags obj size w'
    end).
  { rewrite Hr. unfold new_from_descr_plain.
    destruct (Z.ltb_spec nd 0); [lia|].
    destruct (Z.ltb_spec MAX_DIMS nd); [lia|].
    replace ((to_uintp (elsize descr) =? 0) && negb (PyDataType_ISSTRING descr))
      with false.
    2:{ symmetry. apply andb_false_iff.
        rewrite to_uintp_small
          by (unfold NPY_MAX_INTP, uintp_modulus in *; lia).
        destruct (Z.eqb_spec (elsize descr) 0) as [E|E]; [right | left; reflexivity].
        rewrite (Hstr E). reflexivity. }
    subst descr' w' bound0.
    destruct (replace_empty_elsize descr w) as [d1 w1]. cbn [fst snd] in *.
    rewrite to_uintp_small
      by (unfold NPY_MAX_INTP, uintp_modulus in *; lia).
    rewrite initial_largest_div by lia.
    rewrite Hnd, Nat2Z.id, firstn_all. reflexivity. }
  assert (Hrel : forall msg,
            r = fail_descr descr' PyExc_ValueError msg w' -> released msg).
  { intros msg E. subst released. cbv beta. rewrite E.
    unfold fail_descr, Py_DECREF, PyErr_SetString. cbn.
    rewrite Nat.eqb_refl. auto. }
  split; [|split].
  - intros k d Hacc Hk Hd. apply Hrel. rewrite Hplain.
    rewrite (check_dims_negative dims 1 bound0 k d Hacc Hk Hd). reflexivity.
  - intros k d Hacc Hk Hd Hbig. apply Hrel. rewrite Hplain.
    rewrite (check_dims_too_big dims 1 bound0 k d Hacc Hk Hd Hbig). reflexivity.
  - intros Hacc. destruct (check_dims_accepted dims 1 bound0 Hacc) as [size Hs].
    exists size. rewrite Hplain, Hs. reflexivity.
Qed.

(** C7.  For a shape that passes the size check of the
    constructor, the size returned by [_array_fill_strides] is the element
    size times the product of the extents in which every zero extent counts
    as 1; it is [elsize * product(shape)] when no extent is 0. *)
Theorem array_fill_strides_total_size
    (strides dims : list Z) (elsz inflag objflags size largest : Z)
    (Hbuf : length strides = length dims)
    (Hel : 0 < elsz <= NPY_MAX_INTP)
    (Hvalid : check_dims dims 1 (NPY_MAX_INTP / elsz) = DimsOk size largest) :
  let total := (_array_fill_strides strides dims (Z.of_nat (length dims))
                  elsz inflag objflags).2 in
  total = elsz * Strides.list_prod (dim_or_1 <$> dims) /\
  (Forall (fun d => d <> 0) dims -> total = elsz * Strides.list_prod dims).
Proof.
  intros total.
  assert (Hdiv : 1 <= NPY_MAX_INTP / elsz).
  { apply Z.div_le_lower_bound; lia. }
  assert (HB : elsz * (NPY_MAX_INTP / elsz) <= NPY_MAX_INTP)
    by (apply Z.mul_div_le; lia).
  destruct (check_dims_product dims 1 (NPY_MAX_INTP / elsz)
              (NPY_MAX_INTP / elsz) size largest) as [Hs Hr];
    [lia | lia | lia | lia | unfold NPY_MAX_INTP in *; nia | exact Hvalid |].
  rewrite Z.mul_1_l in Hs. rewrite <- Hs.
  assert (Htot : total = elsz * size).
  { subst total. unfold _array_fill_strides. rewrite Nat2Z.id.
    assert (Hsmall : to_uintp (elsz * size) = elsz * size).
    { apply to_uintp_small. unfold NPY_MAX_INTP, uintp_modulus in *. nia. }
    destruct (negb (Z.land inflag FORTRAN =? 0) && (Z.land inflag CONTIGUOUS =? 0)).
    - destruct (fortran_loop dims (length dims) 0 (strides, to_uintp elsz))
        as [s' sz'] eqn:Hrun. cbn [snd].
      apply fortran_loop_spec in Hrun;
        [| reflexivity | exact Hbuf | apply to_uintp_idem].
      destruct Hrun as (-> & _). rewrite drop_0, to_uintp_mul_l, <- Hs.
      exact Hsmall.
    - destruct (c_loop dims (length dims) (strides, to_uintp elsz))
        as [s' sz'] eqn:Hrun. cbn [snd].
      apply c_loop_spec in Hrun;
        [| reflexivity | exact Hbuf | apply to_uintp_idem].
      destruct Hrun as (-> & _). rewrite firstn_all, to_uintp_mul_l, <- Hs.
      exact Hsmall. }
  split; [exact Htot|].
  intros Hnz. rewrite Htot, Hs. f_equal. f_equal.
  clear -Hnz. induction Hnz as [|d l Hd _ IH]; [reflexivity|].
  rewrite fmap_cons, IH. unfold dim_or_1.
  destruct (Z.eqb_spec d 0); [contradiction | reflexivity].
Qed.

Lemma array_fill_strides_total_size_witness :
  (_array_fill_strides [0; 0; 0] [2; 0; 3] 3 8 0 0).2
    = 8 * Strides.list_prod (dim_or_1 <$> [2; 0; 3]) /\
  (_array_fill_strides [0; 0] [2; 3] 2 8 0 0).2 = 8 * Strides.list_prod [2; 3].
Proof.
  split.
  - apply (array_fill_strides_total_size [0; 0; 0] [2; 0; 3] 8 0 0 6
             (NPY_MAX_INTP / 8 / 2 / 3) eq_refl).
    + unfold NPY_MAX_INTP. lia.
    + reflexivity.
  - apply (array_fill_strides_total_size [0; 0] [2; 3] 8 0 0 6
             (NPY_MAX_INTP / 8 / 2 / 3) eq_refl).
    + unfold NPY_MAX_INTP. lia.
    + reflexivity.
    + repeat constructor; lia.
Defined.

(** The returned size is not [elsize * product(shape)] on the shape [(0,)],
    which the constructor accepts: the routine returns the element size,
    not 0. *)
Lemma array_fill_strides_total_size_counterexample :
  check_dims [0] 1 (NPY_MAX_INTP / 8) = DimsOk 1 (NPY_MAX_INTP / 8) /\
  (_array_fill_strides [0] [0] 1 8 0 0).2 = 8 /\
  (_array_fill_strides [0] [0] 1 8 0 0).2 <> 8 * Strides.list_prod [0].
Proof.
  split; [reflexivity|]. split; [reflexivity|].
  vm_compute. discriminate.
Qed.


Section Fresh.

Context `{RT : Runtime}.

Lemma CHKFLAGS_lor_OWNDATA f :
  CHKFLAGS (Z.lor f OWNDATA) FORTRAN = CHKFLAGS f FORTRAN.
Proof.
  rewrite !CHKFLAGS_FORTRAN. unfold OWNDATA. rewrite Z.lor_spec.
  cbn. apply orb_false_r.
Qed.

Lemma fortran_requested_FORTRAN : Strides.fortran_requested FORTRAN = true.
Proof. reflexivity. Qed.

Lemma fortran_requested_0 : Strides.fortran_requested 0 = false.
Proof. reflexivity. Qed.

(** An array built for [PyArray_Type] with neither strides nor data given
    has the shape asked for, contiguous strides in the order asked for, and
    data obtained from the allocator. *)
Lemma build_array_fresh descr nd dims flags obj size w tmp w' :
  nd = Z.of_nat (length dims) ->
  build_array PyArray_Type descr nd dims None None flags obj size w
    = (Some tmp, w') ->
  PyArray_NDIM tmp = nd /\
  dimensions tmp = dims /\
  Objects.descr tmp = descr /\
  PyArray_ISFORTRAN tmp = negb (flags =? 0) && (1 <? nd) /\
  length (strides tmp) = length dims /\
  (forall i : nat, (i < length dims)%nat ->
     strides tmp !! i =
       Some (to_intp (elsize descr * Strides.list_prod (Strides.dim_or_1 <$>
               (if negb (flags =? 0) then take i dims
                else drop (S i) dims))))) /\
  (exists sd w1 w2, PyDataMem_NEW sd w1 = (Some (data tmp), w2)).
Proof.
  intros Hnd Hb. unfold build_array in Hb.
  destruct (tp_alloc w) as [[id|] w1]; [|discriminate Hb].
  set (fl := if flags =? 0 then (DEFAULT, flags)
             else (if 1 <? nd
                   then Z.land (Z.lor DEFAULT FORTRAN) (Z.lnot CONTIGUOUS)
                   else Z.lor DEFAULT FORTRAN, FORTRAN)) in Hb.
  assert (Hreq : Strides.fortran_requested fl.2 = negb (flags =? 0)).
  { subst fl. destruct (Z.eqb_spec flags 0) as [->|Hf]; reflexivity. }
  destruct fl as [sflags inflag]. cbn [snd] in Hreq.
  destruct (Z.ltb_spec 0 nd) as [Hpos|Hzero].
  - destruct (PyDimMem_NEW (2 * nd) w1) as [[|] w2]; [|discriminate Hb].
    pose proof (Strides.fill_strides_flags
                  (replicate (Z.to_nat nd) 0) dims nd
                  (to_uintp (elsize descr)) inflag sflags) as Hfl.
    pose proof (Strides.fill_strides_values
                  (replicate (Z.to_nat nd) 0) dims
                  (to_uintp (elsize descr)) inflag sflags) as Hval.
    rewrite <- Hnd in Hval.
    destruct (Strides._array_fill_strides (replicate (Z.to_nat nd) 0) dims nd
                (to_uintp (elsize descr)) inflag sflags)
      as [[st sflags'] sd'].
    cbn [fst snd] in Hfl, Hval.
    destruct (PyDataMem_NEW (if sd' =? 0 then to_uintp (elsize descr) else sd') w2)
      as [[p|] w3] eqn:Hmem; [|discriminate Hb].
    inversion Hb; subst tmp w'; clear Hb.
    unfold PyArray_NDIM, PyArray_ISFORTRAN. cbn [Objects.nd dimensions
      Objects.descr Objects.flags strides data].
    destruct Hval as [Hlen Hst];
      [rewrite length_replicate, Hnd, Nat2Z.id; reflexivity|].
    split; [reflexivity|].
    split; [rewrite Hnd, Nat2Z.id; apply firstn_all|].
    split; [reflexivity|].
    split.
    { rewrite CHKFLAGS_lor_OWNDATA.
      destruct (1 <? nd).
      - destruct Hfl as [Hf _]. rewrite Hf, Hreq. reflexivity.
      - rewrite !andb_false_r. reflexivity. }
    split; [exact Hlen|].
    split.
    { intros i Hi. rewrite (Hst i Hi), Hreq. f_equal.
      apply Strides.to_intp_congr. apply to_uintp_mul_l. }
    eauto.
  - assert (dims = []) by (destruct dims; [reflexivity | simpl in Hnd; lia]).
    subst dims. simpl in Hnd. subst nd.
    destruct (PyDataMem_NEW
                (if to_uintp (elsize descr) =? 0 then to_uintp (elsize descr)
                 else to_uintp (elsize descr)) w1)
      as [[p|] w3] eqn:Hmem; [|discriminate Hb].
    inversion Hb; subst tmp w'; clear Hb.
    unfold PyArray_NDIM, PyArray_ISFORTRAN. cbn [Objects.nd dimensions
      Objects.descr Objects.flags strides data].
    repeat split; try reflexivity.
    + cbn. rewrite !andb_false_r. reflexivity.
    + intros i Hi. simpl in Hi. lia.
    + eauto.
Qed.


(** The same for the whole constructor, on a descriptor without sub-array;
    the descriptor of the array is the one given, or its replacement when
    the element size was 0. *)
Lemma NewFromDescr_fresh descr nd dims flags obj w tmp w' :
  subarray descr = None ->
  nd = Z.of_nat (length dims) ->
  PyArray_NewFromDescr PyArray_Type descr nd dims None None flags obj w
    = (Some tmp, w') ->
  PyArray_NDIM tmp = nd /\
  dimensions tmp = dims /\
  Objects.descr tmp = (replace_empty_elsize descr w).1 /\
  PyArray_ISFORTRAN tmp = negb (flags =? 0) && (1 <? nd) /\
  length (strides tmp) = length dims /\
  (forall i : nat, (i < length dims)%nat ->
     strides tmp !! i =
       Some (to_intp (elsize (Objects.descr tmp) *
               Strides.list_prod (Strides.dim_or_1 <$>
                 (if negb (flags =? 0) then take i dims
                  else drop (S i) dims))))) /\
  (exists sd w1 w2, PyDataMem_NEW sd w1 = (Some (data tmp), w2)).
Proof.
  intros Hsub Hnd Hnew.
  rewrite (NewFromDescr_plain _ _ _ _ _ _ _ _ _ Hsub) in Hnew.
  unfold new_from_descr_plain, fail_descr in Hnew.
  destruct (nd <? 0); [discriminate Hnew|].
  destruct (MAX_DIMS <? nd); [discriminate Hnew|].
  destruct ((to_uintp (elsize descr) =? 0)
            && negb (PyDataType_ISSTRING descr)); [discriminate Hnew|].
  destruct (replace_empty_elsize descr w) as [d1 w1]. cbn [fst].
  destruct (check_dims (take (Z.to_nat nd) dims) 1
              (initial_largest (to_uintp (elsize d1))))
    as [size largest| |]; [|discriminate Hnew..].
  apply build_array_fresh in Hnew; [|exact Hnd].
  destruct Hnew as (H1 & H2 & H3 & H4 & H5 & H6 & H7).
  repeat split; try assumption.
  intros i Hi. rewrite H3. apply H6. exact Hi.
Qed.

End Fresh.

End Alloc.

(** ** A simple runtime

    A runtime in which every allocation succeeds: objects get the next
    identity with one reference, data blocks are carved from the heap
    frontier, and deallocating an array releases its descriptor.  It serves
    to run the routines on concrete inputs. *)

Module Simple.

Import Alloc.

Definition new_object (w : World) : nat * World :=
  (next_obj w,
   {| refcnt := fun x => if Nat.eqb x (next_obj w) then 1 else refcnt w x;
      mem := mem w; err := err w;
      next_obj := S (next_obj w); heap_top := heap_top w |}).

Definition simple_tp_alloc (w : World) : option nat * World :=
  let '(id, w) := new_object w in (Some id, w).

Definition simple_PyDataMem_NEW (n : Z) (w : World) : option Z * World :=
  (Some (heap_top w),
   {| refcnt := refcnt w; mem := mem w; err := err w;
      next_obj := next_obj w; heap_top := heap_top w + Z.max n 1 |}).

Definition simple_DescrNew (d : PyArray_Descr) (w : World)
    : PyArray_Descr * World :=
  let '(id, w) := new_object w in
  ({| descr_id := id; type_num := type_num d; elsize := elsize d;
      needs_init := needs_init d; native_byteorder := native_byteorder d;
      subarray := subarray d |}, w).

Definition simple_runtime : Runtime :=
  {| tp_alloc := simple_tp_alloc;
     PyDimMem_NEW := fun _ w => (true, w);
     PyDataMem_NEW := simple_PyDataMem_NEW;
     PyArray_DescrNew := simple_DescrNew;
     array_dealloc := fun a w => Py_DECREF (descr_id (descr a)) w;
     PyArray_UpdateFlags := fun a => a;
     Py_None := 0%nat |}.

(** An 8-byte integer descriptor held by one reference, and a state in which
    nothing else is allocated. *)
Definition long_descr : PyArray_Descr :=
  {| descr_id := 1%nat; type_num := 7; elsize := 8; needs_init := false;
     native_byteorder := true; subarray := None |}.

Definition world0 : World :=
  {| refcnt := fun x => if Nat.eqb x 1 then 1 else 0;
     mem := fun _ => 0; err := None;
     next_obj := 16%nat; heap_top := 4096 |}.

Lemma new_from_descr_size_check_witness :
  let r := PyArray_NewFromDescr (RT := simple_runtime) PyArray_Type
             long_descr 2 [2; -1] None None 0 None world0 in
  r.1 = None /\
  err r.2 = Some (PyExc_ValueError, "negative dimensions are not allowed"%string) /\
  refcnt r.2 1%nat = 0.
Proof.
  destruct (new_from_descr_size_check (RT := simple_runtime) PyArray_Type
              long_descr 2 [2; -1] None None 0 None world0
              eq_refl eq_refl
              ltac:(unfold MAX_DIMS; lia)
              ltac:(unfold NPY_MAX_INTP; simpl; lia)
              ltac:(simpl; discriminate)) as [Hneg _].
  apply (Hneg 1%nat (-1)).
  - intros j dj Hj Hl. destruct j as [|j]; [|lia].
    inversion Hl; subst dj. right. vm_compute. split; [reflexivity | discriminate].
  - reflexivity.
  - lia.
Defined.

End Simple.

(** ** Separator normalisation ([swab_separator]) *)

Module Separator.

Local Open Scope string_scope.

(** [isspace] of the C locale: space, [\t], [\n], [\v], [\f], [\r]. *)
Definition isspace (c : ascii) : bool :=
  let n := nat_of_ascii c in
  Nat.eqb n 32 || (Nat.leb 9 n && Nat.leb n 13).

(** [*s = c; s++] on the output written so far. *)
Definition put (out : string) (c : ascii) : string := out ++ String c "".

(** The loop [while ( *sep != '\0')], with the output written so far. *)
Fixpoint swab_loop (sep : string) (skip_space : bool) (out : string) : string :=
  match sep with
  | EmptyString => out
  | String c rest =>
      if isspace c then
        if skip_space then swab_loop rest skip_space out
        else swab_loop rest true (put out " ")
      else swab_loop rest false (put out c)
  end.

(** The last character written, [s[-1]], if any ([s != start]). *)
Fixpoint last_char (s : string) : option ascii :=
  match s with
  | EmptyString => None
  | String c EmptyString => Some c
  | String _ rest => last_char rest
  end.

Definition swab_separator (sep : string) : string :=
  (* add space to front if there isn't one *)
  let out :=
    match sep with
    | String c _ => if negb (isspace c) then put "" " " else ""
    | EmptyString => ""
    end in
  let out := swab_loop sep false out in
  (* add space to end if there isn't one *)
  match last_char out with
  | Some " "%char => put out " "
  | _ => out
  end.

Example swab_comma_space : swab_separator ", " = " ,  ".
Proof. reflexivity. Qed.

Example swab_tabs : swab_separator (String "009" (String "009" "x")) = " x".
Proof. reflexivity. Qed.

(** C8.  On the separator [","] the cleaned separator is [" ,"]: no space
    is added at the end although the separator does not end with
    whitespace; and on [", "] the end holds two spaces, a run of whitespace
    that is not collapsed.  The test before the final [*s = ' '] is
    [s[-1] == ' '], where the comment above it says "add space to end if
    there isn't one". *)
Theorem swab_separator_trailing_space :
  swab_separator "," = " ," /\
  last_char (swab_separator ",") = Some ","%char /\
  swab_separator ", " = " ,  ".
Proof. repeat split. Qed.

(** The character written last is the last character. *)
Lemma last_char_put out c : last_char (put out c) = Some c.
Proof.
  unfold put. induction out as [|a out IH]; [reflexivity|].
  simpl. destruct (out ++ String c "") eqn:E.
  - destruct out; discriminate E.
  - exact IH.
Qed.

Lemma swab_loop_last sep : forall skip out c,
  last_char sep = Some c -> isspace c = false ->
  last_char (swab_loop sep skip out) = Some c.
Proof.
  induction sep as [|a rest IH]; intros skip out c Hl Hc; [discriminate Hl|].
  destruct rest as [|b rest'].
  - simpl in Hl. inversion Hl; subst a. simpl. rewrite Hc. apply last_char_put.
  - change (last_char (String b rest') = Some c) in Hl.
    remember (String b rest') as tl eqn:Etl. clear Etl.
    cbn [swab_loop]. destruct (isspace a); [destruct skip|]; apply IH; assumption.
Qed.

(** X8.  A separator ending in a character that is not whitespace is
    cleaned into one ending in that same character: no space is added at
    the end of such a separator. *)
Lemma swab_separator_keeps_last sep c :
  last_char sep = Some c -> isspace c = false ->
  last_char (swab_separator sep) = Some c.
Proof.
  intros Hl Hc. unfold swab_separator.
  rewrite (swab_loop_last sep false _ c Hl Hc).
  destruct c as [[] [] [] [] [] [] [] []];
    try (apply swab_loop_last; assumption).
  discriminate Hc.
Qed.

Lemma swab_separator_keeps_last_witness :
  last_char (swab_separator ";;") = Some ";"%char.
Proof.
  apply (swab_separator_keeps_last ";;" ";"); reflexivity.
Defined.

End Separator.

(** ** Strided copy and byte swap *)

Module Swap.

(** [c = *a; *a = *b; *b = c] *)
Definition exchange (a b : Z) (m : Z -> Z) : Z -> Z :=
  fun x => if x =? b then m a else if x =? a then m b else m x.

(** The inner loop of the general case:
    [for (j = 0; j < m; j++) { c = *a; *a++ = *b; *b-- = c; }],
    returning the advanced [a]. *)
Fixpoint swap_pairs (j : nat) (a b : Z) (m : Z -> Z) : Z * (Z -> Z) :=
  match j with
  | O => (a, m)
  | S j' => swap_pairs j' (a + 1) (b - 1) (exchange a b m)
  end.

(** One iteration of each [for (a = p; n > 0; n--, a += ...)] loop, giving
    the next [a]. *)
Definition swap_item (size : Z) (stride : Z) (a : Z) (m : Z -> Z)
    : Z * (Z -> Z) :=
  if size =? 4 then
    let b := a + 3 in
    let m := exchange a b m in
    let a := a + 1 in let b := b - 1 in
    let m := exchange a b m in
    (a + (stride - 1), m)
  else if size =? 8 then
    let b := a + 7 in
    let m := exchange a b m in
    let a := a + 1 in let b := b - 1 in
    let m := exchange a b m in
    let a := a + 1 in let b := b - 1 in
    let m := exchange a b m in
    let a := a + 1 in let b := b - 1 in
    let m := exchange a b m in
    (a + (stride - 3), m)
  else if size =? 2 then
    let b := a + 1 in
    (a + stride, exchange a b m)
  else
    let half := Z.quot size 2 in
    let b := a + (size - 1) in
    let '(a, m) := swap_pairs (Z.to_nat half) a b m in
    (a + (stride - half), m).

Fixpoint swap_items (n : nat) (size stride a : Z) (m : Z -> Z) : Z -> Z :=
  match n with
  | O => m
  | S n' =>
      let '(a, m) := swap_item size stride a m in
      swap_items n' size stride a m
  end.

(** [_strided_byte_swap(p, stride, n, size)] *)
Definition _strided_byte_swap (p stride n size : Z) (m : Z -> Z) : Z -> Z :=
  if size =? 1 then m
  else swap_items (Z.to_nat n) size stride p m.

(** [byte_swap_vector(p, n, size)] *)
Definition byte_swap_vector (p n size : Z) (m : Z -> Z) : Z -> Z :=
  _strided_byte_swap p size n size m.

(** The loop [for (i = 0; i < numitems; i++)] of [copy_and_swap], returning
    the advanced [d1]. *)
Fixpoint gather (n : nat) (d1 s1 itemsize srcstrides : Z) (m : Z -> Z)
    : Z * (Z -> Z) :=
  match n with
  | O => (d1, m)
  | S n' =>
      gather n' (d1 + itemsize) (s1 + srcstrides) itemsize srcstrides
        (memcpy d1 s1 itemsize m)
  end.

(** [copy_and_swap(dst, src, itemsize, numitems, srcstrides, swap)] *)
Definition copy_and_swap (dst src itemsize numitems srcstrides swap : Z)
    (m : Z -> Z) : Z -> Z :=
  let s1 := src in
  let d1 := dst in
  let '(d1, m) :=
    if (numitems =? 1) || (itemsize =? srcstrides)
    then (d1, memcpy d1 s1 (itemsize * numitems) m)
    else gather (Z.to_nat numitems) d1 s1 itemsize srcstrides m in
  if swap =? 0 then m
  else byte_swap_vector d1 numitems itemsize m.

(** A memory holding the bytes of [l] from address [base] on, 0 elsewhere. *)
Definition bytes_at (base : Z) (l : list Z) : Z -> Z :=
  fun a => if (base <=? a) && (a <? base + Z.of_nat (length l))
           then l !!! Z.to_nat (a - base) else 0.

(** The bytes of [m] at [n] addresses from [p] on. *)
Definition read_bytes (m : Z -> Z) (p : Z) (n : nat) : list Z :=
  map (fun i => m (p + Z.of_nat i)) (seq 0 n).

Example swap_contiguous :
  read_bytes (copy_and_swap 200 100 2 2 2 1 (bytes_at 100 [1; 2; 3; 4])) 200 4
  = [2; 1; 4; 3].
Proof. reflexivity. Qed.

(** C9.  Two 2-byte items gathered at stride 4, swap requested: the
    destination [200..203] is left holding the items unswapped, and the
    bytes swapped are the four that follow the destination, because the
    swap starts from [d1], which the copying loop has advanced past the
    destination.  The contiguous path, which does not advance [d1], swaps
    the destination. *)
Theorem copy_and_swap_strided_swaps_past_dst :
  let m0 := fun a => if (204 <=? a) && (a <? 208) then a - 199
                     else bytes_at 100 [1; 2; 9; 9; 3; 4] a in
  let m := copy_and_swap 200 100 2 2 4 1 m0 in
  read_bytes m 200 4 = [1; 2; 3; 4] /\
  read_bytes m0 204 4 = [5; 6; 7; 8] /\
  read_bytes m 204 4 = [6; 5; 8; 7] /\
  read_bytes (copy_and_swap 200 100 2 2 2 1 (bytes_at 100 [1; 2; 3; 4])) 200 4
    = [2; 1; 4; 3].
Proof. repeat split. Qed.

(** *** The swap of the strided path misses the destination *)

Lemma exchange_below a b m x : x < a -> x < b -> exchange a b m x = m x.
Proof.
  intros Ha Hb. unfold exchange.
  destruct (Z.eqb_spec x b); [lia|]. destruct (Z.eqb_spec x a); [lia|].
  reflexivity.
Qed.

Lemma swap_pairs_below j : forall a b m x,
  x < a -> x + Z.of_nat j <= b ->
  (swap_pairs j a b m).2 x = m x /\ (swap_pairs j a b m).1 = a + Z.of_nat j.
Proof.
  induction j as [|j IH]; intros a b m x Ha Hb; cbn [swap_pairs].
  - split; [reflexivity | cbn; lia].
  - destruct (IH (a + 1) (b - 1) (exchange a b m) x) as [Hm Hp]; [lia | lia |].
    rewrite Hm, Hp. split; [apply exchange_below; lia | lia].
Qed.

Lemma swap_item_below size stride a m x :
  1 <= size -> x < a ->
  (swap_item size stride a m).2 x = m x /\
  (swap_item size stride a m).1 = a + stride.
Proof.
  intros Hs Ha. unfold swap_item.
  destruct (Z.eqb_spec size 4); [|destruct (Z.eqb_spec size 8);
    [|destruct (Z.eqb_spec size 2)]]; cbn [fst snd].
  - split; [|lia]. rewrite !exchange_below by lia. reflexivity.
  - split; [|lia]. rewrite !exchange_below by lia. reflexivity.
  - split; [|lia]. rewrite !exchange_below by lia. reflexivity.
  - assert (Hq : 0 <= Z.quot size 2 <= size).
    { rewrite Z.quot_div_nonneg by lia. split.
      - apply Z.div_pos; lia.
      - apply Z.div_le_upper_bound; lia. }
    destruct (swap_pairs_below (Z.to_nat (Z.quot size 2)) a (a + (size - 1)) m x)
      as [Hm Hp]; [lia | lia |].
    destruct (swap_pairs (Z.to_nat (Z.quot size 2)) a (a + (size - 1)) m)
      as [a' m']. cbn [fst snd] in *. split; [exact Hm | lia].
Qed.

Lemma swap_items_below n : forall size stride a m x,
  1 <= size -> 0 <= stride -> x < a ->
  swap_items n size stride a m x = m x.
Proof.
  induction n as [|n IH]; intros size stride a m x Hs Hst Ha;
    cbn [swap_items]; [reflexivity|].
  destruct (swap_item_below size stride a m x Hs Ha) as [Hm Hp].
  destruct (swap_item size stride a m) as [a' m']. cbn [fst snd] in *.
  rewrite IH by lia. exact Hm.
Qed.

Lemma byte_swap_vector_below p n size m x :
  1 <= size -> x < p -> byte_swap_vector p n size m x = m x.
Proof.
  intros Hs Hx. unfold byte_swap_vector, _strided_byte_swap.
  destruct (size =? 1); [reflexivity|].
  apply swap_items_below; lia.
Qed.

Lemma gather_pointer n : forall d1 s1 itemsize srcstrides m,
  (gather n d1 s1 itemsize srcstrides m).1 = d1 + Z.of_nat n * itemsize.
Proof.
  induction n as [|n IH]; intros d1 s1 itemsize srcstrides m; cbn [gather].
  - cbn. lia.
  - rewrite IH. lia.
Qed.

(** X12.  In the strided loop path, asking for the swap changes no byte of
    the destination (nor any byte below its end): the destination holds the
    gathered items unswapped. *)
Lemma copy_and_swap_strided_ignores_swap
    (dst src itemsize numitems srcstrides swap : Z) (m : Z -> Z) (x : Z) :
  1 <= itemsize -> 0 <= numitems -> numitems <> 1 -> itemsize <> srcstrides ->
  x < dst + numitems * itemsize ->
  copy_and_swap dst src itemsize numitems srcstrides swap m x
  = copy_and_swap dst src itemsize numitems srcstrides 0 m x.
Proof.
  intros Hs Hn H1 Hst Hx. unfold copy_and_swap.
  destruct (Z.eqb_spec numitems 1); [contradiction|].
  destruct (Z.eqb_spec itemsize srcstrides); [contradiction|].
  cbn [orb].
  pose proof (gather_pointer (Z.to_nat numitems) dst src itemsize srcstrides m)
    as Hp.
  destruct (gather (Z.to_nat numitems) dst src itemsize srcstrides m)
    as [d1 m']. cbn [fst] in Hp.
  cbn [Z.eqb]. destruct (swap =? 0); [reflexivity|].
  apply byte_swap_vector_below; [exact Hs|]. rewrite Hp, Z2Nat.id by lia.
  exact Hx.
Qed.

Lemma copy_and_swap_strided_ignores_swap_witness :
  copy_and_swap 200 100 2 2 4 1 (bytes_at 100 [1; 2; 9; 9; 3; 4]) 201
  = copy_and_swap 200 100 2 2 4 0 (bytes_at 100 [1; 2; 9; 9; 3; 4]) 201.
Proof.
  apply (copy_and_swap_strided_ignores_swap 200 100 2 2 4 1
           (bytes_at 100 [1; 2; 9; 9; 3; 4]) 201); lia.
Defined.

End Swap.

(** ** Dimension discovery ([discover_dimensions]) *)

Module Discovery.

(** The objects dimension discovery distinguishes: an existing array (with
    its number of dimensions and extents), a sequence with its items, and
    an object that has no length. *)
Inductive PyObject : Type :=
| PyArr (ndim : Z) (dims : list Z)
| PySeq (items : list PyObject)
| PyScalar.

Definition shape_error : PyExc * string :=
  (PyExc_ValueError, "inconsistent shape in sequence"%string).

(** The exception [PyObject_Length] leaves on an object without length; its
    message is the interpreter's. *)
Definition length_error : PyExc * string := (PyExc_TypeError, ""%string).

(** The range of a C [int], and the conversion of an [npy_intp] or a
    [Py_ssize_t] to [int], which keeps the low 32 bits. *)
Definition INT_MIN : Z := -2147483648.
Definition INT_MAX : Z := 2147483647.

Definition to_int (z : Z) : Z := (z + 2147483648) mod 4294967296 - 2147483648.

(** The result code, the buffer of extents and the exception raised if
    any; [None] when the call reads or writes outside the buffer, or reads
    past the extents of an array: the C code then accesses memory that
    holds no extent (the strides of the array, or what lies behind the
    block), and what it does is not determined by the objects. *)
Definition Discovered : Type := option (Z * list Z * option (PyExc * string)).

(** [d[i] = v] on the buffer of extents. *)
Definition store (i : nat) (v : Z) (d : list Z) : option (list Z) :=
  if (i <? length d)%nat then Some (<[i := v]> d) else None.

(** [for (i = 0; i < nd; i++) d[i] = PyArray_DIM(s, i);] on the buffer [d]
    from slot [k] on; an array has the extents [dims] and no other. *)
Fixpoint copy_dims (n i : nat) (dims : list Z) (k : nat) (d : list Z)
    : option (list Z) :=
  match n with
  | O => Some d
  | S n' =>
      match dims !! i with
      | Some dim =>
          match store (k + i) dim d with
          | Some d => copy_dims n' (S i) dims k d
          | None => None
          end
      | None => None
      end
  end.

(** The loop over the items of a sequence, [rec] being the recursive call
    [discover_dimensions(e, nd - 1, d + 1, check_it)].  [n_lower] is an
    [int]: the tests [n_lower != d[1]] and [d[1] > n_lower] compare it with
    the [npy_intp] in the buffer, and [n_lower = d[1]] keeps the low 32 bits
    of the extent. *)
Fixpoint children_loop (rec : PyObject -> list Z -> Discovered)
    (k : nat) (check_it : bool) (items : list PyObject) (n_lower : Z)
    (d : list Z) {struct items} : Discovered :=
  match items with
  | [] =>
      match store (S k) n_lower d with
      | Some d => Some (0, d, None)
      | None => None
      end
  | e :: rest =>
      match rec e d with
      | None => None
      | Some (r, d, exc) =>
          if r =? -1 then Some (-1, d, exc)
          else
            match d !! S k with
            | None => None
            | Some d1 =>
                if check_it && negb (n_lower =? 0) && negb (n_lower =? d1)
                then Some (-1, d, Some shape_error)
                else children_loop rec k check_it rest
                       (if n_lower <? d1 then to_int d1 else n_lower) d
            end
      end
  end.

(** [discover_dimensions(s, nd, d, check_it)], where [d] points at slot [k]
    of the buffer of extents.  [n = PyObject_Length(s)] is an [int]: it
    keeps the low 32 bits of the length, and the loop runs over the first
    [n] items.  The recursion is on [nd]. *)
Fixpoint discover_dimensions (nd : nat) (s : PyObject) (k : nat) (d : list Z)
    (check_it : bool) {struct nd} : Discovered :=
  match s with
  | PyArr ndim dims =>
      match (if ndim =? 0 then store k 0 d else copy_dims nd 0 dims k d) with
      | Some d => Some (0, d, None)
      | None => None
      end
  | PyScalar =>
      match store k (-1) d with
      | Some d => Some (-1, d, Some length_error)
      | None => None
      end
  | PySeq items =>
      let n := to_int (Z.of_nat (length items)) in
      match store k n d with
      | None => None
      | Some d =>
          if n <? 0 then Some (-1, d, None)
          else
            match nd with
            | O => Some (0, d, None)
            | S nd' =>
                match nd' with
                | O => Some (0, d, None)
                | S _ =>
                    children_loop
                      (fun e d => discover_dimensions nd' e (S k) d check_it)
                      k check_it (take (Z.to_nat n) items) 0 d
                end
            end
      end
  end.

(** Sequences of integers leaves, for examples. *)
Definition row (n : nat) : PyObject := PySeq (replicate n PyScalar).

Example discover_ragged :
  discover_dimensions 2 (PySeq [row 3; row 2]) 0 [0; 0; 0] false
  = Some (0, [2; 3; 0], None).
Proof. reflexivity. Qed.

Example discover_ragged_strict :
  discover_dimensions 2 (PySeq [row 3; row 2]) 0 [0; 0; 0] true
  = Some (-1, [2; 2; 0], Some shape_error).
Proof. reflexivity. Qed.

Example discover_empty_first_strict :
  discover_dimensions 2 (PySeq [row 0; row 2]) 0 [0; 0; 0] true
  = Some (0, [2; 2; 0], None).
Proof. reflexivity. Qed.

(** An array of [2^32 + 2] items beside a row of 2: the extent kept in the
    [int] is 2, so that the strict check passes and 2 is recorded. *)
Example discover_truncated_extent :
  discover_dimensions 2 (PySeq [PyArr 1 [4294967298]; row 2]) 0 [0; 0; 0] true
  = Some (0, [2; 2; 0], None).
Proof. reflexivity. Qed.

(** An array of one axis read as two: the second extent is read past the
    extents of the array. *)
Example discover_array_too_flat :
  discover_dimensions 3 (PySeq [PyArr 1 [4]]) 0 [0; 0; 0] false = None.
Proof. reflexivity. Qed.

(** A buffer of one slot for two axes: the second extent is written behind
    it. *)
Example discover_buffer_too_short :
  discover_dimensions 2 (PySeq [row 3]) 0 [0] false = None.
Proof. reflexivity. Qed.

(** *** What the loop records *)

(** The extent a call on [e] leaves in its first slot. *)
Definition first_extent (e : PyObject) : Z :=
  match e with
  | PySeq items => Z.of_nat (length items)
  | PyArr ndim dims => if ndim =? 0 then 0 else dims !!! 0%nat
  | PyScalar => -1
  end.

(** The largest first extent among [items], starting from [m]. *)
Definition max_extent (m : Z) (items : list PyObject) : Z :=
  foldl (fun m e => Z.max m (first_extent e)) m items.

(** [s] can be read as [nd] axes: no object without length is met above
    depth [nd], an array met has the axes read from it and a first extent
    that fits an [int], and the length of every sequence fits an [int]. *)
Fixpoint deep (nd : nat) (s : PyObject) : bool :=
  match s with
  | PyScalar => false
  | PyArr ndim dims =>
      ((ndim =? 0) || (nd <=? length dims)%nat)
      && (INT_MIN <=? first_extent s) && (first_extent s <=? INT_MAX)
  | PySeq items =>
      (Z.of_nat (length items) <=? INT_MAX)
      && match nd with
         | O => true
         | S nd' =>
             match nd' with
             | O => true
             | S _ => forallb (deep nd') items
             end
         end
  end.

(** What a call at slot [k] does on such an object: it leaves the slots
    before [k] alone, and either succeeds, recording the first extent, or
    (under the strict check only) fails with the shape error. *)
Definition discovered (check_it : bool) (e : PyObject) (k : nat) (d : list Z)
    (res : Discovered) : Prop :=
  exists r d' exc,
    res = Some (r, d', exc) /\
    length d' = length d /\
    (forall j : nat, (j < k)%nat -> d' !! j = d !! j) /\
    ((r = 0 /\ exc = None /\ d' !! k = Some (first_extent e)) \/
     (check_it = true /\ r = -1 /\ exc = Some shape_error)).

Lemma to_int_small z : INT_MIN <= z <= INT_MAX -> to_int z = z.
Proof.
  unfold to_int, INT_MIN, INT_MAX. intros H.
  rewrite Z.mod_small by lia. lia.
Qed.

Lemma deep_first_extent nd e :
  deep nd e = true -> INT_MIN <= first_extent e <= INT_MAX.
Proof.
  destruct nd; destruct e as [ndim dims | items |]; cbn [deep];
    try discriminate.
  all: intros H; apply andb_prop in H as [H H2].
  1, 3: apply andb_prop in H as [_ H1]; apply Z.leb_le in H1, H2; lia.
  all: apply Z.leb_le in H; cbn [first_extent]; unfold INT_MIN; lia.
Qed.

Lemma store_room (i : nat) (v : Z) (d : list Z) :
  (i < length d)%nat -> store i v d = Some (<[i := v]> d).
Proof.
  intros H. unfold store. destruct (Nat.ltb_spec i (length d)); [reflexivity | lia].
Qed.

Lemma copy_dims_spec n : forall (i : nat) dims (k : nat) d,
  (i + n <= length dims)%nat ->
  (k + i + n <= length d)%nat ->
  exists d', copy_dims n i dims k d = Some d' /\
    length d' = length d /\
    (forall j : nat, (j < k + i)%nat -> d' !! j = d !! j).
Proof.
  induction n as [|n IH]; intros i dims k d Hn Hroom; cbn [copy_dims].
  - exists d. auto.
  - destruct (lookup_lt_is_Some_2 dims i ltac:(lia)) as [x Hx]. rewrite Hx.
    rewrite store_room by lia.
    destruct (IH (S i) dims k (<[(k + i)%nat := x]> d) ltac:(lia)
                ltac:(rewrite length_insert; lia))
      as (d' & Hd' & Hl & Hp).
    exists d'. split; [exact Hd'|]. rewrite length_insert in Hl.
    split; [exact Hl|].
    intros j Hj. rewrite Hp by lia. apply list_lookup_insert_ne. lia.
Qed.

Lemma max_step (n_lower d1 : Z) :
  INT_MIN <= d1 <= INT_MAX ->
  (if n_lower <? d1 then to_int d1 else n_lower) = Z.max n_lower d1.
Proof.
  intros H. rewrite to_int_small by exact H.
  destruct (Z.ltb_spec n_lower d1); lia.
Qed.

Section Loop.

Variables (rec : PyObject -> list Z -> Discovered)
          (good : PyObject -> bool)
          (k : nat) (check_it : bool) (len : nat).

Hypothesis rec_ok : forall e d, good e = true -> (len <= length d)%nat ->
  discovered check_it e (S k) d (rec e d).

Hypothesis good_int : forall e, good e = true ->
  INT_MIN <= first_extent e <= INT_MAX.

Hypothesis len_ok : (S k < len)%nat.

Lemma children_loop_spec items : forall n_lower d,
  forallb good items = true ->
  (len <= length d)%nat ->
  exists r d' exc,
    children_loop rec k check_it items n_lower d = Some (r, d', exc) /\
    length d' = length d /\
    (forall j : nat, (j <= k)%nat -> d' !! j = d !! j) /\
    ((r = 0 /\ exc = None /\
      d' !! S k = Some (max_extent n_lower items)) \/
     (check_it = true /\ r = -1 /\ exc = Some shape_error)).
Proof using rec_ok good_int len_ok.
  induction items as [|e rest IH]; intros n_lower d Hall Hd;
    cbn [children_loop].
  - rewrite store_room by lia.
    eexists _, _, _. split; [reflexivity|]. rewrite length_insert.
    split; [reflexivity|]. split.
    + intros j Hj. apply list_lookup_insert_ne. lia.
    + left. repeat split. apply list_lookup_insert_eq. lia.
  - cbn [forallb] in Hall. apply andb_prop in Hall. destruct Hall as [He Hrest].
    destruct (rec_ok e d He Hd) as (r & d' & exc & -> & Hlen & Hpre & Hres).
    destruct Hres as [(-> & -> & Hk) | (Hc & -> & ->)].
    + cbn [Z.eqb]. rewrite Hk.
      destruct (check_it && negb (n_lower =? 0)
                && negb (n_lower =? first_extent e)) eqn:Hchk.
      * eexists _, _, _. split; [reflexivity|]. split; [exact Hlen|]. split.
        -- intros j Hj. apply Hpre. lia.
        -- right. apply andb_prop in Hchk. destruct Hchk as [Hchk _].
           apply andb_prop in Hchk. destruct Hchk as [Hchk _]. auto.
      * rewrite max_step by (apply good_int; exact He).
        destruct (IH (Z.max n_lower (first_extent e)) d' Hrest ltac:(lia))
          as (r2 & d2 & exc2 & Heq & Hl2 & Hp2 & Hr2).
        exists r2, d2, exc2. split; [exact Heq|]. split; [lia|]. split.
        -- intros j Hj. rewrite Hp2 by lia. apply Hpre. lia.
        -- exact Hr2.
    + cbn [Z.eqb Pos.eqb]. eexists _, _, _. split; [reflexivity|].
      split; [exact Hlen|]. split.
      * intros j Hj. apply Hpre. lia.
      * right. auto.
Qed.

Lemma children_loop_mismatch pre : forall e post n_lower d,
  forallb good (pre ++ [e]) = true ->
  (len <= length d)%nat ->
  check_it = true ->
  max_extent n_lower pre <> 0 ->
  first_extent e <> max_extent n_lower pre ->
  exists d',
    children_loop rec k check_it (pre ++ e :: post) n_lower d
    = Some (-1, d', Some shape_error).
Proof using rec_ok good_int len_ok.
  induction pre as [|p pre IH]; intros e post n_lower d Hall Hd Hc Hnz Hne;
    cbn [app children_loop]; cbn [app forallb] in Hall;
    apply andb_prop in Hall; destruct Hall as [Hg Hall].
  - cbn [max_extent foldl] in Hnz, Hne.
    destruct (rec_ok e d Hg Hd) as (r & d' & exc & -> & Hlen & Hpre & Hres).
    destruct Hres as [(-> & -> & Hk) | (_ & -> & ->)]; [|eauto].
    cbn [Z.eqb]. rewrite Hk, Hc.
    destruct (Z.eqb_spec n_lower 0); [contradiction|].
    destruct (Z.eqb_spec n_lower (first_extent e)); [congruence|].
    cbn [andb negb]. eauto.
  - change (max_extent n_lower (p :: pre))
      with (max_extent (Z.max n_lower (first_extent p)) pre) in Hnz, Hne.
    destruct (rec_ok p d Hg Hd) as (r & d' & exc & -> & Hlen & Hpre & Hres).
    destruct Hres as [(-> & -> & Hk) | (_ & -> & ->)]; [|eauto].
    cbn [Z.eqb]. rewrite Hk.
    destruct (check_it && negb (n_lower =? 0)
              && negb (n_lower =? first_extent p)); [eauto|].
    rewrite max_step by (apply good_int; exact Hg).
    apply IH; [assumption | lia | assumption ..].
Qed.

End Loop.

Lemma discover_deep nd : forall e (k : nat) d check_it,
  (1 <= nd)%nat -> deep nd e = true -> (k + nd <= length d)%nat ->
  discovered check_it e k d (discover_dimensions nd e k d check_it).
Proof.
  induction nd as [|nd IH]; intros e k d check_it Hnd Hdeep Hlen; [lia|].
  destruct e as [ndim dims | items |]; [| |discriminate Hdeep].
  - cbn [discover_dimensions]. unfold discovered. cbn [first_extent].
    cbn [deep] in Hdeep. apply andb_prop in Hdeep as [Hdeep _].
    apply andb_prop in Hdeep as [Hdeep _].
    destruct (ndim =? 0).
    + rewrite store_room by lia.
      eexists _, _, _. split; [reflexivity|]. rewrite length_insert.
      split; [reflexivity|]. split.
      * intros j Hj. apply list_lookup_insert_ne. lia.
      * left. repeat split. apply list_lookup_insert_eq. lia.
    + cbn [orb] in Hdeep. apply Nat.leb_le in Hdeep.
      destruct (copy_dims_spec (S nd) 0 dims k d ltac:(lia) ltac:(lia))
        as (d' & Hd' & Hl & Hp).
      rewrite Hd'. eexists _, _, _. split; [reflexivity|].
      split; [exact Hl|]. split.
      * intros j Hj. apply Hp. lia.
      * left. repeat split. cbn [copy_dims] in Hd'.
        destruct (lookup_lt_is_Some_2 dims 0 ltac:(lia)) as [x Hx].
        rewrite Hx, store_room in Hd' by lia.
        destruct (copy_dims_spec nd 1 dims k (<[(k + 0)%nat := x]> d)
                    ltac:(lia) ltac:(rewrite length_insert; lia))
          as (d2 & Hd2 & _ & Hp1).
        rewrite Hd2 in Hd'. injection Hd' as <-.
        rewrite Hp1 by lia. rewrite Nat.add_0_r.
        rewrite (list_lookup_total_correct _ _ _ Hx).
        apply list_lookup_insert_eq. lia.
  - cbn [deep] in Hdeep. apply andb_prop in Hdeep as [Hint Hdeep].
    apply Z.leb_le in Hint.
    cbn [discover_dimensions]. cbv zeta.
    rewrite to_int_small by (unfold INT_MIN; lia).
    rewrite store_room by lia.
    destruct (Z.ltb_spec (Z.of_nat (length items)) 0); [lia|].
    rewrite Nat2Z.id, firstn_all.
    destruct nd as [|nd'].
    + unfold discovered. cbn [first_extent].
      eexists _, _, _. split; [reflexivity|]. rewrite length_insert.
      split; [reflexivity|]. split.
      * intros j Hj. apply list_lookup_insert_ne. lia.
      * left. repeat split. apply list_lookup_insert_eq. lia.
    + destruct (children_loop_spec
        (fun e d => discover_dimensions (S nd') e (S k) d check_it)
        (deep (S nd')) k check_it (k + S (S nd'))%nat) with
        (items := items) (n_lower := 0)
        (d := <[k := Z.of_nat (length items)]> d)
        as (r & d' & exc & Heq & Hl & Hp & Hres).
      * intros e' d' He' Hd'. apply IH; [lia | exact He' | lia].
      * intros e' He'. exact (deep_first_extent _ _ He').
      * lia.
      * exact Hdeep.
      * rewrite length_insert. lia.
      * rewrite length_insert in Hl. rewrite Heq.
        unfold discovered. cbn [first_extent].
        exists r, d', exc. split; [reflexivity|]. split; [exact Hl|]. split.
        -- intros j Hj. rewrite Hp by lia. apply list_lookup_insert_ne. lia.
        -- destruct Hres as [(H1 & H2 & _) | H3]; [left | right; exact H3].
           repeat split; try assumption.
           rewrite Hp by lia. apply list_lookup_insert_eq. lia.
Qed.

(** C3.  For a sequence read as [nd >= 2] axes, at slot [k] of a buffer
    with room for the [nd] extents, whose length fits an [int] and whose
    items can be read as [nd - 1] axes (nested deeply enough, arrays having
    the axes read from them, lengths and first extents fitting an [int]).
    Without the strict check the call succeeds, records the number of items
    in slot [k] and, in slot [k + 1], the largest of the items' first
    extents (0 for no item).  With the strict check, an item whose first
    extent differs from the largest extent of the items before it, that one
    being non-zero, makes the call fail with
    "inconsistent shape in sequence". *)
Theorem discover_dimensions_next_axis
    (n : nat) (items : list PyObject) (k : nat) (d : list Z)
    (Hroom : (k + S (S n) <= length d)%nat)
    (Hlen : Z.of_nat (length items) <= INT_MAX)
    (Hdeep : forallb (deep (S n)) items = true) :
  (exists d',
     discover_dimensions (S (S n)) (PySeq items) k d false
       = Some (0, d', None) /\
     d' !! k = Some (Z.of_nat (length items)) /\
     d' !! S k = Some (max_extent 0 items)) /\
  (forall pre e post, items = pre ++ e :: post ->
     max_extent 0 pre <> 0 -> first_extent e <> max_extent 0 pre ->
     exists d',
       discover_dimensions (S (S n)) (PySeq items) k d true
       = Some (-1, d', Some shape_error)).
Proof.
  assert (Hrec : forall c e' d', deep (S n) e' = true ->
            (k + S (S n) <= length d')%nat ->
            discovered c e' (S k) d'
              (discover_dimensions (S n) e' (S k) d' c)).
  { intros c e' d' He' Hd'. apply discover_deep; [lia | exact He' | lia]. }
  assert (Hunfold : forall c,
            discover_dimensions (S (S n)) (PySeq items) k d c
            = children_loop
                (fun e d => discover_dimensions (S n) e (S k) d c)
                k c items 0 (<[k := Z.of_nat (length items)]> d)).
  { intros c. cbn [discover_dimensions]. cbv zeta.
    rewrite to_int_small by (unfold INT_MIN; lia).
    rewrite store_room by lia.
    destruct (Z.ltb_spec (Z.of_nat (length items)) 0); [lia|].
    rewrite Nat2Z.id, firstn_all. reflexivity. }
  split.
  - rewrite Hunfold.
    destruct (children_loop_spec
        (fun e d => discover_dimensions (S n) e (S k) d false)
        (deep (S n)) k false (k + S (S n))%nat (Hrec false)
        (fun e He => deep_first_extent _ _ He) ltac:(lia)
        items 0 (<[k := Z.of_nat (length items)]> d) Hdeep)
      as (r & d' & exc & Heq & Hl & Hp & Hres);
      [rewrite length_insert; lia|].
    destruct Hres as [(-> & -> & H3) | (Hc & _)]; [|discriminate Hc].
    exists d'. split; [exact Heq|]. split; [|exact H3].
    rewrite Hp by lia. apply list_lookup_insert_eq. lia.
  - intros pre e post -> Hnz Hne. rewrite Hunfold.
    apply (children_loop_mismatch
        (fun e d => discover_dimensions (S n) e (S k) d true)
        (deep (S n)) k true (k + S (S n))%nat (Hrec true)
        (fun e He => deep_first_extent _ _ He) ltac:(lia)).
    + rewrite forallb_app in Hdeep. apply andb_prop in Hdeep.
      destruct Hdeep as [Hpre Hpost]. cbn [forallb] in Hpost.
      apply andb_prop in Hpost. destruct Hpost as [He _].
      rewrite forallb_app, Hpre. cbn [forallb]. rewrite He. reflexivity.
    + rewrite length_insert. lia.
    + reflexivity.
    + exact Hnz.
    + exact Hne.
Qed.

Lemma discover_dimensions_next_axis_witness :
  (exists d',
     discover_dimensions 2 (PySeq [row 3; row 2]) 0 [0; 0; 0] false
       = Some (0, d', None) /\
     d' !! 0%nat = Some 2 /\ d' !! 1%nat = Some 3) /\
  (exists d',
     discover_dimensions 2 (PySeq [row 3; row 2]) 0 [0; 0; 0] true
     = Some (-1, d', Some shape_error)).
Proof.
  destruct (discover_dimensions_next_axis 0 [row 3; row 2] 0 [0; 0; 0]
              ltac:(simpl; lia) ltac:(unfold INT_MAX; simpl; lia) eq_refl)
    as [Hmax Hstrict].
  split; [exact Hmax|].
  apply (Hstrict [row 3] (row 2) []); [reflexivity | discriminate | discriminate].
Defined.

(** On a ragged sequence of rows of 3 and 2 items the next extent recorded
    is 3, not the minimum 2; and under the strict check the rows of 0 and 2
    items, which disagree, raise nothing. *)
Lemma discover_dimensions_next_axis_counterexample :
  discover_dimensions 2 (PySeq [row 3; row 2]) 0 [0; 0; 0] false
    = Some (0, [2; 3; 0], None) /\
  Z.min 3 2 <> 3 /\
  discover_dimensions 2 (PySeq [row 0; row 2]) 0 [0; 0; 0] true
    = Some (0, [2; 2; 0], None).
Proof. split; [reflexivity|]. split; [discriminate | reflexivity]. Qed.

End Discovery.

(** ** Copying and moving between arrays *)

Module Move.

Import Alloc.

(** *** Memory extents and overlap *)

(** The loop of [_get_memory_extents] over the axes, on the closed range
    [[start, end]]; [None] is the early return on an axis of extent 0. *)
Fixpoint extents_loop (dims strides : list Z) (start end_ : Z)
    : option (Z * Z) :=
  match dims, strides with
  | dim :: dims', stride :: strides' =>
      if dim =? 0 then None
      else if 0 <? stride then
        extents_loop dims' strides' start
          (to_uintp (end_ + to_intp (stride * (dim - 1))))
      else if stride <? 0 then
        extents_loop dims' strides'
          (to_uintp (start + to_intp (stride * (dim - 1)))) end_
      else extents_loop dims' strides' start end_
  | _, _ => Some (start, end_)
  end.

(** [_get_memory_extents(arr, &out_start, &out_end)] *)
Definition _get_memory_extents (arr : PyArrayObject) : Z * Z :=
  let p := to_uintp (data arr) in
  let ndim := Z.to_nat (PyArray_NDIM arr) in
  match extents_loop (take ndim (dimensions arr)) (take ndim (strides arr)) p p
  with
  | None => (p, p)
  | Some (start, end_) => (start, to_uintp (end_ + elsize (descr arr)))
  end.

(** [_arrays_overlap(arr1, arr2)] *)
Definition _arrays_overlap (arr1 arr2 : PyArrayObject) : bool :=
  let '(start1, end1) := _get_memory_extents arr1 in
  let '(start2, end2) := _get_memory_extents arr2 in
  (start1 <? end2) && (start2 <? end1).

(** *** [PyArray_CopyInto] *)

(** A strided transfer function:
    [stransfer(dst, dst_stride, src, src_stride, count, src_itemsize)]. *)
Definition StridedTransferFn : Type :=
  Z -> Z -> Z -> Z -> Z -> Z -> World -> World.

(** An iterator over a pair of arrays without inner iteration: the inner
    strides of destination and source, and the runs
    [(dataptr[0], dataptr[1], count)] it goes through, the first of which
    the [do ... while] loop always transfers. *)
Record NpyIter : Type := Build_NpyIter {
  inner_stride_dst : Z;
  inner_stride_src : Z;
  first_run : Z * Z * Z;
  next_runs : list (Z * Z * Z);
  has_iternext : bool
}.

(** The collaborators of the copy: the test for and set-up of a trivial
    single-stride traversal, the selection of a transfer function, and the
    iteration engine. *)
Class Transfer : Type := Build_Transfer {
  PyArray_TRIVIALLY_ITERABLE_PAIR : PyArrayObject -> PyArrayObject -> bool;
  PyArray_PREPARE_TRIVIAL_PAIR_ITERATION :
    PyArrayObject -> PyArrayObject -> Z * Z * Z * Z * Z;
  PyArray_GetDTypeTransferFunction :
    bool -> Z -> Z -> PyArray_Descr -> PyArray_Descr -> World ->
    option StridedTransferFn * World;
  NpyIter_MultiNew :
    PyArrayObject -> PyArrayObject -> World -> option NpyIter * World
}.

Section Copy.

Context `{RT : Runtime} `{TR : Transfer}.

Definition result_code (w : World) : Z * World :=
  (if PyErr_Occurred w then -1 else 0, w).

(** The [do { stransfer(...) } while (iternext(iter))] loop. *)
Definition transfer_runs (stransfer : StridedTransferFn) (it : NpyIter)
    (src_itemsize : Z) (w : World) : World :=
  foldl (fun w '(d, s, count) =>
           stransfer d (inner_stride_dst it) s (inner_stride_src it)
             count src_itemsize w)
        w (first_run it :: next_runs it).

(** [PyArray_CopyInto(dst, src)]: the result code and the state.  The two
    branches on [needs_api] differ only in releasing the interpreter lock
    around the loop and are one here. *)
Definition PyArray_CopyInto (dst src : PyArrayObject) (w : World) : Z * World :=
  if negb (PyArray_ISWRITEABLE dst) then
    (-1, PyErr_SetString PyExc_RuntimeError "cannot write to array" w)
  else if PyArray_SIZE src =? 0 then
    if PyArray_SIZE dst =? 0 then (0, w)
    else (-1, PyErr_SetString PyExc_ValueError
                "cannot copy from zero-sized array" w)
  else if PyArray_SIZE dst =? 0 then
    (* Allow a scalar to be assigned to anything, even an empty array *)
    if PyArray_NDIM src =? 0 then (0, w)
    else (-1, PyErr_SetString PyExc_ValueError
                "cannot copy to zero-sized array" w)
  else if PyArray_TRIVIALLY_ITERABLE_PAIR dst src then
    let '(count, dst_data, src_data, dst_stride, src_stride) :=
      PyArray_PREPARE_TRIVIAL_PAIR_ITERATION dst src in
    (* overlap with positive strides: reverse the order *)
    let '(dst_data, src_data, dst_stride, src_stride) :=
      if (src_data <? dst_data) && (0 <? src_stride) && (0 <? dst_stride)
         && (dst_data <? src_data + src_stride * count)
         && (src_data <? dst_data + dst_stride * count)
      then (dst_data + dst_stride * (count - 1),
            src_data + src_stride * (count - 1),
            - dst_stride, - src_stride)
      else (dst_data, src_data, dst_stride, src_stride) in
    match PyArray_GetDTypeTransferFunction
            (PyArray_ISALIGNED src && PyArray_ISALIGNED dst)
            src_stride dst_stride (descr src) (descr dst) w with
    | (None, w) => (-1, w)
    | (Some stransfer, w) =>
        let src_itemsize := elsize (descr src) in
        result_code
          (stransfer dst_data dst_stride src_data src_stride count
             src_itemsize w)
    end
  else
    match NpyIter_MultiNew dst src w with
    | (None, w) => (-1, w)
    | (Some it, w) =>
        if negb (has_iternext it) then (-1, w)
        else
          let src_itemsize := elsize (descr src) in
          match PyArray_GetDTypeTransferFunction
                  (PyArray_ISALIGNED src && PyArray_ISALIGNED dst)
                  (inner_stride_src it) (inner_stride_dst it)
                  (descr src) (descr dst) w with
          | (None, w) => (-1, w)
          | (Some stransfer, w) =>
              result_code (transfer_runs stransfer it src_itemsize w)
          end
    end.

(** *** [PyArray_MoveInto] *)

(** The test under which the move is a plain copy: one dimension each with
    positive strides, or no overlap. *)
Definition copies_directly (dst src : PyArrayObject) : bool :=
  ((PyArray_NDIM dst =? 1) && (PyArray_NDIM src =? 1)
   && (0 <? PyArray_STRIDE dst 0) && (0 <? PyArray_STRIDE src 0))
  || negb (_arrays_overlap dst src).

(** The allocation of the temporary:
    [Py_INCREF(PyArray_DESCR(dst)); tmp = PyArray_NewFromDescr(...)]. *)
Definition new_temporary (dst : PyArrayObject) (w : World)
    : option PyArrayObject * World :=
  PyArray_NewFromDescr PyArray_Type (descr dst) (PyArray_NDIM dst)
    (dimensions dst) None None
    (if PyArray_ISFORTRAN dst then NPY_F_CONTIGUOUS else 0) None
    (Py_INCREF (descr_id (descr dst)) w).

(** [PyArray_MoveInto(dst, src)] *)
Definition PyArray_MoveInto (dst src : PyArrayObject) (w : World) : Z * World :=
  if copies_directly dst src then PyArray_CopyInto dst src w
  else
    match new_temporary dst w with
    | (None, w) => (-1, w)
    | (Some tmp, w) =>
        let '(ret, w) := PyArray_CopyInto tmp src w in
        let '(ret, w) :=
          if ret =? 0 then PyArray_CopyInto dst tmp w else (ret, w) in
        (ret, Py_DECREF_array tmp w)
    end.

(** *** The temporary of a move *)



End Copy.

(** An array with an axis of extent 0 has the empty extent
    [[data, data)]. *)
Lemma extents_loop_zero dims : forall strides start end_,
  length strides = length dims -> In 0 dims ->
  extents_loop dims strides start end_ = None.
Proof.
  induction dims as [|d dims IH]; intros strides start end_ Hlen Hin;
    [destruct Hin|].
  destruct strides as [|s strides]; [discriminate Hlen|].
  simpl. destruct (Z.eqb_spec d 0) as [|Hnz]; [reflexivity|].
  destruct Hin as [Hd|Hin]; [congruence|].
  simpl in Hlen.
  destruct (0 <? s); [|destruct (s <? 0)]; apply IH; auto.
Qed.

Lemma get_memory_extents_empty (arr : PyArrayObject) :
  length (strides arr) = length (dimensions arr) ->
  In 0 (take (Z.to_nat (PyArray_NDIM arr)) (dimensions arr)) ->
  _get_memory_extents arr = (to_uintp (data arr), to_uintp (data arr)).
Proof.
  intros Hlen Hin. unfold _get_memory_extents.
  rewrite extents_loop_zero; [reflexivity | | exact Hin].
  rewrite !length_take, Hlen. reflexivity.
Qed.

(** The bytes by which the axes of positive stride extend the range upward,
    and those by which the axes of negative stride extend it downward. *)
Fixpoint span_up (dims strides : list Z) : Z :=
  match dims, strides with
  | dim :: dims', stride :: strides' =>
      (if 0 <? stride then to_intp (stride * (dim - 1)) else 0)
      + span_up dims' strides'
  | _, _ => 0
  end.

Fixpoint span_down (dims strides : list Z) : Z :=
  match dims, strides with
  | dim :: dims', stride :: strides' =>
      (if 0 <? stride then 0
       else if stride <? 0 then to_intp (stride * (dim - 1)) else 0)
      + span_down dims' strides'
  | _, _ => 0
  end.

Lemma extents_loop_nonzero dims : forall strides start end_,
  Forall (fun d => d <> 0) dims ->
  to_uintp start = start -> to_uintp end_ = end_ ->
  extents_loop dims strides start end_
  = Some (to_uintp (start + span_down dims strides),
          to_uintp (end_ + span_up dims strides)).
Proof.
  induction dims as [|d dims IH]; intros strides start end_ Hnz Hs He.
  - cbn. rewrite !Z.add_0_r, Hs, He. reflexivity.
  - destruct strides as [|st strides].
    + cbn. rewrite !Z.add_0_r, Hs, He. reflexivity.
    + inversion Hnz as [|? ? Hd Hrest]; subst.
      cbn [extents_loop span_up span_down].
      destruct (Z.eqb_spec d 0); [contradiction|].
      destruct (0 <? st).
      * rewrite IH by (auto using to_uintp_idem).
        rewrite to_uintp_add_l, Z.add_0_l, Z.add_assoc. reflexivity.
      * destruct (st <? 0).
        -- rewrite IH by (auto using to_uintp_idem).
           rewrite to_uintp_add_l, Z.add_0_l, Z.add_assoc. reflexivity.
        -- rewrite IH by assumption. rewrite !Z.add_0_l. reflexivity.
Qed.

(** The extent of an array without an axis of extent 0: from the data
    pointer, downward by the axes of negative stride and upward by those of
    positive stride, plus one element. *)
Lemma get_memory_extents_nonzero (arr : PyArrayObject) :
  let ndim := Z.to_nat (PyArray_NDIM arr) in
  Forall (fun d => d <> 0) (take ndim (dimensions arr)) ->
  _get_memory_extents arr
  = (to_uintp (data arr
               + span_down (take ndim (dimensions arr))
                           (take ndim (strides arr))),
     to_uintp (data arr
               + span_up (take ndim (dimensions arr))
                         (take ndim (strides arr))
               + elsize (descr arr))).
Proof.
  intros ndim Hnz. unfold _get_memory_extents. fold ndim.
  rewrite extents_loop_nonzero by (auto using to_uintp_idem).
  rewrite !to_uintp_add_l. f_equal.
  rewrite <- !Z.add_assoc. apply to_uintp_add_l.
Qed.

(** The test of [_arrays_overlap], on the two extents. *)
Lemma arrays_overlap_extents (arr1 arr2 : PyArrayObject) :
  _arrays_overlap arr1 arr2 = true <->
  (_get_memory_extents arr1).1 < (_get_memory_extents arr2).2 /\
  (_get_memory_extents arr2).1 < (_get_memory_extents arr1).2.
Proof.
  unfold _arrays_overlap.
  destruct (_get_memory_extents arr1) as [start1 end1].
  destruct (_get_memory_extents arr2) as [start2 end2]. cbn [fst snd].
  rewrite andb_true_iff, !Z.ltb_lt. reflexivity.
Qed.

(** A zero-size array is reported to overlap exactly the arrays whose extent
    holds its data pointer in the interior. *)
Lemma arrays_overlap_empty (z b : PyArrayObject) :
  length (strides z) = length (dimensions z) ->
  In 0 (take (Z.to_nat (PyArray_NDIM z)) (dimensions z)) ->
  _arrays_overlap z b = true <->
  (_get_memory_extents b).1 < to_uintp (data z) < (_get_memory_extents b).2.
Proof.
  intros Hlen Hin. unfold _arrays_overlap.
  rewrite (get_memory_extents_empty z Hlen Hin).
  destruct (_get_memory_extents b) as [start2 end2]. cbn [fst snd].
  rewrite andb_true_iff, !Z.ltb_lt. lia.
Qed.

End Move.

(** ** A simple copy engine

    Collaborators of the copy that move raw elements: the trivial traversal
    is the single-stride one, the transfer function copies [count] elements
    of the item size one after the other, and the iterator visits the
    destination in C order one element per run, the source broadcast to the
    destination's shape.  They serve to run the copy and the move on
    concrete arrays. *)

Module SimpleCopy.

Import Alloc Move.

(** Modelled from the spec: an operand admits a trivial traversal when it
    has at most one axis or is contiguous in either order; a pair does when
    the first does and the second is 0-dimensional or has the same shape and
    contiguity. *)
Definition TRIVIALLY_ITERABLE (arr : PyArrayObject) : bool :=
  (PyArray_NDIM arr <=? 1) || CHKFLAGS (flags arr) CONTIGUOUS
  || CHKFLAGS (flags arr) FORTRAN.

Fixpoint CompareLists (l1 l2 : list Z) : bool :=
  match l1, l2 with
  | [], [] => true
  | x :: l1', y :: l2' => (x =? y) && CompareLists l1' l2'
  | _, _ => false
  end.

Definition EQUIVALENTLY_ITERABLE (arr1 arr2 : PyArrayObject) : bool :=
  (PyArray_NDIM arr1 =? PyArray_NDIM arr2)
  && CompareLists (dimensions arr1) (dimensions arr2)
  && (Z.land (flags arr1) (Z.lor CONTIGUOUS FORTRAN)
      =? Z.land (flags arr2) (Z.lor CONTIGUOUS FORTRAN)).

Definition TRIVIALLY_ITERABLE_PAIR (arr1 arr2 : PyArrayObject) : bool :=
  TRIVIALLY_ITERABLE arr1
  && ((PyArray_NDIM arr2 =? 0) || EQUIVALENTLY_ITERABLE arr1 arr2).

Definition PREPARE_TRIVIAL_PAIR_ITERATION (arr1 arr2 : PyArrayObject)
    : Z * Z * Z * Z * Z :=
  (PyArray_SIZE arr1, data arr1, data arr2,
   if PyArray_NDIM arr1 =? 1 then PyArray_STRIDE arr1 0
   else PyArray_ITEMSIZE arr1,
   if PyArray_NDIM arr2 =? 0 then 0
   else if PyArray_NDIM arr2 =? 1 then PyArray_STRIDE arr2 0
   else PyArray_ITEMSIZE arr2).

(** Copy of [n] items of [itemsize] bytes, stepping by the strides. *)
Fixpoint strided_copy (n : nat) (dst dstride src sstride itemsize : Z)
    (m : Z -> Z) : Z -> Z :=
  match n with
  | O => m
  | S n' =>
      strided_copy n' (dst + dstride) dstride (src + sstride) sstride itemsize
        (memcpy dst src itemsize m)
  end.

Definition raw_transfer : StridedTransferFn :=
  fun dst dstride src sstride count itemsize w =>
    set_mem (strided_copy (Z.to_nat count) dst dstride src sstride itemsize
               (mem w)) w.

Definition GetDTypeTransferFunction (aligned : bool) (src_stride dst_stride : Z)
    (src_descr dst_descr : PyArray_Descr) (w : World)
    : option StridedTransferFn * World :=
  if elsize src_descr =? elsize dst_descr then (Some raw_transfer, w)
  else (None, PyErr_SetString PyExc_TypeError "cannot cast" w).

(** The byte offsets of the elements of a strided layout, in C order. *)
Fixpoint offsets (dims strides : list Z) : list Z :=
  match dims, strides with
  | d :: dims', s :: strides' =>
      flat_map (fun i => map (Z.add (Z.of_nat i * s)) (offsets dims' strides'))
               (seq 0 (Z.to_nat d))
  | _, _ => [0]
  end.

(** The strides of the source seen with the shape of the destination: axes
    are aligned on the right, an extent 1 is repeated with stride 0. *)
Fixpoint broadcast_rev (dst_dims src_dims src_strides : list Z)
    : option (list Z) :=
  match dst_dims, src_dims, src_strides with
  | [], [], _ => Some []
  | d :: dst', [], _ =>
      match broadcast_rev dst' [] [] with
      | Some l => Some (0 :: l)
      | None => None
      end
  | d :: dst', sd :: src', ss :: st' =>
      if sd =? d then
        match broadcast_rev dst' src' st' with
        | Some l => Some (ss :: l)
        | None => None
        end
      else if sd =? 1 then
        match broadcast_rev dst' src' st' with
        | Some l => Some (0 :: l)
        | None => None
        end
      else None
  | _, _, _ => None
  end.

Definition MultiNew (dst src : PyArrayObject) (w : World)
    : option NpyIter * World :=
  match broadcast_rev (rev (dimensions dst)) (rev (dimensions src))
          (rev (strides src)) with
  | None =>
      (None, PyErr_SetString PyExc_ValueError
               "operands could not be broadcast together" w)
  | Some rstrides =>
      let runs :=
        map (fun '(od, os) => (data dst + od, data src + os, 1))
            (zip (offsets (dimensions dst) (strides dst))
                 (offsets (dimensions dst) (rev rstrides))) in
      match runs with
      | [] => (None, w)
      | r :: rest =>
          (Some {| inner_stride_dst := PyArray_ITEMSIZE dst;
                   inner_stride_src := PyArray_ITEMSIZE src;
                   first_run := r; next_runs := rest;
                   has_iternext := true |}, w)
      end
  end.

Definition simple_transfer : Transfer :=
  {| PyArray_TRIVIALLY_ITERABLE_PAIR := TRIVIALLY_ITERABLE_PAIR;
     PyArray_PREPARE_TRIVIAL_PAIR_ITERATION := PREPARE_TRIVIAL_PAIR_ITERATION;
     PyArray_GetDTypeTransferFunction := GetDTypeTransferFunction;
     NpyIter_MultiNew := MultiNew |}.

(** The [k] bytes of [n], least significant first, and their reading. *)
Fixpoint le_bytes (k : nat) (n : Z) : list Z :=
  match k with
  | O => []
  | S k' => n mod 256 :: le_bytes k' (n / 256)
  end.

Fixpoint le_value (l : list Z) : Z :=
  match l with
  | [] => 0
  | b :: l' => b + 256 * le_value l'
  end.

(** The 8-byte integers stored at [n] consecutive slots from [p] on. *)
Definition read_longs (m : Z -> Z) (p : Z) (n : nat) : list Z :=
  map (fun i => le_value (Swap.read_bytes m (p + 8 * Z.of_nat i) 8)) (seq 0 n).

(** The array [a = [0, 1, 2]] of 8-byte integers at address 1000, the view
    [a[::-1]] on it, and the state holding them. *)
Definition a_mem : Z -> Z :=
  Swap.bytes_at 1000 (le_bytes 8 0 ++ le_bytes 8 1 ++ le_bytes 8 2).

Definition world_a : World :=
  {| refcnt := fun x => if Nat.eqb x 1 then 1 else if Nat.eqb x 2 then 2 else 0;
     mem := a_mem; err := None; next_obj := 16%nat; heap_top := 4096 |}.

Definition a_arr : PyArrayObject :=
  {| ob_id := 2%nat; data := 1000; nd := 1; dimensions := [3]; strides := [8];
     base := None; descr := Simple.long_descr;
     flags := Z.lor (Z.lor CONTIGUOUS FORTRAN) (Z.lor ALIGNED WRITEABLE) |}.

Definition a_reversed : PyArrayObject :=
  {| ob_id := 3%nat; data := 1016; nd := 1; dimensions := [3]; strides := [-8];
     base := Some 2%nat; descr := Simple.long_descr;
     flags := Z.lor ALIGNED WRITEABLE |}.

Example a_initially : read_longs (mem world_a) 1000 3 = [0; 1; 2].
Proof. vm_compute. reflexivity. Qed.

Example move_reversed :
  let r := PyArray_MoveInto (RT := Simple.simple_runtime)
             (TR := simple_transfer) a_reversed a_arr world_a in
  r.1 = 0 /\ read_longs (mem r.2) 1000 3 = [2; 1; 0].
Proof. vm_compute. split; reflexivity. Qed.

Example copy_reversed :
  let r := PyArray_CopyInto (TR := simple_transfer) a_reversed a_arr world_a in
  r.1 = 0 /\ read_longs (mem r.2) 1000 3 = [0; 1; 0].
Proof. vm_compute. split; reflexivity. Qed.

End SimpleCopy.

(** ** Properties of the move *)

Module MoveProperties.

Import Alloc Move SimpleCopy.



(** The 3 x 3 array of 8-byte integers at address 1000 and its empty slice
    [a2[1:1, :]], whose data pointer lies inside the array. *)
Definition a2_arr : PyArrayObject :=
  {| ob_id := 2%nat; data := 1000; nd := 2; dimensions := [3; 3];
     strides := [24; 8]; base := None; descr := Simple.long_descr;
     flags := Z.lor CONTIGUOUS (Z.lor ALIGNED WRITEABLE) |}.

Definition a2_empty_slice : PyArrayObject :=
  {| ob_id := 3%nat; data := 1024; nd := 2; dimensions := [0; 3];
     strides := [24; 8]; base := Some 2%nat; descr := Simple.long_descr;
     flags := Z.lor CONTIGUOUS (Z.lor ALIGNED WRITEABLE) |}.

(** C10.  The empty slice has the empty extent [[1024, 1024)], yet it is
    reported to overlap the array it is taken from, whose extent
    [[1000, 1072)] contains 1024 in its interior; the move of the array into
    the slice therefore does not take the direct path but allocates a
    temporary, which the plain copy does not. *)
Theorem empty_array_overlap_inside :
  _get_memory_extents a2_empty_slice = (1024, 1024) /\
  _get_memory_extents a2_arr = (1000, 1072) /\
  _arrays_overlap a2_empty_slice a2_arr = true /\
  copies_directly a2_empty_slice a2_arr = false /\
  (let moved := PyArray_MoveInto (RT := Simple.simple_runtime)
                  (TR := simple_transfer) a2_empty_slice a2_arr world_a in
   let copied := PyArray_CopyInto (TR := simple_transfer)
                   a2_empty_slice a2_arr world_a in
   heap_top world_a = 4096 /\ heap_top copied.2 = 4096 /\
   heap_top moved.2 = 4120 /\ next_obj moved.2 = S (next_obj world_a)).
Proof. vm_compute. repeat split; reflexivity. Qed.

End MoveProperties.

(** ** Range generation ([PyArray_Arange], [PyArray_ArangeObj]) *)

Module Range.

Import Alloc.

(** *** Doubles

    A C [double] is an IEEE 754 binary64 number, with the arithmetic of
    [SpecFloat] at precision 53 and maximal exponent 1024. *)

Definition double : Type := spec_float.

Definition dadd : double -> double -> double := SFadd 53 1024.
Definition dsub : double -> double -> double := SFsub 53 1024.
Definition ddiv : double -> double -> double := SFdiv 53 1024.
Definition dlt : double -> double -> bool := SFltb.
Definition deq : double -> double -> bool := SFeqb.

(** Conversion of an integer to [double] (rounding to nearest, ties to
    even). *)
Definition double_of_Z (z : Z) : double := binary_normalize 53 1024 z 0 false.

(** The integer [ceil(v)] of the finite number [v = (-1)^s * m * 2^e]. *)
Definition ceil_finite (s : bool) (m : positive) (e : Z) : Z :=
  let v := if s then Zneg m else Zpos m in
  if 0 <=? e then v * 2 ^ e else - ((- v) / 2 ^ (- e)).

(** [npy_ceil]: the smallest integral double not below the argument, which
    is always representable. *)
Definition npy_ceil (x : double) : double :=
  match x with
  | S754_finite s m e =>
      if 0 <=? e then x
      else binary_normalize 53 1024 (ceil_finite s m e) 0 s
  | _ => x
  end.

(** The cast [(npy_intp)x]: the value truncated toward zero when that is an
    [npy_intp]; the behaviour is undefined otherwise ([None]). *)
Definition double_to_intp (x : double) : option Z :=
  match x with
  | S754_zero _ => Some 0
  | S754_finite s m e =>
      let t := if 0 <=? e then Zpos m * 2 ^ e else Zpos m / 2 ^ (- e) in
      let z := if s then - t else t in
      if (NPY_MIN_INTP <=? z) && (z <=? NPY_MAX_INTP) then Some z else None
  | _ => None
  end.

(** Outcome of [_safe_ceil_to_intp]: [*ret] set and 0 returned, -1 returned,
    or undefined behaviour in the cast. *)
Inductive SafeCeil : Type :=
| Ceil_ok (ret : Z)
| Ceil_overflow
| Ceil_undefined.

(** [_safe_ceil_to_intp(value, &ret)] *)
Definition _safe_ceil_to_intp (value : double) : SafeCeil :=
  let ivalue := npy_ceil value in
  if dlt ivalue (double_of_Z NPY_MIN_INTP)
     || dlt (double_of_Z NPY_MAX_INTP) ivalue
  then Ceil_overflow
  else match double_to_intp ivalue with
       | Some ret => Ceil_ok ret
       | None => Ceil_undefined
       end.

Example max_intp_as_double :
  double_of_Z NPY_MAX_INTP = S754_finite false 4503599627370496 11 /\
  double_of_Z NPY_MIN_INTP = S754_finite true 4503599627370496 11.
Proof. split; reflexivity. Qed.

Example ceil_5 :
  _safe_ceil_to_intp
    (ddiv (dsub (double_of_Z 5) (double_of_Z 0)) (double_of_Z 1)) = Ceil_ok 5.
Proof. vm_compute. reflexivity. Qed.

Example ceil_third :
  _safe_ceil_to_intp (ddiv (double_of_Z 10) (double_of_Z 3)) = Ceil_ok 4.
Proof. vm_compute. reflexivity. Qed.

Example ceil_negative :
  _safe_ceil_to_intp
    (ddiv (dsub (double_of_Z 0) (double_of_Z 10)) (double_of_Z 1))
  = Ceil_ok (-10).
Proof. vm_compute. reflexivity. Qed.

Example ceil_step_zero :
  _safe_ceil_to_intp (ddiv (double_of_Z 1) (double_of_Z 0)) = Ceil_overflow.
Proof. vm_compute. reflexivity. Qed.

Example ceil_two_to_63 :
  _safe_ceil_to_intp (double_of_Z (2 ^ 63)) = Ceil_undefined.
Proof. vm_compute. reflexivity. Qed.

(** *** The interpreter's side of [arange] *)

(** Outcome of a routine that may run into undefined behaviour, in which
    case the state reached is recorded. *)
Inductive Run (A : Type) : Type :=
| Ret (a : A)
| Undefined (w : World).
Arguments Ret {A} a.
Arguments Undefined {A} w.

(** [descr->f]: the two entries of the function table used here. *)
Record PyArray_ArrFuncs (PyObj : Type) : Type := Build_ArrFuncs {
  setitem : PyObj -> Z -> PyArrayObject -> World -> Z * World;
  fill : option (Z -> Z -> PyArrayObject -> World -> World)
}.
Arguments setitem {PyObj} _ _ _ _ _.
Arguments fill {PyObj} _.

(** Python numbers and the descriptor registry, as far as [arange] uses
    them. *)
Class Interp (PyObj : Type) : Type := Build_Interp {
  PyNumber_Subtract : PyObj -> PyObj -> World -> option PyObj * World;
  PyNumber_TrueDivide : PyObj -> PyObj -> World -> option PyObj * World;
  PyNumber_Add : PyObj -> PyObj -> World -> option PyObj * World;
  PyFloat_AsDouble : PyObj -> World -> double * World;
  PyComplex_Check : PyObj -> bool;
  PyComplex_RealAsDouble : PyObj -> World -> double * World;
  PyComplex_ImagAsDouble : PyObj -> World -> double * World;
  PyTuple_Check : PyObj -> bool;
  PyInt_FromLong : Z -> PyObj;
  PyFloat_FromDouble : double -> PyObj;
  PyArray_LONG : Z;
  PyTypeNum_ISCOMPLEX : Z -> bool;
  PyArray_DescrFromType : Z -> World -> option PyArray_Descr * World;
  PyArray_DescrFromObject : PyObj -> PyArray_Descr -> World
                            -> PyArray_Descr * World;
  PyArray_DescrNewByteorder : PyArray_Descr -> World -> PyArray_Descr * World;
  descr_f : PyArray_Descr -> PyArray_ArrFuncs PyObj;
  PyArray_Byteswap : PyArrayObject -> World -> World
}.

Definition overflow_message : string :=
  "arange: overflow while computing length".

Definition set_descr (a : PyArrayObject) (d : PyArray_Descr) : PyArrayObject :=
  {| ob_id := ob_id a; data := data a; nd := nd a; dimensions := dimensions a;
     strides := strides a; base := base a; descr := d; flags := flags a |}.

Section Arange.

Context `{RT : Runtime} {PyObj : Type} `{IN : Interp PyObj}.

(** [PyArray_New] *)
Definition PyArray_New (subtype : PyTypeObject) (nd : Z) (dims : list Z)
    (type_num : Z) (strides : option (list Z)) (data : option Z)
    (itemsize flags : Z) (obj : option nat) (w : World)
    : option PyArrayObject * World :=
  match PyArray_DescrFromType type_num w with
  | (None, w) => (None, w)
  | (Some descr, w) =>
      if elsize descr =? 0 then
        if itemsize <? 1 then
          (None, Py_DECREF (descr_id descr)
                   (PyErr_SetString PyExc_ValueError
                      "data type must provide an itemsize" w))
        else
          let '(descr, w) := PyArray_DESCR_REPLACE descr w in
          PyArray_NewFromDescr subtype (with_elsize descr itemsize) nd dims
            strides data flags obj w
      else
        PyArray_NewFromDescr subtype descr nd dims strides data flags obj w
  end.

(** [PyArray_SimpleNewFromDescr] *)
Definition PyArray_SimpleNewFromDescr (nd : Z) (dims : list Z)
    (descr : PyArray_Descr) (w : World) : option PyArrayObject * World :=
  PyArray_NewFromDescr PyArray_Type descr nd dims None None 0 None w.

(** [PyArray_Arange(start, stop, step, type_num)].  When the length
    overflows the exception is set but the routine goes on to read
    [length], which was never assigned. *)
Definition PyArray_Arange (start stop step : double) (type_num : Z) (w : World)
    : Run (option PyArrayObject * World) :=
  match _safe_ceil_to_intp (ddiv (dsub stop start) step) with
  | Ceil_undefined => Undefined w
  | Ceil_overflow =>
      Undefined (PyErr_SetString PyExc_OverflowError overflow_message w)
  | Ceil_ok length =>
      if length <=? 0 then
        Ret (PyArray_New PyArray_Type 1 [0] type_num None None 0 0 None w)
      else
        match PyArray_New PyArray_Type 1 [length] type_num None None 0 0
                None w with
        | (None, w) => Ret (None, w)
        | (Some range, w) =>
            let funcs := descr_f (descr range) in
            (* place start in the buffer and the next value in the second
               position *)
            let '(ret, w) :=
              setitem funcs (PyFloat_FromDouble start) (data range) range w in
            if ret <? 0 then Ret (None, Py_DECREF_array range w)
            else if length =? 1 then Ret (Some range, w)
            else
              let '(ret, w) :=
                setitem funcs (PyFloat_FromDouble (dadd start step))
                  (data range + PyArray_ITEMSIZE range) range w in
              if ret <? 0 then Ret (None, Py_DECREF_array range w)
              else if length =? 2 then Ret (Some range, w)
              else
                match fill funcs with
                | None =>
                    Ret (None,
                         Py_DECREF_array range
                           (PyErr_SetString PyExc_ValueError
                              "no fill-function for data-type." w))
                | Some f =>
                    let w := f (data range) length range w in
                    if PyErr_Occurred w
                    then Ret (None, Py_DECREF_array range w)
                    else Ret (Some range, w)
                end
        end
  end.

Definition PyErr_Clear (w : World) : World :=
  {| refcnt := refcnt w; mem := mem w; err := None;
     next_obj := next_obj w; heap_top := heap_top w |}.

(** [error_converting(x)]: [x == -1.0 && PyErr_Occurred()]. *)
Definition error_converting (x : double) (w : World) : bool :=
  deq x (double_of_Z (-1)) && PyErr_Occurred w.

(** The end of [_calc_length]: [next = start + step] when [len > 0]. *)
Definition calc_next (start step : PyObj) (len : Z) (w : World)
    : Run (Z * option PyObj * World) :=
  if 0 <? len then
    let '(next, w) := PyNumber_Add start step w in Ret (len, next, w)
  else Ret (len, None, w).

(** [_calc_length(start, stop, step, &next, cmplx)]: the length, [next]
    and the state. *)
Definition _calc_length (start stop step : PyObj) (cmplx : bool) (w : World)
    : Run (Z * option PyObj * World) :=
  match PyNumber_Subtract stop start w with
  | (None, w) =>
      Ret (-1, None,
           if PyTuple_Check stop
           then PyErr_SetString PyExc_TypeError
                  "arange: scalar arguments expected instead of a tuple."
                  (PyErr_Clear w)
           else w)
  | (Some diff, w) =>
      match PyNumber_TrueDivide diff step w with
      | (None, w) => Ret (-1, None, w)
      | (Some val, w) =>
          if cmplx && PyComplex_Check val then
            let '(value, w) := PyComplex_RealAsDouble val w in
            if error_converting value w then Ret (-1, None, w)
            else
              match _safe_ceil_to_intp value with
              | Ceil_undefined => Undefined w
              | Ceil_overflow =>
                  Ret (-1, None,
                       PyErr_SetString PyExc_OverflowError overflow_message w)
              | Ceil_ok len =>
                  let '(value, w) := PyComplex_ImagAsDouble val w in
                  if error_converting value w then Ret (-1, None, w)
                  else
                    match _safe_ceil_to_intp value with
                    | Ceil_undefined => Undefined w
                    | Ceil_overflow =>
                        Ret (-1, None,
                             PyErr_SetString PyExc_OverflowError
                               overflow_message w)
                    | Ceil_ok tmp => calc_next start step (Z.min len tmp) w
                    end
              end
          else
            let '(value, w) := PyFloat_AsDouble val w in
            if error_converting value w then Ret (-1, None, w)
            else
              match _safe_ceil_to_intp value with
              | Ceil_undefined => Undefined w
              | Ceil_overflow =>
                  Ret (-1, None,
                       PyErr_SetString PyExc_OverflowError overflow_message w)
              | Ceil_ok len => calc_next start step len w
              end
      end
  end.

(** The choice of the descriptor when none is given: the default [long],
    widened by each argument present. *)
Definition default_dtype (start : PyObj) (stop step : option PyObj) (w : World)
    : Run (PyArray_Descr * World) :=
  match PyArray_DescrFromType PyArray_LONG w with
  | (None, w) => Undefined w
  | (Some deftype, w) =>
      let widen (o : option PyObj) (dw : PyArray_Descr * World) :=
        match o with
        | Some x =>
            let '(deftype, w) := dw in
            let '(newtype, w) := PyArray_DescrFromObject x deftype w in
            (newtype, Py_DECREF (descr_id deftype) w)
        | None => dw
        end in
      Ret (widen step (widen stop (widen (Some start) (deftype, w))))
  end.

(** After [finish:] in [PyArray_ArangeObj]. *)
Definition finish_range (range : PyArrayObject) (dtype : PyArray_Descr)
    (swap : bool) (w : World) : option PyArrayObject * World :=
  if swap then
    let w := PyArray_Byteswap range w in
    let w := Py_DECREF (descr_id (descr range)) w in
    (Some (set_descr range dtype), w)
  else (Some range, w).

(** The descriptor [PyArray_ArangeObj] works with: the one given, with a
    reference taken, or the default one. *)
Definition arange_dtype (start : PyObj) (stop step : option PyObj)
    (dtype : option PyArray_Descr) (w : World) : Run (PyArray_Descr * World) :=
  match dtype with
  | None => default_dtype start stop step w
  | Some d => Ret (d, Py_INCREF (descr_id d) w)
  end.

(** The step, 1 when absent; and the bounds, [(0, start)] when [stop] is
    absent. *)
Definition arange_step (step : option PyObj) : PyObj :=
  match step with
  | Some s => s
  | None => PyInt_FromLong 1
  end.

Definition arange_bounds (start : PyObj) (stop : option PyObj) : PyObj * PyObj :=
  match stop with
  | Some s => (start, s)
  | None => (PyInt_FromLong 0, start)
  end.

(** [PyArray_ArangeObj(start, stop, step, dtype)]; an absent ([NULL] or
    [None]) [stop], [step] or [dtype] is [None]. *)
Definition PyArray_ArangeObj (start : PyObj) (stop step : option PyObj)
    (dtype : option PyArray_Descr) (w : World)
    : Run (option PyArrayObject * World) :=
  match arange_dtype start stop step dtype w with
  | Undefined w => Undefined w
  | Ret (dtype, w) =>
      let step := arange_step step in
      let '(start, stop) := arange_bounds start stop in
      (* calculate the length and next = start + step *)
      match _calc_length start stop step
              (PyTypeNum_ISCOMPLEX (type_num dtype)) w with
      | Undefined w => Undefined w
      | Ret (length, next, w) =>
          match err w with
          | Some (e, _) =>
              let w := Py_DECREF (descr_id dtype) w in
              Ret (None,
                   match e with
                   | PyExc_OverflowError =>
                       PyErr_SetString PyExc_ValueError
                         "Maximum allowed size exceeded" w
                   | _ => w
                   end)
          | None =>
              if length <=? 0 then
                Ret (PyArray_SimpleNewFromDescr 1 [0] dtype w)
              else
                let '(native, swap, w) :=
                  if negb (native_byteorder dtype) then
                    let '(native, w) := PyArray_DescrNewByteorder dtype w in
                    (native, true, w)
                  else (dtype, false, w) in
                match PyArray_SimpleNewFromDescr 1 [length] native w with
                | (None, w) => Ret (None, w)
                | (Some range, w) =>
                    let funcs := descr_f (descr range) in
                    let '(ret, w) :=
                      setitem funcs start (data range) range w in
                    if ret <? 0 then Ret (None, w)
                    else if length =? 1
                    then Ret (finish_range range dtype swap w)
                    else
                      match next with
                      | None => Undefined w
                      | Some next =>
                          let '(ret, w) :=
                            setitem funcs next
                              (data range + PyArray_ITEMSIZE range) range w in
                          if ret <? 0 then Ret (None, w)
                          else if length =? 2
                          then Ret (finish_range range dtype swap w)
                          else
                            match fill funcs with
                            | None =>
                                Ret (None,
                                     Py_DECREF_array range
                                       (PyErr_SetString PyExc_ValueError
                                          "no fill-function for data-type."
                                          w))
                            | Some f =>
                                let w := f (data range) length range w in
                                if PyErr_Occurred w then Ret (None, w)
                                else Ret (finish_range range dtype swap w)
                            end
                      end
                end
          end
      end
  end.

End Arange.

(** *** When the ceiling is out of range *)

(** The integer [ceil(v)] of a double, when it is finite. *)
Definition exact_ceil (v : double) : option Z :=
  match v with
  | S754_zero _ => Some 0
  | S754_finite s m e => Some (ceil_finite s m e)
  | _ => None
  end.

Lemma digits2_pos_bounds (m : positive) :
  2 ^ (Zpos (digits2_pos m) - 1) <= Zpos m < 2 ^ Zpos (digits2_pos m).
Proof.
  induction m as [p IH | p IH |]; cbn [digits2_pos].
  - rewrite Pos2Z.inj_succ.
    replace (Z.succ (Zpos (digits2_pos p)) - 1) with (Z.succ (Zpos (digits2_pos p) - 1)) by lia.
    rewrite !Z.pow_succ_r by lia. lia.
  - rewrite Pos2Z.inj_succ.
    replace (Z.succ (Zpos (digits2_pos p)) - 1) with (Z.succ (Zpos (digits2_pos p) - 1)) by lia.
    rewrite !Z.pow_succ_r by lia. lia.
  - simpl. lia.
Qed.

Lemma valid_mantissa_bound s m e :
  valid_binary 53 1024 (S754_finite s m e) = true ->
  Zpos m < 9007199254740992 /\
  (0 <= e -> 4503599627370496 <= Zpos m).
Proof.
  unfold valid_binary, bounded, canonical_mantissa, fexp, emin.
  intros H. apply andb_prop in H. destruct H as [Hc _].
  apply Z.eqb_eq in Hc.
  pose proof (digits2_pos_bounds m) as [Hlo Hhi].
  assert (Hd : Zpos (digits2_pos m) <= 53) by lia.
  split.
  - eapply Z.lt_le_trans; [exact Hhi|].
    change 9007199254740992 with (2 ^ 53).
    apply Z.pow_le_mono_r; lia.
  - intros He. assert (Zpos (digits2_pos m) = 53) by lia.
    replace (Zpos (digits2_pos m) - 1) with 52 in Hlo by lia.
    exact Hlo.
Qed.

Lemma ceil_finite_small s m e :
  e < 0 -> - Zpos m <= ceil_finite s m e <= Zpos m.
Proof.
  intros He. unfold ceil_finite.
  destruct (Z.leb_spec 0 e); [lia|].
  assert (Hp : 0 < 2 ^ (- e)) by (apply Z.pow_pos_nonneg; lia).
  destruct s.
  - change (- Zneg m) with (Zpos m).
    assert (0 <= Zpos m / 2 ^ (- e)) by (apply Z.div_pos; lia).
    assert (Zpos m / 2 ^ (- e) <= Zpos m)
      by (apply Z.div_le_upper_bound; nia).
    lia.
  - assert (- Zpos m / 2 ^ (- e) < 0) by (apply Z.div_lt_upper_bound; lia).
    assert (- Zpos m <= - Zpos m / 2 ^ (- e))
      by (apply Z.div_le_lower_bound; nia).
    lia.
Qed.

Lemma compare_cont_Eq p q : Pos.compare_cont Eq p q = Pos.compare p q.
Proof. reflexivity. Qed.

(** A valid double whose ceiling lies below [-2^63] or above [2^63] is
    reported as overflowing. *)
Lemma safe_ceil_overflow (v : double) (L : Z) :
  valid_binary 53 1024 v = true ->
  exact_ceil v = Some L ->
  L < -9223372036854775808 \/ 9223372036854775808 < L ->
  _safe_ceil_to_intp v = Ceil_overflow.
Proof.
  intros Hv HL Hout.
  destruct v as [z | i | | s m e]; try discriminate HL.
  - inversion HL; subst L. lia.
  - cbn [exact_ceil] in HL. inversion HL; subst L; clear HL.
    destruct (valid_mantissa_bound s m e Hv) as [Hhi Hlo].
    destruct (Z.lt_ge_cases e 0) as [Hneg|Hpos].
    + pose proof (ceil_finite_small s m e Hneg). lia.
    + specialize (Hlo Hpos).
      unfold _safe_ceil_to_intp, npy_ceil. unfold ceil_finite in Hout.
      destruct (Z.leb_spec 0 e); [|lia].
      destruct max_intp_as_double as [-> ->].
      assert (Hpw : 0 < 2 ^ e) by (apply Z.pow_pos_nonneg; lia).
      assert (Hcmp : 11 < e \/ (e = 11 /\ 4503599627370496 < Zpos m)).
      { destruct (Z.lt_ge_cases 11 e) as [|Hle]; [left; assumption|].
        destruct (Z.eq_dec e 11) as [->|Hne].
        - right. split; [reflexivity|]. change (2 ^ 11) with 2048 in Hout.
          destruct s; lia.
        - exfalso. assert (2 ^ e <= 2 ^ 10) by (apply Z.pow_le_mono_r; lia).
          change (2 ^ 10) with 1024 in *. destruct s; nia. }
      unfold dlt, SFltb, SFcompare.
      destruct s.
      * destruct Hcmp as [Hgt | [-> Hm]].
        -- rewrite (proj2 (Z.compare_gt_iff e 11)) by lia. reflexivity.
        -- rewrite Z.compare_refl.
           rewrite compare_cont_Eq.
           rewrite (proj2 (Pos.compare_gt_iff m 4503599627370496)) by lia.
           reflexivity.
      * destruct Hcmp as [Hgt | [-> Hm]].
        -- rewrite (proj2 (Z.compare_lt_iff 11 e)) by lia. reflexivity.
        -- rewrite Z.compare_refl.
           rewrite compare_cont_Eq.
           rewrite (proj2 (Pos.compare_lt_iff 4503599627370496 m)) by lia.
           reflexivity.
Qed.

Lemma safe_ceil_infinite (s : bool) :
  _safe_ceil_to_intp (S754_infinity s) = Ceil_overflow.
Proof. destruct s; reflexivity. Qed.

End Range.

(** ** A simple interpreter for [arange]

    Python numbers are floats, and every descriptor is the 8-byte [long]:
    [setitem] stores the number truncated toward zero, least significant
    byte first, and the fill function extends the progression given by the
    first two elements. *)

Module SimpleInterp.

Import Alloc Range.

(** Store of the bytes [l] from address [p] on. *)
Definition store_bytes (p : Z) (l : list Z) (m : Z -> Z) : Z -> Z :=
  fun a => if (p <=? a) && (a <? p + Z.of_nat (length l))
           then l !!! Z.to_nat (a - p) else m a.

Definition store_long (p z : Z) (m : Z -> Z) : Z -> Z :=
  store_bytes p (SimpleCopy.le_bytes 8 (to_uintp z)) m.

Definition load_long (m : Z -> Z) (p : Z) : Z :=
  to_intp (SimpleCopy.le_value (Swap.read_bytes m p 8)).

Definition LONG_setitem (op : double) (ov : Z) (ap : PyArrayObject) (w : World)
    : Z * World :=
  match double_to_intp op with
  | Some z => (0, set_mem (store_long ov z (mem w)) w)
  | None =>
      (-1, PyErr_SetString PyExc_OverflowError
             "Python int too large to convert to C long" w)
  end.

(** Modelled from the spec: the fill function, seeded from the first two
    elements, extrapolates the arithmetic progression in the element
    type. *)
Fixpoint LONG_fill_loop (n : nat) (i : Z) (buffer start delta : Z)
    (m : Z -> Z) : Z -> Z :=
  match n with
  | O => m
  | S n' =>
      LONG_fill_loop n' (i + 1) buffer start delta
        (store_long (buffer + 8 * i) (to_intp (start + i * delta)) m)
  end.

Definition LONG_fill (buffer length : Z) (ap : PyArrayObject) (w : World)
    : World :=
  let start := load_long (mem w) buffer in
  let delta := to_intp (load_long (mem w) (buffer + 8) - start) in
  set_mem (LONG_fill_loop (Z.to_nat (length - 2)) 2 buffer start delta (mem w))
          w.

Definition LONG_funcs : PyArray_ArrFuncs double :=
  {| setitem := LONG_setitem; fill := Some LONG_fill |}.

Definition is_zero (x : double) : bool :=
  match x with S754_zero _ => true | _ => false end.

Definition float_div (a b : double) (w : World) : option double * World :=
  if is_zero b
  then (None, PyErr_SetString PyExc_ZeroDivisionError "float division by zero" w)
  else (Some (ddiv a b), w).

Definition simple_interp : Interp double :=
  {| PyNumber_Subtract := fun a b w => (Some (dsub a b), w);
     PyNumber_TrueDivide := float_div;
     PyNumber_Add := fun a b w => (Some (dadd a b), w);
     PyFloat_AsDouble := fun a w => (a, w);
     PyComplex_Check := fun _ => false;
     PyComplex_RealAsDouble := fun a w => (a, w);
     PyComplex_ImagAsDouble := fun a w => (S754_zero false, w);
     PyTuple_Check := fun _ => false;
     PyInt_FromLong := double_of_Z;
     PyFloat_FromDouble := fun x => x;
     PyArray_LONG := 7;
     PyTypeNum_ISCOMPLEX := fun n => (14 <=? n) && (n <=? 16);
     PyArray_DescrFromType := fun n w =>
       if n =? 7 then (Some Simple.long_descr, Py_INCREF 1 w)
       else (None, PyErr_SetString PyExc_ValueError
                     "Invalid data-type for array" w);
     PyArray_DescrFromObject := fun _ d w => (d, Py_INCREF (descr_id d) w);
     PyArray_DescrNewByteorder := fun d w =>
       let '(n, w) := Simple.simple_DescrNew d w in
       ({| descr_id := descr_id n; type_num := type_num n; elsize := elsize n;
           needs_init := needs_init n; native_byteorder := true;
           subarray := subarray n |}, w);
     descr_f := fun _ => LONG_funcs;
     PyArray_Byteswap := fun a w =>
       set_mem (Swap.byte_swap_vector (data a) (PyArray_SIZE a)
                  (PyArray_ITEMSIZE a) (mem w)) w |}.

(** [arange] on integers given as doubles, in the simple runtime. *)
Definition arange_long (start stop step : Z)
    : Run (option PyArrayObject * World) :=
  PyArray_Arange (RT := Simple.simple_runtime) (IN := simple_interp)
    (double_of_Z start) (double_of_Z stop) (double_of_Z step) 7 Simple.world0.

(** The shape and the elements of the array a run returned. *)
Definition returned_longs (r : Run (option PyArrayObject * World))
    : option (list Z * list Z) :=
  match r with
  | Ret (Some a, w) =>
      Some (dimensions a,
            map (fun i => load_long (mem w) (data a + 8 * Z.of_nat i))
                (seq 0 (Z.to_nat (PyArray_SIZE a))))
  | _ => None
  end.

Example arange_0_5_1 :
  returned_longs (arange_long 0 5 1) = Some ([5], [0; 1; 2; 3; 4]).
Proof. vm_compute. reflexivity. Qed.

Example arange_0_0_1 : returned_longs (arange_long 0 0 1) = Some ([0], []).
Proof. vm_compute. reflexivity. Qed.

Example arange_10_0_1 : returned_longs (arange_long 10 0 1) = Some ([0], []).
Proof. vm_compute. reflexivity. Qed.

Example arange_2_11_3 :
  returned_longs (arange_long 2 11 3) = Some ([3], [2; 5; 8]).
Proof. vm_compute. reflexivity. Qed.

Example arange_10_0_minus_3 :
  returned_longs (arange_long 10 0 (-3)) = Some ([4], [10; 7; 4; 1]).
Proof. vm_compute. reflexivity. Qed.

End SimpleInterp.

(** ** Properties of [arange] *)

Module RangeProperties.

Import Alloc Range SimpleInterp.

Section Generic.

Context `{RT : Runtime} {PyObj : Type} `{IN : Interp PyObj}.

(** When the quotient converts to a double whose ceiling overflows,
    [_calc_length] returns -1 with [OverflowError] set: for a real
    quotient, and for the real or the imaginary part of a complex one. *)
Lemma calc_length_overflow start stop step cmplx w diff w1 val w2 :
  PyNumber_Subtract stop start w = (Some diff, w1) ->
  PyNumber_TrueDivide diff step w1 = (Some val, w2) ->
  (cmplx && PyComplex_Check val = false ->
   forall value w3,
     PyFloat_AsDouble val w2 = (value, w3) ->
     error_converting value w3 = false ->
     _safe_ceil_to_intp value = Ceil_overflow ->
     _calc_length start stop step cmplx w
     = Ret (-1, None, PyErr_SetString PyExc_OverflowError overflow_message w3))
  /\
  (cmplx && PyComplex_Check val = true ->
   forall re w3,
     PyComplex_RealAsDouble val w2 = (re, w3) ->
     error_converting re w3 = false ->
     (_safe_ceil_to_intp re = Ceil_overflow ->
      _calc_length start stop step cmplx w
      = Ret (-1, None,
             PyErr_SetString PyExc_OverflowError overflow_message w3)) /\
     (forall len im w4,
        _safe_ceil_to_intp re = Ceil_ok len ->
        PyComplex_ImagAsDouble val w3 = (im, w4) ->
        error_converting im w4 = false ->
        _safe_ceil_to_intp im = Ceil_overflow ->
        _calc_length start stop step cmplx w
        = Ret (-1, None,
               PyErr_SetString PyExc_OverflowError overflow_message w4))).
Proof.
  intros Hs Hd. split.
  - intros Hc value w3 Hf He Ho. unfold _calc_length.
    rewrite Hs, Hd, Hc, Hf, He, Ho. reflexivity.
  - intros Hc re w3 Hre Here. split.
    + intros Ho. unfold _calc_length.
      rewrite Hs, Hd, Hc, Hre, Here, Ho. reflexivity.
    + intros len im w4 Hok Him Heim Ho. unfold _calc_length.
      rewrite Hs, Hd, Hc, Hre, Here, Hok, Him, Heim, Ho. reflexivity.
Qed.

(** An [OverflowError] left by [_calc_length] is replaced by the
    [ValueError]; the descriptor is released and nothing is returned. *)
Lemma arange_obj_overflow start stop step dtype w d w0 len next w1 msg :
  arange_dtype start stop step dtype w = Ret (d, w0) ->
  _calc_length (arange_bounds start stop).1 (arange_bounds start stop).2
    (arange_step step) (PyTypeNum_ISCOMPLEX (type_num d)) w0
    = Ret (len, next, w1) ->
  err w1 = Some (PyExc_OverflowError, msg) ->
  PyArray_ArangeObj start stop step dtype w
  = Ret (None, PyErr_SetString PyExc_ValueError "Maximum allowed size exceeded"
                 (Py_DECREF (descr_id d) w1)).
Proof.
  intros Hd Hc He. unfold PyArray_ArangeObj. rewrite Hd.
  destruct (arange_bounds start stop) as [start' stop']. cbn [fst snd] in Hc.
  rewrite Hc, He. reflexivity.
Qed.

(** [PyArray_Arange] on an overflowing length sets [OverflowError] but does
    not return: it goes on to test [length], which was not assigned. *)
Lemma arange_overflow_falls_through start stop step type_num w :
  _safe_ceil_to_intp (ddiv (dsub stop start) step) = Ceil_overflow ->
  PyArray_Arange start stop step type_num w
  = Undefined (PyErr_SetString PyExc_OverflowError overflow_message w).
Proof. intros H. unfold PyArray_Arange. rewrite H. reflexivity. Qed.

(** A 1-dimensional array made by [PyArray_New] for a type whose registered
    descriptor is plain has the shape asked for and that descriptor. *)
Lemma PyArray_New_shape type_num n w d w0 arr w' :
  PyArray_DescrFromType type_num w = (Some d, w0) ->
  subarray d = None ->
  0 < elsize d <= NPY_MAX_INTP ->
  PyArray_New PyArray_Type 1 [n] type_num None None 0 0 None w
    = (Some arr, w') ->
  PyArray_NDIM arr = 1 /\ dimensions arr = [n] /\ descr arr = d.
Proof.
  intros Hd Hsub Hel Hnew. unfold PyArray_New in Hnew. rewrite Hd in Hnew.
  destruct (Z.eqb_spec (elsize d) 0); [lia|].
  apply NewFromDescr_fresh in Hnew; [| exact Hsub | reflexivity].
  destruct Hnew as (H1 & H2 & H3 & _).
  destruct (replace_empty_elsize_elsize d w0) as [_ Hsame]; [lia|].
  rewrite Hsame in H3 by lia. auto.
Qed.

End Generic.

(** C4.  A double whose ceiling lies below [-2^63] or above [2^63], or
    which is infinite, is reported as overflowing by [_safe_ceil_to_intp];
    when the quotient [(stop - start) / step] (or, for a complex type, its
    real or imaginary part) is such a double, [_calc_length] sets
    [OverflowError]; and [PyArray_ArangeObj] then fails with the
    [ValueError] "Maximum allowed size exceeded", releasing the descriptor
    and returning no array. *)
Theorem arange_obj_length_overflow :
  (forall (value : double) (L : Z),
     valid_binary 53 1024 value = true ->
     exact_ceil value = Some L ->
     L < -9223372036854775808 \/ 9223372036854775808 < L ->
     _safe_ceil_to_intp value = Ceil_overflow) /\
  (forall s : bool, _safe_ceil_to_intp (S754_infinity s) = Ceil_overflow) /\
  (forall (PyObj : Type) (IN : Interp PyObj)
          (start stop step : PyObj) (cmplx : bool) (w : World)
          (diff val : PyObj) (w1 w2 : World),
     PyNumber_Subtract stop start w = (Some diff, w1) ->
     PyNumber_TrueDivide diff step w1 = (Some val, w2) ->
     (cmplx && PyComplex_Check val = false ->
      forall value w3,
        PyFloat_AsDouble val w2 = (value, w3) ->
        error_converting value w3 = false ->
        _safe_ceil_to_intp value = Ceil_overflow ->
        _calc_length start stop step cmplx w
        = Ret (-1, None,
               PyErr_SetString PyExc_OverflowError overflow_message w3))
     /\
     (cmplx && PyComplex_Check val = true ->
      forall re w3,
        PyComplex_RealAsDouble val w2 = (re, w3) ->
        error_converting re w3 = false ->
        (_safe_ceil_to_intp re = Ceil_overflow ->
         _calc_length start stop step cmplx w
         = Ret (-1, None,
                PyErr_SetString PyExc_OverflowError overflow_message w3)) /\
        (forall len im w4,
           _safe_ceil_to_intp re = Ceil_ok len ->
           PyComplex_ImagAsDouble val w3 = (im, w4) ->
           error_converting im w4 = false ->
           _safe_ceil_to_intp im = Ceil_overflow ->
           _calc_length start stop step cmplx w
           = Ret (-1, None,
                  PyErr_SetString PyExc_OverflowError overflow_message w4))))
  /\
  (forall (RT : Runtime) (PyObj : Type) (IN : Interp PyObj)
          (start : PyObj) (stop step : option PyObj)
          (dtype : option PyArray_Descr) (w : World)
          (d : PyArray_Descr) (w0 : World) (len : Z) (next : option PyObj)
          (w1 : World) (msg : string),
     arange_dtype start stop step dtype w = Ret (d, w0) ->
     _calc_length (arange_bounds start stop).1 (arange_bounds start stop).2
       (arange_step step) (PyTypeNum_ISCOMPLEX (type_num d)) w0
       = Ret (len, next, w1) ->
     err w1 = Some (PyExc_OverflowError, msg) ->
     PyArray_ArangeObj start stop step dtype w
     = Ret (None,
            PyErr_SetString PyExc_ValueError "Maximum allowed size exceeded"
              (Py_DECREF (descr_id d) w1))).
Proof.
  split; [exact safe_ceil_overflow|].
  split; [exact safe_ceil_infinite|].
  split.
  - intros PyObj IN start stop step cmplx w diff val w1 w2.
    apply calc_length_overflow.
  - intros RT PyObj IN start stop step dtype w d w0 len next w1 msg.
    apply arange_obj_overflow.
Qed.

(** [10^30], as a double. *)
Definition ten_to_30 : double := double_of_Z (10 ^ 30).

Lemma arange_obj_length_overflow_witness :
  _safe_ceil_to_intp ten_to_30 = Ceil_overflow /\
  PyArray_ArangeObj (RT := Simple.simple_runtime) (IN := simple_interp)
    (double_of_Z 0) (Some ten_to_30) (Some (double_of_Z 1))
    (Some Simple.long_descr) Simple.world0
  = Ret (None,
         PyErr_SetString PyExc_ValueError "Maximum allowed size exceeded"
           (Py_DECREF 1
              (PyErr_SetString PyExc_OverflowError overflow_message
                 (Py_INCREF 1 Simple.world0)))).
Proof.
  destruct arange_obj_length_overflow as (Hceil & _ & Hcalc & Hobj).
  assert (Ho : _safe_ceil_to_intp ten_to_30 = Ceil_overflow).
  { apply (Hceil ten_to_30 1000000000000000019884624838656);
      [reflexivity | reflexivity | right; reflexivity]. }
  split; [exact Ho|].
  apply (Hobj Simple.simple_runtime double simple_interp
           (double_of_Z 0) (Some ten_to_30) (Some (double_of_Z 1))
           (Some Simple.long_descr) Simple.world0
           Simple.long_descr (Py_INCREF 1 Simple.world0) (-1) None
           (PyErr_SetString PyExc_OverflowError overflow_message
              (Py_INCREF 1 Simple.world0))
           overflow_message);
    [reflexivity | | reflexivity].
  destruct (Hcalc double simple_interp (double_of_Z 0) ten_to_30
              (double_of_Z 1) false (Py_INCREF 1 Simple.world0)
              ten_to_30 ten_to_30
              (Py_INCREF 1 Simple.world0) (Py_INCREF 1 Simple.world0)
              eq_refl eq_refl) as [Hreal _].
  apply (Hreal eq_refl ten_to_30 (Py_INCREF 1 Simple.world0) eq_refl eq_refl Ho).
Defined.

(** On [arange(0, 10^30, 1)], whose length exceeds the largest [npy_intp],
    [PyArray_ArangeObj] fails with [ValueError], not [OverflowError]. *)
Lemma arange_obj_length_overflow_counterexample :
  exact_ceil (ddiv (dsub ten_to_30 (double_of_Z 0)) (double_of_Z 1))
    = Some 1000000000000000019884624838656 /\
  NPY_MAX_INTP < 1000000000000000019884624838656 /\
  exists w',
    PyArray_ArangeObj (RT := Simple.simple_runtime) (IN := simple_interp)
      (double_of_Z 0) (Some ten_to_30) (Some (double_of_Z 1))
      (Some Simple.long_descr) Simple.world0 = Ret (None, w') /\
    err w' = Some (PyExc_ValueError, "Maximum allowed size exceeded"%string) /\
    err w' <> Some (PyExc_OverflowError, overflow_message).
Proof.
  split; [vm_compute; reflexivity|]. split; [reflexivity|].
  eexists. split; [vm_compute; reflexivity|].
  split; [reflexivity | discriminate].
Qed.

(** *** The checked ceiling is the ceiling *)

(** [L] is the ceiling of the double [x]: the least integer not below the
    number [(-1)^s * m * 2^e] it stands for. *)
Definition ceiling_of (x : spec_float) (L : Z) : Prop :=
  match x with
  | S754_zero _ => L = 0
  | S754_finite s m e =>
      let v := if s then Zneg m else Zpos m in
      if 0 <=? e then L = v * 2 ^ e
      else (L - 1) * 2 ^ (- e) < v <= L * 2 ^ (- e)
  | _ => False
  end.

Lemma iter_xO_spec (d p : positive) :
  Zpos (Pos.iter xO p d) = Zpos p * 2 ^ Zpos d /\
  Zpos (digits2_pos (Pos.iter xO p d)) = Zpos (digits2_pos p) + Zpos d.
Proof.
  induction d as [|d IH] using Pos.peano_ind.
  - cbn [Pos.iter digits2_pos]. split; [lia|]. rewrite Pos2Z.inj_succ. lia.
  - rewrite Pos.iter_succ. cbn [digits2_pos]. destruct IH as [IH1 IH2].
    rewrite !Pos2Z.inj_succ, Pos2Z.inj_xO, IH1, IH2.
    rewrite Z.pow_succ_r by lia. split; lia.
Qed.

Lemma digits2_pos_small (c : positive) :
  Zpos c < 2 ^ 53 -> Zpos (digits2_pos c) <= 53.
Proof.
  intros Hc. pose proof (digits2_pos_bounds c) as [Hlo _].
  destruct (Z.le_gt_cases (Zpos (digits2_pos c)) 53) as [|Hgt]; [assumption|].
  exfalso.
  assert (2 ^ 53 <= 2 ^ (Zpos (digits2_pos c) - 1))
    by (apply Z.pow_le_mono_r; lia).
  lia.
Qed.

(** An integer below [2^53] is a double: rounding it changes nothing. *)
Lemma binary_round_small (s : bool) (c : positive) :
  Zpos c < 2 ^ 53 ->
  exists m e,
    binary_round 53 1024 s c 0 = S754_finite s m e /\
    -52 <= e <= 0 /\ Zpos m = Zpos c * 2 ^ (- e).
Proof.
  intros Hc. pose proof (digits2_pos_small c Hc) as Hd.
  assert (Hd1 : 1 <= Zpos (digits2_pos c)) by lia.
  unfold binary_round, shl_align, fexp, emin.
  replace (Z.max (Zpos (digits2_pos c) + 0 - 53) (3 - 1024 - 53))
    with (Zpos (digits2_pos c) - 53) by lia.
  rewrite Z.sub_0_r.
  assert (Haux : forall mz ez,
            Zpos (digits2_pos mz) = 53 -> -52 <= ez <= 0 ->
            binary_round_aux 53 1024 s (Zpos mz) ez loc_Exact
            = S754_finite s mz ez).
  { intros mz ez Hdig Hez.
    unfold binary_round_aux, shr_fexp, fexp, emin, Zdigits2,
      shr_record_of_loc.
    rewrite Hdig.
    replace (Z.max (53 + ez - 53) (3 - 1024 - 53) - ez) with 0 by lia.
    cbn [shr shr_m loc_of_shr_record round_nearest_even Zdigits2].
    rewrite Hdig.
    replace (Z.max (53 + ez - 53) (3 - 1024 - 53) - ez) with 0 by lia.
    cbn [shr shr_m].
    destruct (Z.leb_spec ez (1024 - 53)); [reflexivity | lia]. }
  destruct (Zpos (digits2_pos c) - 53) as [|k|k] eqn:Hk.
  - exists c, 0. split; [apply Haux; lia|]. split; [lia|].
    cbn. lia.
  - lia.
  - destruct (iter_xO_spec k c) as [Hv Hdig].
    exists (Pos.iter xO c k), (Zneg k).
    split; [apply Haux; lia|]. split; [lia|].
    rewrite Hv. reflexivity.
Qed.

Lemma ceil_finite_ceiling s m e L :
  e < 0 -> ceiling_of (S754_finite s m e) L -> ceil_finite s m e = L.
Proof.
  intros He. unfold ceiling_of, ceil_finite.
  destruct (Z.leb_spec 0 e); [lia|]. cbv zeta.
  set (v := if s then Zneg m else Zpos m).
  assert (Hp : 0 < 2 ^ (- e)) by (apply Z.pow_pos_nonneg; lia).
  intros [Hlo Hhi].
  pose proof (Z.div_mod (- v) (2 ^ (- e)) ltac:(lia)) as Hdm.
  pose proof (Z.mod_pos_bound (- v) (2 ^ (- e)) Hp) as Hr.
  nia.
Qed.

Lemma intp_range_test z :
  NPY_MIN_INTP <= z <= NPY_MAX_INTP ->
  (NPY_MIN_INTP <=? z) && (z <=? NPY_MAX_INTP) = true.
Proof.
  intros H. apply andb_true_intro. split; apply Z.leb_le; lia.
Qed.

(** The checked ceiling of a double whose ceiling fits [npy_intp] is that
    ceiling. *)
Lemma safe_ceil_ceiling (x : double) (L : Z) :
  valid_binary 53 1024 x = true ->
  ceiling_of x L ->
  NPY_MIN_INTP <= L <= NPY_MAX_INTP ->
  _safe_ceil_to_intp x = Ceil_ok L.
Proof.
  intros Hv HL Hfit.
  destruct x as [z | i | | s m e]; try contradiction.
  - cbn in HL. subst L. destruct z; reflexivity.
  - destruct (valid_mantissa_bound s m e Hv) as [Hhi Hlo].
    destruct (Z.lt_ge_cases e 0) as [Hneg|Hpos].
    + pose proof (ceil_finite_ceiling s m e L Hneg HL) as Hc.
      pose proof (ceil_finite_small s m e Hneg) as Hsmall.
      unfold _safe_ceil_to_intp, npy_ceil.
      destruct (Z.leb_spec 0 e); [lia|]. rewrite Hc.
      destruct max_intp_as_double as [-> ->].
      assert (Hround : forall (sg : bool) (c : positive),
                Zpos c < 2 ^ 53 ->
                (if sg then - Zpos c else Zpos c) = L ->
                (if dlt (binary_round 53 1024 sg c 0)
                          (S754_finite true 4503599627370496 11)
                    || dlt (S754_finite false 4503599627370496 11)
                         (binary_round 53 1024 sg c 0)
                 then Ceil_overflow
                 else match double_to_intp (binary_round 53 1024 sg c 0) with
                      | Some ret => Ceil_ok ret
                      | None => Ceil_undefined
                      end) = Ceil_ok L).
      { intros sg c Hcs HcL.
        destruct (binary_round_small sg c Hcs) as (mz & ez & -> & Hez & Hmz).
        assert (Hcmp : Z.compare ez 11 = Lt) by (apply Z.compare_lt_iff; lia).
        assert (Hcmp' : Z.compare 11 ez = Gt) by (apply Z.compare_gt_iff; lia).
        assert (Hlt : dlt (S754_finite sg mz ez)
                        (S754_finite true 4503599627370496 11)
                      || dlt (S754_finite false 4503599627370496 11)
                           (S754_finite sg mz ez) = false).
        { unfold dlt, SFltb, SFcompare. rewrite Hcmp, Hcmp'.
          destruct sg; reflexivity. }
        rewrite Hlt.
        assert (Ht : (if 0 <=? ez then Zpos mz * 2 ^ ez
                      else Zpos mz / 2 ^ (- ez)) = Zpos c).
        { destruct (Z.leb_spec 0 ez).
          - assert (ez = 0) by lia. subst ez. cbn in Hmz. cbn. lia.
          - rewrite Hmz. apply Z.div_mul.
            apply Z.pow_nonzero; lia. }
        unfold double_to_intp. rewrite Ht. cbv zeta. rewrite HcL.
        rewrite intp_range_test by exact Hfit. reflexivity. }
      change (2 ^ 53) with 9007199254740992 in Hround.
      destruct L as [|c|c].
      * reflexivity.
      * cbn [binary_normalize]. apply (Hround false c); [lia | reflexivity].
      * cbn [binary_normalize]. apply (Hround true c); [lia | reflexivity].
    + specialize (Hlo Hpos). cbn [ceiling_of] in HL.
      destruct (Z.leb_spec 0 e); [|lia].
      unfold _safe_ceil_to_intp, npy_ceil.
      destruct (Z.leb_spec 0 e); [|lia].
      destruct max_intp_as_double as [-> ->].
      assert (Hpw : 0 < 2 ^ e) by (apply Z.pow_pos_nonneg; lia).
      assert (Hz : (if s then - (Zpos m * 2 ^ e) else Zpos m * 2 ^ e) = L).
      { rewrite HL. destruct s; lia. }
      assert (Hlt : dlt (S754_finite s m e)
                      (S754_finite true 4503599627370496 11)
                    || dlt (S754_finite false 4503599627370496 11)
                         (S754_finite s m e) = false).
      { unfold NPY_MIN_INTP, NPY_MAX_INTP in Hfit.
        destruct (Z.lt_ge_cases e 11) as [Hlt|Hge].
        - unfold dlt, SFltb, SFcompare.
          rewrite (proj2 (Z.compare_lt_iff e 11) Hlt).
          rewrite (proj2 (Z.compare_gt_iff 11 e)) by lia.
          destruct s; reflexivity.
        - assert (2 ^ 11 <= 2 ^ e) by (apply Z.pow_le_mono_r; lia).
          change (2 ^ 11) with 2048 in *.
          destruct s; [|nia].
          assert (He : e = 11).
          { destruct (Z.eq_dec e 11); [assumption|exfalso].
            assert (2 ^ 12 <= 2 ^ e) by (apply Z.pow_le_mono_r; lia).
            change (2 ^ 12) with 4096 in *. nia. }
          subst e. change (2 ^ 11) with 2048 in *.
          assert (Hm : m = 4503599627370496%positive) by lia.
          subst m. reflexivity. }
      rewrite Hlt. unfold double_to_intp.
      destruct (Z.leb_spec 0 e); [|lia]. cbv zeta. rewrite Hz.
      rewrite intp_range_test by exact Hfit. reflexivity.
Qed.

(** *** The elements of [arange] *)

Section Elements.

Context `{RT : Runtime} {PyObj : Type} `{IN : Interp PyObj}.

(** The elements as the type reads them: [load w p] is the element stored
    at [p] in the state [w], [value o] the element that [setitem] stores
    for the object [o], and [extend a b i] element [i] of the progression
    that starts with [a], [b]; [d] is the descriptor of the type. *)
Variables (E : Type) (load : World -> Z -> E) (value : PyObj -> E)
          (extend : E -> E -> Z -> E) (d : PyArray_Descr).

(** The contract of [setitem]: when it succeeds the element at [p] is the
    value of the object, and the elements that do not overlap it are as
    before. *)
Definition setitem_stores : Prop :=
  forall (v : PyObj) (p : Z) (a : PyArrayObject) (w : World),
    0 <= (setitem (descr_f d) v p a w).1 ->
    load (setitem (descr_f d) v p a w).2 p = value v /\
    forall q, q + elsize d <= p \/ p + elsize d <= q ->
      load (setitem (descr_f d) v p a w).2 q = load w q.

(** The contract of the fill function: when it raises nothing the first
    two elements are as before and each later one extends the progression
    they start. *)
Definition fill_extends : Prop :=
  forall f (buf n : Z) (a : PyArrayObject) (w : World),
    fill (descr_f d) = Some f -> 2 < n ->
    PyErr_Occurred (f buf n a w) = false ->
    forall i, 0 <= i < n ->
      load (f buf n a w) (buf + i * elsize d)
      = if i <? 2 then load w (buf + i * elsize d)
        else extend (load w buf) (load w (buf + elsize d)) i.

(** C5.  [PyArray_Arange] on doubles whose quotient
    [(stop - start) / step], computed in binary64, has the ceiling
    [length], which fits [npy_intp]; [d] is the registered descriptor of
    the type.  When [length <= 0] (as for a step of the wrong sign) the
    result is what the constructor makes for the shape [(0,)]: an array of
    one axis and no element with the descriptor [d].  When [length > 0]
    the routine returns, and it returns the array the constructor made
    once the stores of the first two elements and the fill function
    succeed; an array returned has the shape [(length,)] and the
    descriptor [d];
    its element 0 is the value of [start], its element 1 (when
    [length >= 2]) the value of the sum [start + step], and each later
    element extends the progression these two start, as the fill function
    of the type makes it.  A type without fill function returns no array
    for [length > 2], and fails with the [ValueError]
    "no fill-function for data-type." once the first two elements are
    stored. *)
Theorem arange_elements
    (start stop step : double) (type_num : Z) (w w0 : World) (length : Z) :
  let q := SFdiv 53 1024 (SFsub 53 1024 stop start) step in
  valid_binary 53 1024 q = true ->
  ceiling_of q length ->
  NPY_MIN_INTP <= length <= NPY_MAX_INTP ->
  PyArray_DescrFromType type_num w = (Some d, w0) ->
  subarray d = None -> 0 < elsize d <= NPY_MAX_INTP ->
  setitem_stores -> fill_extends ->
  let result := PyArray_Arange start stop step type_num w in
  let first := value (PyFloat_FromDouble start) in
  let second := value (PyFloat_FromDouble (SFadd 53 1024 start step)) in
  (length <= 0 ->
     result = Ret (PyArray_New PyArray_Type 1 [0] type_num None None
                     0 0 None w) /\
     forall arr w',
       result = Ret (Some arr, w') ->
       PyArray_NDIM arr = 1 /\ dimensions arr = [0] /\
       PyArray_SIZE arr = 0 /\ descr arr = d) /\
  (0 < length ->
     (exists r, result = Ret r) /\
     (forall range w1,
        PyArray_New PyArray_Type 1 [length] type_num None None 0 0 None w
          = (Some range, w1) ->
        let r0 := setitem (descr_f d) (PyFloat_FromDouble start)
                    (data range) range w1 in
        let r1 := setitem (descr_f d)
                    (PyFloat_FromDouble (SFadd 53 1024 start step))
                    (data range + elsize d) range r0.2 in
        0 <= r0.1 -> (1 < length -> 0 <= r1.1) ->
        (2 < length ->
           exists f, fill (descr_f d) = Some f /\
             PyErr_Occurred (f (data range) length range r1.2) = false) ->
        exists w', result = Ret (Some range, w')) /\
     forall arr w',
       result = Ret (Some arr, w') ->
       PyArray_NDIM arr = 1 /\ dimensions arr = [length] /\ descr arr = d /\
       forall i, 0 <= i < length ->
         load w' (data arr + i * elsize d)
         = if i =? 0 then first
           else if i =? 1 then second
           else extend first second i) /\
  (2 < length -> fill (descr_f d) = None ->
     (forall r, result = Ret r -> r.1 = None) /\
     forall range w1,
       PyArray_New PyArray_Type 1 [length] type_num None None 0 0 None w
         = (Some range, w1) ->
       let r0 := setitem (descr_f d) (PyFloat_FromDouble start)
                   (data range) range w1 in
       let r1 := setitem (descr_f d)
                   (PyFloat_FromDouble (SFadd 53 1024 start step))
                   (data range + elsize d) range r0.2 in
       0 <= r0.1 -> 0 <= r1.1 ->
       result = Ret (None,
                     Py_DECREF_array range
                       (PyErr_SetString PyExc_ValueError
                          "no fill-function for data-type." r1.2))).
Proof using Type.
  intros q Hvalid Hceil Hfit Hd Hsub Hel Hset Hfill result first second.
  pose proof (safe_ceil_ceiling q length Hvalid Hceil Hfit) as Hlen.
  assert (Hres : result =
            match Ceil_ok length with
            | Ceil_ok length =>
                if length <=? 0 then
                  Ret (PyArray_New PyArray_Type 1 [0] type_num None None
                         0 0 None w)
                else
                  match PyArray_New PyArray_Type 1 [length] type_num None
                          None 0 0 None w with
                  | (None, w) => Ret (None, w)
                  | (Some range, w) =>
                      let funcs := descr_f (descr range) in
                      let '(ret, w) :=
                        setitem funcs (PyFloat_FromDouble start) (data range)
                          range w in
                      if ret <? 0 then Ret (None, Py_DECREF_array range w)
                      else if length =? 1 then Ret (Some range, w)
                      else
                        let '(ret, w) :=
                          setitem funcs (PyFloat_FromDouble (dadd start step))
                            (data range + PyArray_ITEMSIZE range) range w in
                        if ret <? 0 then Ret (None, Py_DECREF_array range w)
                        else if length =? 2 then Ret (Some range, w)
                        else
                          match fill funcs with
                          | None =>
                              Ret (None,
                                   Py_DECREF_array range
                                     (PyErr_SetString PyExc_ValueError
                                        "no fill-function for data-type." w))
                          | Some f =>
                              let w := f (data range) length range w in
                              if PyErr_Occurred w
                              then Ret (None, Py_DECREF_array range w)
                              else Ret (Some range, w)
                          end
                  end
            | _ => Undefined w
            end).
  { subst result. unfold PyArray_Arange.
    change (ddiv (dsub stop start) step) with q. rewrite Hlen. reflexivity. }
  cbv iota in Hres. clearbody result.
  split; [|split].
  - intros Hle. destruct (Z.leb_spec length 0); [|lia].
    split; [exact Hres|].
    intros arr w' Harr. rewrite Hres in Harr. inversion Harr as [Hnew].
    destruct (PyArray_New_shape type_num 0 w d w0 arr w' Hd Hsub Hel Hnew)
      as (H1 & H2 & H3).
    repeat split; try assumption.
    unfold PyArray_SIZE. unfold PyArray_NDIM in H1. rewrite H1, H2. reflexivity.
  - intros Hpos. destruct (Z.leb_spec length 0); [lia|].
    split; [|split].
    { rewrite Hres.
      destruct (PyArray_New PyArray_Type 1 [length] type_num None None 0 0
                  None w) as [[range|] w1]; [|eexists; reflexivity].
      cbv zeta.
      destruct (setitem (descr_f (descr range)) (PyFloat_FromDouble start)
                  (data range) range w1) as [ret0 w2].
      destruct (ret0 <? 0); [eexists; reflexivity|].
      destruct (length =? 1); [eexists; reflexivity|].
      destruct (setitem (descr_f (descr range))
                  (PyFloat_FromDouble (dadd start step))
                  (data range + PyArray_ITEMSIZE range) range w2)
        as [ret1 w3].
      destruct (ret1 <? 0); [eexists; reflexivity|].
      destruct (length =? 2); [eexists; reflexivity|].
      destruct (fill (descr_f (descr range))) as [f|];
        [|eexists; reflexivity].
      cbv zeta.
      destruct (PyErr_Occurred (f (data range) length range w3));
        eexists; reflexivity. }
    { intros range w1 Hnew r0 r1 Hr0 Hr1 Hfl. rewrite Hres, Hnew.
      destruct (PyArray_New_shape type_num length w d w0 range w1 Hd Hsub Hel
                  Hnew) as (_ & _ & H3).
      cbv zeta. unfold PyArray_ITEMSIZE. rewrite H3.
      subst r1. subst r0.
      change (dadd start step) with (SFadd 53 1024 start step).
      destruct (setitem (descr_f d) (PyFloat_FromDouble start) (data range)
                  range w1) as [ret0 w2]. cbn [fst snd] in *.
      destruct (Z.ltb_spec ret0 0); [lia|].
      destruct (Z.eqb_spec length 1); [eexists; reflexivity|].
      destruct (setitem (descr_f d)
                  (PyFloat_FromDouble (SFadd 53 1024 start step))
                  (data range + elsize d) range w2) as [ret1 w3].
      cbn [fst snd] in *.
      destruct (Z.ltb_spec ret1 0); [lia|].
      destruct (Z.eqb_spec length 2); [eexists; reflexivity|].
      destruct Hfl as (f & Hf & Herr); [lia|].
      rewrite Hf. cbv zeta. rewrite Herr. eexists; reflexivity. }
    intros arr w' Harr. rewrite Hres in Harr. clear Hres.
    destruct (PyArray_New PyArray_Type 1 [length] type_num None None 0 0
                None w) as [[range|] w1] eqn:Hnew; [|discriminate Harr].
    destruct (PyArray_New_shape type_num length w d w0 range w1 Hd Hsub Hel
                Hnew) as (H1 & H2 & H3).
    cbv zeta in Harr. unfold PyArray_ITEMSIZE in Harr. rewrite H3 in Harr.
    pose proof (Hset (PyFloat_FromDouble start) (data range) range w1) as Hs0.
    destruct (setitem (descr_f d) (PyFloat_FromDouble start) (data range)
                range w1) as [ret0 w2]. cbn [fst snd] in Hs0.
    destruct (Z.ltb_spec ret0 0) as [|Hr0]; [discriminate Harr|].
    destruct (Hs0 Hr0) as [Hv0 _].
    destruct (Z.eqb_spec length 1) as [Hl1|Hl1].
    { inversion Harr; subst arr w'. repeat split; try assumption.
      intros i Hi. assert (i = 0) by lia. subst i.
      rewrite Z.mul_0_l, Z.add_0_r. exact Hv0. }
    pose proof (Hset (PyFloat_FromDouble (dadd start step))
                  (data range + elsize d) range w2) as Hs1.
    destruct (setitem (descr_f d) (PyFloat_FromDouble (dadd start step))
                (data range + elsize d) range w2) as [ret1 w3].
    cbn [fst snd] in Hs1.
    destruct (Z.ltb_spec ret1 0) as [|Hr1]; [discriminate Harr|].
    destruct (Hs1 Hr1) as [Hv1 Hkeep].
    assert (Hv0' : load w3 (data range) = first).
    { rewrite Hkeep by lia. exact Hv0. }
    assert (Hv1' : load w3 (data range + elsize d) = second) by exact Hv1.
    destruct (Z.eqb_spec length 2) as [Hl2|Hl2].
    { inversion Harr; subst arr w'. repeat split; try assumption.
      intros i Hi. assert (i = 0 \/ i = 1) as [->| ->] by lia.
      - rewrite Z.mul_0_l, Z.add_0_r. exact Hv0'.
      - rewrite Z.mul_1_l. exact Hv1'. }
    destruct (fill (descr_f d)) as [f|] eqn:Hf; [|discriminate Harr].
    cbv zeta in Harr.
    destruct (PyErr_Occurred (f (data range) length range w3)) eqn:Herr;
      [discriminate Harr|].
    inversion Harr; subst arr w'. repeat split; try assumption.
    intros i Hi.
    rewrite (Hfill f (data range) length range w3 Hf ltac:(lia) Herr i Hi).
    rewrite Hv0', Hv1'.
    destruct (Z.eqb_spec i 0) as [->|Hi0].
    { cbn [Z.ltb Z.compare]. rewrite Z.mul_0_l, Z.add_0_r. exact Hv0'. }
    destruct (Z.eqb_spec i 1) as [->|Hi1].
    { cbn [Z.ltb Z.compare]. rewrite Z.mul_1_l. exact Hv1'. }
    destruct (Z.ltb_spec i 2); [lia | reflexivity].
  - intros Hbig Hnofill. rewrite Hres. clear Hres.
    destruct (Z.leb_spec length 0); [lia|].
    destruct (Z.eqb_spec length 1); [lia|].
    destruct (Z.eqb_spec length 2); [lia|].
    split.
    + intros r Hr.
      destruct (PyArray_New PyArray_Type 1 [length] type_num None None 0 0
                  None w) as [[range|] w1] eqn:Hnew;
        [|inversion Hr; reflexivity].
      destruct (PyArray_New_shape type_num length w d w0 range w1 Hd Hsub Hel
                  Hnew) as (_ & _ & H3).
      cbv zeta in Hr. rewrite H3, Hnofill in Hr.
      destruct (setitem (descr_f d) (PyFloat_FromDouble start) (data range)
                  range w1) as [ret0 w2].
      destruct (ret0 <? 0); [inversion Hr; reflexivity|].
      destruct (setitem (descr_f d) (PyFloat_FromDouble (dadd start step))
                  (data range + PyArray_ITEMSIZE range) range w2)
        as [ret1 w3].
      destruct (ret1 <? 0); inversion Hr; reflexivity.
    + intros range w1 Hnew r0 r1 Hr0 Hr1. rewrite Hnew.
      destruct (PyArray_New_shape type_num length w d w0 range w1 Hd Hsub Hel
                  Hnew) as (_ & _ & H3).
      cbv zeta. unfold PyArray_ITEMSIZE. rewrite H3, Hnofill.
      subst r1. subst r0.
      destruct (setitem (descr_f d) (PyFloat_FromDouble start) (data range)
                  range w1) as [ret0 w2]. cbn [fst snd] in *.
      destruct (Z.ltb_spec ret0 0); [lia|].
      change (dadd start step) with (SFadd 53 1024 start step).
      destruct (setitem (descr_f d)
                  (PyFloat_FromDouble (SFadd 53 1024 start step))
                  (data range + elsize d) range w2) as [ret1 w3].
      cbn [fst snd] in *.
      destruct (Z.ltb_spec ret1 0); [lia|]. reflexivity.
Qed.

End Elements.

(** *** The 8-byte integer type keeps the contracts *)

Definition long_load (w : World) (p : Z) : Z := load_long (mem w) p.

Definition long_value (v : double) : Z :=
  match double_to_intp v with
  | Some z => z
  | None => 0
  end.

Definition long_extend (a b i : Z) : Z := to_intp (a + i * to_intp (b - a)).

Lemma le_value_le_bytes (k : nat) : forall x,
  SimpleCopy.le_value (SimpleCopy.le_bytes k x) = x mod 256 ^ Z.of_nat k.
Proof.
  induction k as [|k IH]; intros x.
  - cbn. symmetry. apply Z.mod_1_r.
  - cbn [SimpleCopy.le_bytes SimpleCopy.le_value]. rewrite IH.
    rewrite Nat2Z.inj_succ, Z.pow_succ_r by lia.
    rewrite Z.rem_mul_r by (try apply Z.pow_pos_nonneg; lia). reflexivity.
Qed.

Lemma length_le_bytes (k : nat) : forall x,
  length (SimpleCopy.le_bytes k x) = k.
Proof. induction k as [|k IH]; intros x; cbn; [reflexivity|]. rewrite IH. reflexivity. Qed.

Lemma read_store_same p l m :
  Swap.read_bytes (store_bytes p l m) p (length l) = l.
Proof.
  unfold Swap.read_bytes. apply list_eq. intros i.
  rewrite list_lookup_fmap.
  destruct (decide (i < length l)%nat) as [Hi|Hi].
  - rewrite lookup_seq_lt by exact Hi. cbn [fmap option_fmap option_map].
    unfold store_bytes.
    destruct (Z.leb_spec p (p + Z.of_nat (0 + i))); [|lia].
    destruct (Z.ltb_spec (p + Z.of_nat (0 + i)) (p + Z.of_nat (length l)));
      [|lia].
    cbn [andb].
    replace (Z.to_nat (p + Z.of_nat (0 + i) - p)) with i by lia.
    destruct (lookup_lt_is_Some_2 l i Hi) as [x Hx].
    rewrite (list_lookup_total_correct _ _ _ Hx). symmetry. exact Hx.
  - rewrite lookup_seq_ge by lia. rewrite lookup_ge_None_2 by lia. reflexivity.
Qed.

Lemma read_store_other p l m q n :
  q + Z.of_nat n <= p \/ p + Z.of_nat (length l) <= q ->
  Swap.read_bytes (store_bytes p l m) q n = Swap.read_bytes m q n.
Proof.
  intros Hd. unfold Swap.read_bytes. apply map_ext_in. intros i Hi.
  apply in_seq in Hi. unfold store_bytes.
  destruct (Z.leb_spec p (q + Z.of_nat i));
    destruct (Z.ltb_spec (q + Z.of_nat i) (p + Z.of_nat (length l)));
    cbn [andb]; try reflexivity; lia.
Qed.

Lemma load_store_same p z m :
  NPY_MIN_INTP <= z <= NPY_MAX_INTP ->
  load_long (store_long p z m) p = z.
Proof.
  intros Hz. unfold load_long, store_long.
  pose proof (read_store_same p (SimpleCopy.le_bytes 8 (to_uintp z)) m) as H.
  rewrite length_le_bytes in H. rewrite H, le_value_le_bytes.
  change (256 ^ Z.of_nat 8) with uintp_modulus.
  fold (to_uintp (to_uintp z)). rewrite to_uintp_idem, to_intp_to_uintp.
  apply to_intp_small. exact Hz.
Qed.

Lemma load_store_other p z m q :
  q + 8 <= p \/ p + 8 <= q ->
  load_long (store_long p z m) q = load_long m q.
Proof.
  intros Hd. unfold load_long, store_long.
  rewrite read_store_other; [reflexivity|].
  rewrite length_le_bytes. lia.
Qed.

Lemma double_to_intp_range v z :
  double_to_intp v = Some z -> NPY_MIN_INTP <= z <= NPY_MAX_INTP.
Proof.
  unfold double_to_intp. destruct v as [s | s | | s m e]; try discriminate.
  - intros H. inversion H. unfold NPY_MIN_INTP, NPY_MAX_INTP. lia.
  - cbv zeta.
    destruct (_ && _) eqn:Hr; [|discriminate].
    intros H. inversion H; subst z. apply andb_prop in Hr as [H1 H2].
    apply Z.leb_le in H1, H2. lia.
Qed.

Lemma long_setitem_stores :
  setitem_stores (IN := simple_interp) Z long_load long_value
    Simple.long_descr.
Proof.
  intros v p a w. cbn [descr_f simple_interp setitem LONG_funcs].
  unfold LONG_setitem, long_value, long_load.
  destruct (double_to_intp v) as [z|] eqn:Hv; cbn [fst snd]; [|lia].
  intros _. cbn [mem set_mem]. split.
  - apply load_store_same. exact (double_to_intp_range v z Hv).
  - intros q Hq. apply load_store_other.
    change (elsize Simple.long_descr) with 8 in Hq. lia.
Qed.

Lemma LONG_fill_loop_spec buffer start delta (n : nat) : forall i0 m j,
  0 <= i0 -> 0 <= j ->
  load_long (LONG_fill_loop n i0 buffer start delta m) (buffer + 8 * j)
  = if (i0 <=? j) && (j <? i0 + Z.of_nat n)
    then to_intp (start + j * delta)
    else load_long m (buffer + 8 * j).
Proof.
  induction n as [|n IH]; intros i0 m j Hi0 Hj; cbn [LONG_fill_loop].
  - destruct (Z.leb_spec i0 j); destruct (Z.ltb_spec j (i0 + Z.of_nat 0));
      cbn [andb]; try reflexivity; lia.
  - rewrite IH by lia.
    destruct (Z.leb_spec (i0 + 1) j);
      destruct (Z.ltb_spec j (i0 + 1 + Z.of_nat n));
      destruct (Z.leb_spec i0 j);
      destruct (Z.ltb_spec j (i0 + Z.of_nat (S n)));
      cbn [andb];
      first [ reflexivity
            | lia
            | apply load_store_other; lia
            | replace j with i0 by lia;
              apply load_store_same, to_intp_range ].
Qed.

Lemma long_fill_extends :
  fill_extends (IN := simple_interp) Z long_load long_extend
    Simple.long_descr.
Proof.
  intros f buf n a w Hf Hn _ i Hi.
  cbn [descr_f simple_interp fill LONG_funcs] in Hf. injection Hf as <-.
  change (elsize Simple.long_descr) with 8.
  unfold LONG_fill, long_load, long_extend. cbn [mem set_mem].
  replace (buf + i * 8) with (buf + 8 * i) by lia.
  rewrite LONG_fill_loop_spec by lia.
  rewrite Z2Nat.id by lia.
  destruct (Z.leb_spec 2 i); destruct (Z.ltb_spec i (2 + (n - 2)));
    destruct (Z.ltb_spec i 2); cbn [andb]; try reflexivity; lia.
Qed.

(** [arange(3, 10, 3)]: the quotient 7/3 has the ceiling 3, and the array
    is [[3, 6, 9]]. *)
Lemma arange_elements_witness :
  match arange_long 3 10 3 with
  | Ret (Some arr, w') =>
      dimensions arr = [3] /\
      load_long (mem w') (data arr) = 3 /\
      load_long (mem w') (data arr + 8) = 6 /\
      load_long (mem w') (data arr + 16) = 9
  | _ => False
  end.
Proof.
  unfold arange_long.
  destruct (PyArray_Arange (RT := Simple.simple_runtime) (IN := simple_interp)
              (double_of_Z 3) (double_of_Z 10) (double_of_Z 3) 7
              Simple.world0) as [[[arr|] w']|w'] eqn:Hres;
    [|vm_compute in Hres; discriminate Hres ..].
  destruct (arange_elements (RT := Simple.simple_runtime) (IN := simple_interp)
              Z long_load long_value long_extend Simple.long_descr
              (double_of_Z 3) (double_of_Z 10) (double_of_Z 3) 7
              Simple.world0 (Py_INCREF 1 Simple.world0) 3
              ltac:(vm_compute; reflexivity)
              ltac:(vm_compute; split; [reflexivity | discriminate])
              ltac:(unfold NPY_MIN_INTP, NPY_MAX_INTP; lia)
              eq_refl eq_refl
              ltac:(unfold NPY_MAX_INTP; cbn; lia)
              long_setitem_stores long_fill_extends)
    as (_ & Helems & _).
  destruct (Helems ltac:(lia)) as (_ & _ & Hload).
  destruct (Hload arr w' Hres) as (_ & Hdims & _ & Hload3).
  clear Hload. rename Hload3 into Hload.
  split; [exact Hdims|].
  pose proof (Hload 0 ltac:(lia)) as H0.
  pose proof (Hload 1 ltac:(lia)) as H1.
  pose proof (Hload 2 ltac:(lia)) as H2.
  change (elsize Simple.long_descr) with 8 in H0, H1, H2.
  rewrite Z.mul_0_l, Z.add_0_r in H0. rewrite Z.mul_1_l in H1.
  change (2 * 8) with 16 in H2.
  split; [exact H0|]. split; [exact H1 | exact H2].
Defined.

(** [arange(10^30, 0, 1)]: the quotient has a ceiling below 0, yet no
    array of length 0 is returned: [OverflowError] is set, and the routine
    goes on to read a length that was not assigned. *)
Lemma arange_elements_counterexample :
  ceiling_of (SFdiv 53 1024 (SFsub 53 1024 (double_of_Z 0) ten_to_30)
                (double_of_Z 1))
    (-1000000000000000019884624838656) /\
  -1000000000000000019884624838656 <= 0 /\
  PyArray_Arange (RT := Simple.simple_runtime) (IN := simple_interp)
    ten_to_30 (double_of_Z 0) (double_of_Z 1) 7 Simple.world0
  = Undefined (PyErr_SetString PyExc_OverflowError overflow_message
                 Simple.world0) /\
  forall r,
    PyArray_Arange (RT := Simple.simple_runtime) (IN := simple_interp)
      ten_to_30 (double_of_Z 0) (double_of_Z 1) 7 Simple.world0 <> Ret r.
Proof.
  split; [vm_compute; reflexivity|]. split; [lia|].
  assert (H : PyArray_Arange (RT := Simple.simple_runtime)
                (IN := simple_interp) ten_to_30 (double_of_Z 0)
                (double_of_Z 1) 7 Simple.world0
              = Undefined (PyErr_SetString PyExc_OverflowError
                             overflow_message Simple.world0)).
  { apply arange_overflow_falls_through. vm_compute. reflexivity. }
  split; [exact H|]. intros r. rewrite H. discriminate.
Qed.

End RangeProperties.

(** ** Skipping the separator in text input
    ([fromstr_skip_separator], [fromfile_skip_separator]) *)

Module SkipSeparator.

Import Separator.
Local Open Scope string_scope.
Local Open Scope Z_scope.

(** [c == '\0'] *)
Definition is_nul (c : ascii) : bool := Ascii.eqb c zero.

(** [end != NULL && string >= end]: [end] is given by its offset from [*s]
    ([None] for NULL) and [string] by the number of characters passed. *)
Definition at_end (end_ : option Z) (pos : nat) : bool :=
  match end_ with
  | Some e => e <=? Z.of_nat pos
  | None => false
  end.

(** The loop [while (1)] of [fromstr_skip_separator], on the text from
    [string] on (the characters before its terminating NUL) and the
    separator from [sep] on; [pos] is [string - *s].  Gives the result and
    the final [string - *s].  An iteration either passes a character of the
    text, or leaves the text where it is and passes a character of the
    separator ([sep++; continue]). *)
Fixpoint fromstr_loop (end_ : option Z) (text : string) {struct text}
    : string -> nat -> Z * nat :=
  match text with
  | EmptyString => fun _ pos => (-1, pos)
  | String c rest =>
      fix on_sep (sep : string) (pos : nat) {struct sep} : Z * nat :=
        if is_nul c || at_end end_ pos then (-1, pos)
        else
          match sep with
          | EmptyString =>
              if negb (Nat.eqb pos 0) then (0, pos) else (-2, pos)
          | String sc sep' =>
              if Ascii.eqb sc " " then
                if negb (isspace c) then on_sep sep' pos
                else fromstr_loop end_ rest sep (S pos)
              else if negb (Ascii.eqb sc c) then (-2, pos)
              else fromstr_loop end_ rest sep' (S pos)
          end
  end.

(** [fromstr_skip_separator(&s, sep, end)]: the result and the number of
    characters by which [*s] has advanced. *)
Definition fromstr_skip_separator (s sep : string) (end_ : option Z) : Z * nat :=
  fromstr_loop end_ s sep 0.

(** The value of a [char] of the separator when compared with the [int]
    that [fgetc] returns: a [char] above 127 is negative where [char] is
    signed. *)
Definition char_value (char_signed : bool) (c : ascii) : Z :=
  let n := Z.of_nat (nat_of_ascii c) in
  if char_signed && (128 <=? n) then n - 256 else n.

(** The loop of [fromfile_skip_separator] on the bytes the stream still
    holds; [sepi] and [sep_start] are the two separator pointers as offsets
    into the separator.  [fgetc] takes the first byte, the end of the stream
    being [EOF]; [ungetc] puts it back, so that the next [fgetc] reads it
    again.  Gives the result and the bytes left in the stream. *)
Fixpoint fromfile_loop (char_signed : bool) (fp : string) {struct fp}
    : string -> Z -> Z -> Z * string :=
  match fp with
  | EmptyString => fun _ _ _ => (-1, EmptyString)
  | String c rest =>
      fix on_sep (sep : string) (sepi sep_start : Z) {struct sep}
          : Z * string :=
        match sep with
        | EmptyString =>
            (if negb (sepi =? sep_start) then 0 else -2, String c rest)
        | String sc sep' =>
            if Ascii.eqb sc " " then
              if negb (isspace c) then on_sep sep' (sepi + 1) (sep_start + 1)
              else if sepi =? sep_start
                   then fromfile_loop char_signed rest sep sepi (sep_start - 1)
                   else fromfile_loop char_signed rest sep sepi sep_start
            else if negb (char_value char_signed sc
                          =? Z.of_nat (nat_of_ascii c))
            then (-2, String c rest)
            else fromfile_loop char_signed rest sep' (sepi + 1) sep_start
        end
  end.

(** [fromfile_skip_separator(&fp, sep, stream_data)] *)
Definition fromfile_skip_separator (char_signed : bool) (fp sep : string)
    : Z * string :=
  fromfile_loop char_signed fp sep 0 0.

(** The text from offset [n] on. *)
Fixpoint string_drop (n : nat) (s : string) : string :=
  match n, s with
  | O, _ => s
  | S n', String _ rest => string_drop n' rest
  | S _, EmptyString => EmptyString
  end.

(** Every character of [s] satisfies [P]. *)
Fixpoint string_forall (P : ascii -> bool) (s : string) : bool :=
  match s with
  | EmptyString => true
  | String c rest => P c && string_forall P rest
  end.

Example skip_comma :
  fromstr_skip_separator "  ,  3" (swab_separator ",") None = (0, 3%nat).
Proof. reflexivity. Qed.

Example skip_missing_comma :
  fromstr_skip_separator "  3" (swab_separator ",") None = (-2, 2%nat).
Proof. reflexivity. Qed.

Example skip_at_end :
  fromstr_skip_separator "  " (swab_separator ",") None = (-1, 2%nat).
Proof. reflexivity. Qed.

Example skip_file_comma :
  fromfile_skip_separator true "  ,  3" (swab_separator ",") = (0, "  3").
Proof. reflexivity. Qed.

(** *** Properties of the skipping routines *)

Lemma fromstr_loop_cons end_ c rest sep pos :
  fromstr_loop end_ (String c rest) sep pos =
  if is_nul c || at_end end_ pos then (-1, pos)
  else match sep with
       | EmptyString => if negb (Nat.eqb pos 0) then (0, pos) else (-2, pos)
       | String sc sep' =>
           if Ascii.eqb sc " " then
             if negb (isspace c) then fromstr_loop end_ (String c rest) sep' pos
             else fromstr_loop end_ rest sep (S pos)
           else if negb (Ascii.eqb sc c) then (-2, pos)
           else fromstr_loop end_ rest sep' (S pos)
       end.
Proof. destruct sep; reflexivity. Qed.


Lemma fromstr_loop_bounds end_ text : forall sep pos,
  let r := fromstr_loop end_ text sep pos in
  (r.1 = 0 \/ r.1 = -1 \/ r.1 = -2) /\
  (pos <= r.2 <= pos + String.length text)%nat /\
  (forall e, end_ = Some e -> Z.of_nat r.2 <= Z.max (Z.of_nat pos) e) /\
  (r.1 = 0 -> (0 < r.2)%nat /\
     exists c, String.get (r.2 - pos) text = Some c /\ is_nul c = false).
Proof.
  induction text as [|c rest IHt]; intros sep pos.
  - cbn. repeat split; try lia; auto; discriminate.
  - revert pos. induction sep as [|sc sep' IHs]; intros pos;
      rewrite fromstr_loop_cons.
    + destruct (is_nul c || at_end end_ pos) eqn:Hstop.
      { cbn. repeat split; try lia; auto; discriminate. }
      apply orb_false_elim in Hstop as [Hc He].
      destruct (Nat.eqb_spec pos 0) as [Hp|Hp]; cbn [negb fst snd].
      { repeat split; try lia; auto; discriminate. }
      repeat split; try lia; auto.
      rewrite Nat.sub_diag. exists c. split; [reflexivity | exact Hc].
    + destruct (is_nul c || at_end end_ pos) eqn:Hstop.
      { cbn. repeat split; try lia; auto; discriminate. }
      apply orb_false_elim in Hstop as [Hc He].
      assert (Hadv : forall sep0,
        let r := fromstr_loop end_ rest sep0 (S pos) in
        (r.1 = 0 \/ r.1 = -1 \/ r.1 = -2) /\
        (pos <= r.2 <= pos + String.length (String c rest))%nat /\
        (forall e, end_ = Some e -> Z.of_nat r.2 <= Z.max (Z.of_nat pos) e) /\
        (r.1 = 0 -> (0 < r.2)%nat /\
           exists c0, String.get (r.2 - pos) (String c rest) = Some c0
                      /\ is_nul c0 = false)).
      { intros sep0. destruct (IHt sep0 (S pos)) as (H1 & H2 & H3 & H4).
        cbv zeta. split; [exact H1|]. split; [cbn [String.length]; lia|].
        split.
        - intros e Hend. specialize (H3 e Hend).
          unfold at_end in He. rewrite Hend in He.
          apply Z.leb_gt in He. lia.
        - intros H0. destruct (H4 H0) as [Hpos (c0 & Hg & Hn)].
          split; [exact Hpos|]. exists c0. split; [|exact Hn].
          replace (_ - pos)%nat with (S ((fromstr_loop end_ rest sep0 (S pos)).2 - S pos))
            by lia.
          exact Hg. }
      destruct (Ascii.eqb sc " ").
      * destruct (isspace c); cbn [negb]; [apply Hadv | apply IHs].
      * destruct (Ascii.eqb sc c); cbn [negb]; [apply Hadv |].
        cbn. repeat split; try lia; auto; discriminate.
Qed.

Lemma string_forall_app P s1 s2 :
  string_forall P (s1 ++ s2) = string_forall P s1 && string_forall P s2.
Proof.
  induction s1 as [|c s1 IH]; [reflexivity|].
  cbn. rewrite IH. apply andb_assoc.
Qed.

Lemma length_append s1 s2 :
  String.length (s1 ++ s2) = (String.length s1 + String.length s2)%nat.
Proof. induction s1 as [|c s1 IH]; [reflexivity|]. cbn. rewrite IH. reflexivity. Qed.



(** A separator without wildcard is matched character by character. *)
Lemma fromstr_loop_literal sep : forall c rest pos,
  string_forall (fun a => negb (isspace a) && negb (is_nul a)) sep = true ->
  is_nul c = false -> (pos + String.length sep <> 0)%nat ->
  fromstr_loop None (sep ++ String c rest) sep pos
  = (0, (pos + String.length sep)%nat).
Proof.
  induction sep as [|a sep IH]; intros c rest pos Hsep Hc Hpos.
  - cbn [append String.length] in *. rewrite fromstr_loop_cons, Hc.
    cbn [orb at_end]. rewrite Nat.add_0_r in *.
    destruct (Nat.eqb_spec pos 0); [contradiction | reflexivity].
  - cbn [string_forall] in Hsep. apply andb_prop in Hsep as [Ha Hsep].
    apply andb_prop in Ha as [Hsp Hnul].
    apply negb_true_iff in Hsp, Hnul.
    change (String a sep ++ String c rest) with (String a (sep ++ String c rest)).
    rewrite fromstr_loop_cons, Hnul. cbn [orb at_end].
    assert (Hne : Ascii.eqb a " " = false).
    { destruct (Ascii.eqb_spec a " ") as [->|]; [|reflexivity].
      vm_compute in Hsp. discriminate Hsp. }
    rewrite Hne, Ascii.eqb_refl. cbn [negb].
    rewrite IH by (try assumption; lia).
    cbn [String.length]. f_equal. lia.
Qed.

(** The loop of [swab_separator] only appends to what is written. *)
Lemma swab_loop_app sep : forall skip out,
  swab_loop sep skip out = out ++ swab_loop sep skip "".
Proof.
  induction sep as [|c sep IH]; intros skip out; cbn [swab_loop].
  - induction out as [|a out IHo]; [reflexivity|]. cbn. rewrite <- IHo. reflexivity.
  - assert (Happ : forall a b c0 : string, (a ++ b) ++ c0 = a ++ b ++ c0).
    { intros a b c0. induction a as [|x a IHa]; [reflexivity|].
      cbn. rewrite IHa. reflexivity. }
    destruct (isspace c); [destruct skip|].
    + apply IH.
    + rewrite (IH true (put out " ")), (IH true (put "" " ")).
      unfold put. rewrite Happ. reflexivity.
    + rewrite (IH false (put out c)), (IH false (put "" c)).
      unfold put. rewrite Happ. reflexivity.
Qed.





(** X1.  [fromstr_skip_separator] returns 0, -1 or -2; it never moves the
    pointer beyond the terminating NUL of the text, nor beyond [end] when
    [end] is given; and when it returns 0 (separator matched) it has passed
    at least one character and stands on a character that is not NUL, so
    that a match always leaves input to read. *)
Theorem fromstr_skip_separator_bounds (s sep : string) (end_ : option Z) :
  let r := fromstr_skip_separator s sep end_ in
  (r.1 = 0 \/ r.1 = -1 \/ r.1 = -2) /\
  (r.2 <= String.length s)%nat /\
  (forall e, end_ = Some e -> Z.of_nat r.2 <= Z.max 0 e) /\
  (r.1 = 0 ->
   (0 < r.2)%nat /\
   exists c, String.get r.2 s = Some c /\ is_nul c = false).
Proof.
  destruct (fromstr_loop_bounds end_ s sep 0) as (H1 & H2 & H3 & H4).
  cbv zeta. unfold fromstr_skip_separator.
  split; [exact H1|]. split; [lia|]. split; [exact H3|].
  intros H0. destruct (H4 H0) as [Hp (c & Hg & Hn)].
  split; [exact Hp|]. exists c. rewrite Nat.sub_0_r in Hg. auto.
Qed.









Lemma fromfile_loop_cons signed c rest sep sepi ss :
  fromfile_loop signed (String c rest) sep sepi ss =
  match sep with
  | EmptyString => (if negb (sepi =? ss) then 0 else -2, String c rest)
  | String sc sep' =>
      if Ascii.eqb sc " " then
        if negb (isspace c)
        then fromfile_loop signed (String c rest) sep' (sepi + 1) (ss + 1)
        else if sepi =? ss
             then fromfile_loop signed rest sep sepi (ss - 1)
             else fromfile_loop signed rest sep sepi ss
      else if negb (char_value signed sc =? Z.of_nat (nat_of_ascii c))
      then (-2, String c rest)
      else fromfile_loop signed rest sep' (sepi + 1) ss
  end.
Proof. destruct sep; reflexivity. Qed.

(** A 7-bit character of the separator compares with the byte read as it
    does with the character read. *)
Lemma char_value_eqb signed sc c :
  Nat.ltb (nat_of_ascii sc) 128 = true ->
  (char_value signed sc =? Z.of_nat (nat_of_ascii c)) = Ascii.eqb sc c.
Proof.
  intros Hlt. apply Nat.ltb_lt in Hlt. unfold char_value.
  replace (128 <=? Z.of_nat (nat_of_ascii sc)) with false
    by (symmetry; apply Z.leb_gt; lia).
  rewrite andb_false_r.
  destruct (Ascii.eqb_spec sc c) as [->|Hne].
  - apply Z.eqb_refl.
  - apply Z.eqb_neq. intros Heq. apply Nat2Z.inj in Heq.
    apply Hne. rewrite <- (ascii_nat_embedding sc), <- (ascii_nat_embedding c).
    rewrite Heq. reflexivity.
Qed.

Lemma fromfile_loop_agrees signed text : forall sep (pos : nat) sepi ss,
  string_forall (fun c => negb (is_nul c)) text = true ->
  string_forall (fun c => Nat.ltb (nat_of_ascii c) 128) sep = true ->
  ss <= sepi -> (pos = 0%nat <-> sepi = ss) ->
  fromfile_loop signed text sep sepi ss
  = ((fromstr_loop None text sep pos).1,
     string_drop ((fromstr_loop None text sep pos).2 - pos) text).
Proof.
  induction text as [|c rest IHt]; intros sep pos sepi ss Htext Hsep Hle Hinv.
  - assert (Hd : forall n, string_drop n "" = "") by (intros []; reflexivity).
    destruct sep; cbn; rewrite Hd; reflexivity.
  - cbn [string_forall] in Htext. apply andb_prop in Htext as [Hc Htext].
    apply negb_true_iff in Hc.
    assert (Hadv : forall sep0 sepi0 ss0,
      string_forall (fun c => Nat.ltb (nat_of_ascii c) 128) sep0 = true ->
      ss0 < sepi0 ->
      fromfile_loop signed rest sep0 sepi0 ss0
      = ((fromstr_loop None rest sep0 (S pos)).1,
         string_drop ((fromstr_loop None rest sep0 (S pos)).2 - pos)
           (String c rest))).
    { intros sep0 sepi0 ss0 Hsep0 Hlt.
      rewrite (IHt sep0 (S pos) sepi0 ss0 Htext Hsep0) by lia.
      destruct (fromstr_loop_bounds None rest sep0 (S pos)) as (_ & Hb & _).
      cbv zeta in Hb. f_equal.
      replace ((fromstr_loop None rest sep0 (S pos)).2 - pos)%nat
        with (S ((fromstr_loop None rest sep0 (S pos)).2 - S pos)) by lia.
      reflexivity. }
    revert pos sepi ss Hle Hinv Hadv.
    induction sep as [|sc sep' IHs]; intros pos sepi ss Hle Hinv Hadv;
      rewrite fromfile_loop_cons, fromstr_loop_cons, Hc; cbn [orb at_end].
    + destruct (Nat.eqb_spec pos 0) as [Hp|Hp], (Z.eqb_spec sepi ss) as [Hs|Hs];
        cbn [negb fst snd]; try (exfalso; tauto);
        rewrite Nat.sub_diag; reflexivity.
    + cbn [string_forall] in Hsep. apply andb_prop in Hsep as [Hsc Hsep'].
      destruct (Ascii.eqb sc " ") eqn:Hwild.
      * destruct (isspace c); cbn [negb].
        -- destruct (Z.eqb_spec sepi ss); apply Hadv; cbn [string_forall];
             try (rewrite Hsc, Hsep'; reflexivity); lia.
        -- apply IHs; [exact Hsep' | lia | | exact Hadv].
           split; intros; [apply Hinv in H|]; lia || (apply Hinv; lia).
      * rewrite (char_value_eqb signed sc c Hsc).
        destruct (Ascii.eqb sc c); cbn [negb fst snd].
        -- apply Hadv; [exact Hsep' | lia].
        -- rewrite Nat.sub_diag. reflexivity.
Qed.

(** X5.  The two skipping routines agree: on a stream whose bytes are not
    NUL and a separator of 7-bit characters, [fromfile_skip_separator]
    returns what [fromstr_skip_separator] returns on the same text, and
    leaves in the stream exactly the text from the final string pointer on,
    whether [char] is signed or not. *)
Theorem fromfile_skip_separator_agrees (char_signed : bool) (text sep : string) :
  string_forall (fun c => negb (is_nul c)) text = true ->
  string_forall (fun c => Nat.ltb (nat_of_ascii c) 128) sep = true ->
  fromfile_skip_separator char_signed text sep
  = ((fromstr_skip_separator text sep None).1,
     string_drop (fromstr_skip_separator text sep None).2 text).
Proof.
  intros Htext Hsep. unfold fromfile_skip_separator, fromstr_skip_separator.
  rewrite (fromfile_loop_agrees char_signed text sep 0 0 0 Htext Hsep);
    [| lia | tauto].
  rewrite Nat.sub_0_r. reflexivity.
Qed.

Lemma fromfile_skip_separator_agrees_witness :
  fromfile_skip_separator true " , 2 3" " ,"
  = ((fromstr_skip_separator " , 2 3" " ," None).1,
     string_drop (fromstr_skip_separator " , 2 3" " ," None).2 " , 2 3").
Proof.
  apply (fromfile_skip_separator_agrees true " , 2 3" " ,"); reflexivity.
Defined.

(** *** Properties of the cleaned separator *)

Lemma length_put out c : String.length (put out c) = S (String.length out).
Proof. unfold put. rewrite length_append. cbn. lia. Qed.

Lemma swab_loop_length sep : forall skip out,
  (String.length (swab_loop sep skip out)
   <= String.length out + String.length sep)%nat.
Proof.
  induction sep as [|c sep IH]; intros skip out; cbn [swab_loop String.length];
    [lia|].
  destruct (isspace c); [destruct skip|].
  - specialize (IH true out). lia.
  - specialize (IH true (put out " ")). rewrite length_put in IH. lia.
  - specialize (IH false (put out c)). rewrite length_put in IH. lia.
Qed.

(** X6.  The cleaned separator, with its terminating NUL, fits the buffer
    of [strlen(sep) + 3] bytes that [swab_separator] allocates for it. *)
Theorem swab_separator_fits (sep : string) :
  (String.length (swab_separator sep) + 1 <= String.length sep + 3)%nat.
Proof.
  unfold swab_separator.
  set (out0 := match sep with
               | String c _ => if negb (isspace c) then put "" " " else ""
               | EmptyString => ""
               end).
  assert (H0 : (String.length out0 <= 1)%nat).
  { subst out0. destruct sep as [|c sep']; [cbn; lia|].
    destruct (negb (isspace c)); cbn; lia. }
  pose proof (swab_loop_length sep false out0) as Hl.
  destruct (last_char (swab_loop sep false out0)) as [a|]; [|lia].
  destruct a as [[] [] [] [] [] [] [] []]; try lia.
  rewrite length_put. lia.
Qed.

(** The characters the cleaned separator is made of: the space, and
    characters that are not whitespace. *)
Definition wildcard_or_literal (a : ascii) : bool :=
  negb (isspace a) || Ascii.eqb a " ".

Lemma string_forall_put P out c :
  string_forall P (put out c) = string_forall P out && P c.
Proof.
  unfold put. rewrite string_forall_app. cbn. rewrite andb_true_r. reflexivity.
Qed.

Lemma swab_loop_chars sep : forall skip out,
  string_forall wildcard_or_literal out = true ->
  string_forall wildcard_or_literal (swab_loop sep skip out) = true.
Proof.
  induction sep as [|c sep IH]; intros skip out Hout; cbn [swab_loop];
    [exact Hout|].
  destruct (isspace c) eqn:Hc; [destruct skip|].
  - apply IH, Hout.
  - apply IH. rewrite string_forall_put, Hout. reflexivity.
  - apply IH. rewrite string_forall_put, Hout. unfold wildcard_or_literal.
    rewrite Hc. reflexivity.
Qed.

(** X7.  The cleaned separator of a separator that is not empty starts with
    the wildcard space, and the only whitespace it holds is the space
    character: every run of whitespace has become a wildcard. *)
Theorem swab_separator_wildcards (sep : string) :
  sep <> "" ->
  (exists t, swab_separator sep = String " " t) /\
  string_forall wildcard_or_literal (swab_separator sep) = true.
Proof.
  intros Hne. unfold swab_separator.
  destruct sep as [|c sep']; [contradiction|].
  set (out0 := if negb (isspace c) then put "" " " else "").
  assert (Hhead : exists t, swab_loop (String c sep') false out0 = String " " t).
  { subst out0. destruct (isspace c) eqn:Hc; cbn [negb swab_loop]; rewrite Hc.
    - rewrite swab_loop_app. eexists. reflexivity.
    - rewrite swab_loop_app. eexists. reflexivity. }
  assert (Hchars : string_forall wildcard_or_literal
                     (swab_loop (String c sep') false out0) = true).
  { apply swab_loop_chars. subst out0. destruct (negb (isspace c)); reflexivity. }
  destruct Hhead as [t Ht].
  destruct (last_char (swab_loop (String c sep') false out0)) as [a|] eqn:Hl.
  - assert (Hput : exists t', put (swab_loop (String c sep') false out0) " "
                              = String " " t').
    { rewrite Ht. eexists. reflexivity. }
    assert (Hputc : string_forall wildcard_or_literal
                      (put (swab_loop (String c sep') false out0) " ") = true).
    { rewrite string_forall_put, Hchars. reflexivity. }
    destruct a as [[] [] [] [] [] [] [] []]; eauto.
  - eauto.
Qed.

Lemma swab_separator_wildcards_witness :
  (exists t, swab_separator (String "009" (String "010" ";")) = String " " t) /\
  string_forall wildcard_or_literal
    (swab_separator (String "009" (String "010" ";"))) = true.
Proof.
  apply (swab_separator_wildcards (String "009" (String "010" ";"))).
  discriminate.
Defined.

End SkipSeparator.

(** ** Properties of the byte swap *)

(** Case analysis on the tests of a conditional expression over integers. *)
Ltac bool_cases :=
  repeat match goal with
         | |- context [if ?b then _ else _] =>
             let E := fresh "E" in destruct b eqn:E
         end;
  repeat match goal with
         | H : (_ && _) = true |- _ => apply andb_prop in H as [? ?]
         | H : (_ && _) = false |- _ => apply andb_false_iff in H as [?|?]
         | H : (_ =? _) = true |- _ => apply Z.eqb_eq in H
         | H : (_ =? _) = false |- _ => apply Z.eqb_neq in H
         | H : (_ <? _) = true |- _ => apply Z.ltb_lt in H
         | H : (_ <? _) = false |- _ => apply Z.ltb_ge in H
         | H : (_ <=? _) = true |- _ => apply Z.leb_le in H
         | H : (_ <=? _) = false |- _ => apply Z.leb_gt in H
         end.

Module SwapProperties.

Import Swap.



Lemma swap_pairs_spec j : forall a b m x,
  a + 2 * Z.of_nat j <= b + 1 ->
  (swap_pairs j a b m).2 x =
    if (a <=? x) && (x <? a + Z.of_nat j) then m (b - (x - a))
    else if (b - Z.of_nat j <? x) && (x <=? b) then m (a + (b - x))
    else m x.
Proof.
  induction j as [|j IH]; intros a b m x Hab; cbn [swap_pairs].
  - cbn [snd]. bool_cases; try reflexivity; lia.
  - rewrite IH by lia. unfold exchange.
    bool_cases; try reflexivity; try (f_equal; lia); try lia.
Qed.

Lemma swap_pairs_pointer j : forall a b m,
  (swap_pairs j a b m).1 = a + Z.of_nat j.
Proof.
  induction j as [|j IH]; intros a b m; cbn [swap_pairs]; [cbn; lia|].
  rewrite IH. lia.
Qed.

(** Each special case of the switch does what the general loop does. *)
Lemma swap_item_pairs size stride a m :
  0 <= size ->
  swap_item size stride a m
  = (a + stride,
     (swap_pairs (Z.to_nat (Z.quot size 2)) a (a + (size - 1)) m).2).
Proof.
  intros Hs. unfold swap_item.
  destruct (Z.eqb_spec size 4) as [->|]; [cbn; f_equal; lia|].
  destruct (Z.eqb_spec size 8) as [->|]; [cbn; f_equal; lia|].
  destruct (Z.eqb_spec size 2) as [->|]; [cbn; f_equal; lia|].
  pose proof (swap_pairs_pointer (Z.to_nat (Z.quot size 2)) a (a + (size - 1)) m)
    as Hp.
  destruct (swap_pairs (Z.to_nat (Z.quot size 2)) a (a + (size - 1)) m)
    as [a' m']. cbn [fst snd] in *. subst a'.
  f_equal. rewrite Z2Nat.id; [lia|].
  rewrite Z.quot_div_nonneg by lia. apply Z.div_pos; lia.
Qed.

(** One item: its bytes are reversed, the others are kept. *)
Lemma swap_item_spec size stride a m x :
  0 <= size ->
  (swap_item size stride a m).2 x =
    if (a <=? x) && (x <? a + size) then m (a + (a + size - 1 - x)) else m x.
Proof.
  intros Hs. rewrite swap_item_pairs by exact Hs. cbn [snd].
  assert (Hq : Z.quot size 2 = size / 2) by (apply Z.quot_div_nonneg; lia).
  assert (Hh : 0 <= size / 2) by (apply Z.div_pos; lia).
  pose proof (Z.div_mod size 2 ltac:(lia)) as Hdm.
  pose proof (Z.mod_pos_bound size 2 ltac:(lia)) as Hmod.
  rewrite swap_pairs_spec by (rewrite Z2Nat.id; lia).
  rewrite Z2Nat.id by lia. rewrite Hq.
  bool_cases; try reflexivity; try (f_equal; lia); try lia.
Qed.

Lemma swap_items_outside n : forall size stride a m x,
  0 <= size ->
  (forall i, 0 <= i < Z.of_nat n ->
     ~ (a + i * stride <= x < a + i * stride + size)) ->
  swap_items n size stride a m x = m x.
Proof.
  induction n as [|n IH]; intros size stride a m x Hs Hout;
    cbn [swap_items]; [reflexivity|].
  pose proof (swap_item_spec size stride a m x Hs) as Hx.
  rewrite swap_item_pairs in * by exact Hs. cbn [snd] in Hx.
  rewrite IH.
  - rewrite Hx. specialize (Hout 0 ltac:(lia)).
    bool_cases; try reflexivity; lia.
  - exact Hs.
  - intros i Hi. specialize (Hout (i + 1) ltac:(lia)).
    replace (a + stride + i * stride) with (a + (i + 1) * stride) by lia.
    exact Hout.
Qed.

Lemma swap_items_inside n : forall size stride a m i j,
  1 <= size <= stride ->
  0 <= i < Z.of_nat n -> 0 <= j < size ->
  swap_items n size stride a m (a + i * stride + j)
  = m (a + i * stride + (size - 1 - j)).
Proof.
  induction n as [|n IH]; intros size stride a m i j Hs Hi Hj;
    cbn [swap_items]; [lia|].
  pose proof (swap_item_spec size stride a m) as Hx.
  rewrite swap_item_pairs in * by lia. cbn [snd] in Hx.
  destruct (Z.eq_dec i 0) as [->|Hi0].
  - rewrite swap_items_outside.
    + rewrite Hx by lia. bool_cases; try (f_equal; lia); lia.
    + lia.
    + intros k Hk. nia.
  - replace (a + i * stride + j) with (a + stride + (i - 1) * stride + j) by lia.
    rewrite IH by lia. rewrite Hx by lia.
    assert (a + size <= a + stride + (i - 1) * stride + (size - 1 - j)) by nia.
    bool_cases; try (f_equal; lia); lia.
Qed.

(** X9.  [_strided_byte_swap] reverses the bytes of each of the [n] items
    of [size] bytes laid out [stride] apart (byte [j] of an item receives
    what byte [size - 1 - j] held, for the sizes handled specially and for
    every other size alike) and changes no byte outside the items. *)
Theorem strided_byte_swap_reverses (p stride n size : Z) (m : Z -> Z) :
  1 <= size <= stride ->
  (forall i j, 0 <= i < n -> 0 <= j < size ->
     _strided_byte_swap p stride n size m (p + i * stride + j)
     = m (p + i * stride + (size - 1 - j))) /\
  (forall x,
     (forall i, 0 <= i < n -> ~ (p + i * stride <= x < p + i * stride + size)) ->
     _strided_byte_swap p stride n size m x = m x).
Proof.
  intros Hs. unfold _strided_byte_swap. split.
  - intros i j Hi Hj. destruct (Z.eqb_spec size 1) as [->|Hne].
    + f_equal. lia.
    + apply swap_items_inside; lia.
  - intros x Hout. destruct (size =? 1); [reflexivity|].
    apply swap_items_outside; [lia|].
    intros i Hi. apply Hout. lia.
Qed.

Lemma strided_byte_swap_reverses_witness :
  _strided_byte_swap 100 8 3 5 (fun a => a) (100 + 1 * 8 + 0)
  = 100 + 1 * 8 + (5 - 1 - 0).
Proof.
  apply (proj1 (strided_byte_swap_reverses 100 8 3 5 (fun a => a) ltac:(lia)));
    lia.
Defined.

(** X10.  Swapping twice restores the memory: [byte_swap_vector] applied
    twice to the same vector leaves every byte as it was. *)
Theorem byte_swap_vector_involutive (p n size : Z) (m : Z -> Z) (x : Z) :
  1 <= size ->
  byte_swap_vector p n size (byte_swap_vector p n size m) x = m x.
Proof.
  intros Hs. unfold byte_swap_vector, _strided_byte_swap.
  destruct (size =? 1); [reflexivity|].
  set (N := Z.to_nat n).
  destruct (Z_lt_le_dec x p) as [Hlo|Hlo].
  { rewrite !swap_items_outside; try reflexivity; try lia; intros i Hi; nia. }
  destruct (Z_lt_le_dec x (p + Z.of_nat N * size)) as [Hhi|Hhi].
  - pose proof (Z.div_mod (x - p) size ltac:(lia)) as Hdm.
    pose proof (Z.mod_pos_bound (x - p) size ltac:(lia)) as Hmod.
    assert (Hi : 0 <= (x - p) / size < Z.of_nat N).
    { split; [apply Z.div_pos; lia|]. apply Z.div_lt_upper_bound; lia. }
    replace x with (p + (x - p) / size * size + (x - p) mod size) at 1 by lia.
    rewrite swap_items_inside by lia.
    rewrite swap_items_inside by lia.
    f_equal. lia.
  - rewrite !swap_items_outside; try reflexivity; try lia; intros i Hi; nia.
Qed.

Lemma byte_swap_vector_involutive_witness :
  byte_swap_vector 100 2 3 (byte_swap_vector 100 2 3 (bytes_at 100 [1; 2; 3; 4; 5; 6])) 104
  = 5.
Proof.
  rewrite (byte_swap_vector_involutive 100 2 3 (bytes_at 100 [1; 2; 3; 4; 5; 6]) 104
             ltac:(lia)).
  reflexivity.
Defined.

(** X11.  On the contiguous path (source stride equal to the item size)
    with the swap requested and source and destination apart,
    [copy_and_swap] leaves in byte [j] of destination item [i] the byte
    [itemsize - 1 - j] of source item [i]: the items arrive byte-reversed. *)
Theorem copy_and_swap_contiguous
    (dst src itemsize numitems swap : Z) (m : Z -> Z) (i j : Z) :
  1 <= itemsize -> swap <> 0 ->
  dst + numitems * itemsize <= src \/ src + numitems * itemsize <= dst ->
  0 <= i < numitems -> 0 <= j < itemsize ->
  copy_and_swap dst src itemsize numitems itemsize swap m (dst + i * itemsize + j)
  = m (src + i * itemsize + (itemsize - 1 - j)).
Proof.
  intros Hs Hswap Hdisj Hi Hj. unfold copy_and_swap.
  rewrite Z.eqb_refl, orb_true_r.
  destruct (Z.eqb_spec swap 0) as [|_]; [contradiction|].
  unfold byte_swap_vector, _strided_byte_swap.
  destruct (Z.eqb_spec itemsize 1) as [->|Hne].
  - unfold memcpy. replace j with 0 by lia.
    bool_cases; try (f_equal; lia); nia.
  - rewrite swap_items_inside by lia.
    unfold memcpy. bool_cases; try (f_equal; lia); nia.
Qed.

Lemma copy_and_swap_contiguous_witness :
  copy_and_swap 200 100 4 2 4 1 (bytes_at 100 [1; 2; 3; 4; 5; 6; 7; 8])
    (200 + 1 * 4 + 0) = 8.
Proof.
  rewrite (copy_and_swap_contiguous 200 100 4 2 1
             (bytes_at 100 [1; 2; 3; 4; 5; 6; 7; 8]) 1 0);
    [reflexivity | lia..].
Defined.

End SwapProperties.

(** ** Strided byte copy ([_strided_byte_copy],
    [_unaligned_strided_byte_copy]) *)

Module ByteCopy.

Import Swap.

(** [for (j = 0; j < elsize; j++) *tout++ = *tin++;] *)
Fixpoint copy_bytes (j : nat) (tout tin : Z) (m : Z -> Z) : Z -> Z :=
  match j with
  | O => m
  | S j' =>
      copy_bytes j' (tout + 1) (tin + 1)
        (fun a => if a =? tout then m tin else m a)
  end.

(** One iteration of the loop that [switch(elsize)] selects in
    [_strided_byte_copy], giving the next [tout] and [tin]: one load and one
    store of the item for the sizes 8, 4, 1 and 2, two 8-byte moves for
    size 16, and a byte loop otherwise. *)
Definition move_item (elsize outstrides instrides : Z) (tout tin : Z)
    (m : Z -> Z) : Z * Z * (Z -> Z) :=
  if (elsize =? 8) || (elsize =? 4) || (elsize =? 1) || (elsize =? 2) then
    (tout + outstrides, tin + instrides, memcpy tout tin elsize m)
  else if elsize =? 16 then
    (tout + outstrides, tin + instrides,
     memcpy (tout + 8) (tin + 8) 8 (memcpy tout tin 8 m))
  else
    let n := Z.of_nat (Z.to_nat elsize) in
    (tout + n + outstrides - elsize, tin + n + instrides - elsize,
     copy_bytes (Z.to_nat elsize) tout tin m).

(** One iteration of [_COPY_N_SIZE]. *)
Definition memcpy_item (elsize outstrides instrides : Z) (tout tin : Z)
    (m : Z -> Z) : Z * Z * (Z -> Z) :=
  (tout + outstrides, tin + instrides, memcpy tout tin elsize m).

(** The loop [for (i = 0; i < N; i++)] over one of the two. *)
Fixpoint strided_loop (item : Z -> Z -> (Z -> Z) -> Z * Z * (Z -> Z))
    (N : nat) (tout tin : Z) (m : Z -> Z) : Z -> Z :=
  match N with
  | O => m
  | S N' =>
      let '(tout, tin, m) := item tout tin m in
      strided_loop item N' tout tin m
  end.

(** [_strided_byte_copy(dst, outstrides, src, instrides, N, elsize)] *)
Definition _strided_byte_copy (dst outstrides src instrides N elsize : Z)
    (m : Z -> Z) : Z -> Z :=
  strided_loop (move_item elsize outstrides instrides) (Z.to_nat N) dst src m.

(** [_unaligned_strided_byte_copy(dst, outstrides, src, instrides, N, elsize)] *)
Definition _unaligned_strided_byte_copy
    (dst outstrides src instrides N elsize : Z) (m : Z -> Z) : Z -> Z :=
  strided_loop (memcpy_item elsize outstrides instrides) (Z.to_nat N) dst src m.

Lemma copy_bytes_spec j : forall tout tin m x,
  tout + Z.of_nat j <= tin \/ tin + Z.of_nat j <= tout ->
  copy_bytes j tout tin m x = memcpy tout tin (Z.of_nat j) m x.
Proof.
  induction j as [|j IH]; intros tout tin m x Hd; cbn [copy_bytes].
  - unfold memcpy. bool_cases; try reflexivity; lia.
  - rewrite IH by lia. unfold memcpy.
    bool_cases; try reflexivity; try (f_equal; lia); try lia.
Qed.

(** On an item that does not overlap its source, every variant of the loop
    body is the copy of [elsize] bytes. *)
Lemma move_item_spec elsize outstrides instrides tout tin m :
  0 <= elsize ->
  tout + elsize <= tin \/ tin + elsize <= tout ->
  (move_item elsize outstrides instrides tout tin m).1
    = (tout + outstrides, tin + instrides) /\
  forall x, (move_item elsize outstrides instrides tout tin m).2 x
            = memcpy tout tin elsize m x.
Proof.
  intros Hs Hd. unfold move_item.
  destruct ((elsize =? 8) || (elsize =? 4) || (elsize =? 1) || (elsize =? 2));
    [split; reflexivity|].
  destruct (Z.eqb_spec elsize 16) as [->|Hne]; cbn [fst snd].
  - split; [reflexivity|]. intros x. unfold memcpy.
    bool_cases; try reflexivity; try (f_equal; lia); try lia.
  - split; [f_equal; lia|]. intros x.
    rewrite copy_bytes_spec by lia. rewrite Z2Nat.id by lia. reflexivity.
Qed.

Section StridedLoop.

Variables (item : Z -> Z -> (Z -> Z) -> Z * Z * (Z -> Z))
          (elsize outstrides instrides : Z).

Hypothesis elsize_nonneg : 0 <= elsize.

Hypothesis item_copies : forall tout tin m,
  tout + elsize <= tin \/ tin + elsize <= tout ->
  (item tout tin m).1 = (tout + outstrides, tin + instrides) /\
  forall x, (item tout tin m).2 x = memcpy tout tin elsize m x.

Lemma strided_loop_spec N : forall tout tin m,
  (forall i k, 0 <= i < Z.of_nat N -> 0 <= k < Z.of_nat N -> i <> k ->
     tout + i * outstrides + elsize <= tout + k * outstrides \/
     tout + k * outstrides + elsize <= tout + i * outstrides) ->
  (forall i k, 0 <= i < Z.of_nat N -> 0 <= k < Z.of_nat N ->
     tout + i * outstrides + elsize <= tin + k * instrides \/
     tin + k * instrides + elsize <= tout + i * outstrides) ->
  (forall i j, 0 <= i < Z.of_nat N -> 0 <= j < elsize ->
     strided_loop item N tout tin m (tout + i * outstrides + j)
     = m (tin + i * instrides + j)) /\
  (forall x,
     (forall i, 0 <= i < Z.of_nat N ->
        ~ (tout + i * outstrides <= x < tout + i * outstrides + elsize)) ->
     strided_loop item N tout tin m x = m x).
Proof using elsize_nonneg item_copies.
  induction N as [|N IH]; intros tout tin m Hdd Hds.
  { split; [intros; lia | reflexivity]. }
  cbn [strided_loop].
  destruct (item_copies tout tin m) as [Hp Hm].
  { specialize (Hds 0 0 ltac:(lia) ltac:(lia)). lia. }
  destruct (item tout tin m) as [[tout' tin'] m1]. cbn [fst snd] in Hp, Hm.
  inversion Hp; subst tout' tin'; clear Hp.
  destruct (IH (tout + outstrides) (tin + instrides) m1) as [Hin Hout].
  { intros i k Hi Hk Hik.
    specialize (Hdd (i + 1) (k + 1) ltac:(lia) ltac:(lia) ltac:(lia)). lia. }
  { intros i k Hi Hk.
    specialize (Hds (i + 1) (k + 1) ltac:(lia) ltac:(lia)). lia. }
  split.
  - intros i j Hi Hj. destruct (Z.eq_dec i 0) as [->|Hi0].
    + rewrite Hout.
      * rewrite Hm. unfold memcpy. bool_cases; try (f_equal; lia); lia.
      * intros k Hk.
        specialize (Hdd 0 (k + 1) ltac:(lia) ltac:(lia) ltac:(lia)). lia.
    + replace (tout + i * outstrides + j)
        with (tout + outstrides + (i - 1) * outstrides + j) by lia.
      rewrite Hin by lia. rewrite Hm. unfold memcpy.
      specialize (Hds 0 i ltac:(lia) ltac:(lia)).
      bool_cases; try (f_equal; lia); lia.
  - intros x Hx. rewrite Hout.
    + rewrite Hm. unfold memcpy. specialize (Hx 0 ltac:(lia)).
      bool_cases; try reflexivity; lia.
    + intros i Hi. specialize (Hx (i + 1) ltac:(lia)). lia.
Qed.

End StridedLoop.

(** X13.  When the destination items overlap neither one another nor any
    source item, [_strided_byte_copy] and [_unaligned_strided_byte_copy]
    both leave destination item [i] holding the bytes of source item [i],
    and change no byte outside the destination items. *)
Theorem strided_byte_copy_items
    (dst outstrides src instrides N elsize : Z) (m : Z -> Z) :
  0 <= elsize ->
  elsize <= outstrides \/ outstrides <= - elsize ->
  (forall i k, 0 <= i < N -> 0 <= k < N ->
     dst + i * outstrides + elsize <= src + k * instrides \/
     src + k * instrides + elsize <= dst + i * outstrides) ->
  (forall i j, 0 <= i < N -> 0 <= j < elsize ->
     _strided_byte_copy dst outstrides src instrides N elsize m
       (dst + i * outstrides + j) = m (src + i * instrides + j) /\
     _unaligned_strided_byte_copy dst outstrides src instrides N elsize m
       (dst + i * outstrides + j) = m (src + i * instrides + j)) /\
  (forall x,
     (forall i, 0 <= i < N ->
        ~ (dst + i * outstrides <= x < dst + i * outstrides + elsize)) ->
     _strided_byte_copy dst outstrides src instrides N elsize m x = m x /\
     _unaligned_strided_byte_copy dst outstrides src instrides N elsize m x
     = m x).
Proof.
  intros Hs Hstride Hds.
  unfold _strided_byte_copy, _unaligned_strided_byte_copy.
  assert (Hdd : forall i k, 0 <= i < Z.of_nat (Z.to_nat N) ->
            0 <= k < Z.of_nat (Z.to_nat N) -> i <> k ->
            dst + i * outstrides + elsize <= dst + k * outstrides \/
            dst + k * outstrides + elsize <= dst + i * outstrides).
  { intros i k Hi Hk Hik. nia. }
  assert (Hds' : forall i k, 0 <= i < Z.of_nat (Z.to_nat N) ->
            0 <= k < Z.of_nat (Z.to_nat N) ->
            dst + i * outstrides + elsize <= src + k * instrides \/
            src + k * instrides + elsize <= dst + i * outstrides).
  { intros i k Hi Hk. apply Hds; lia. }
  destruct (strided_loop_spec (move_item elsize outstrides instrides)
              elsize outstrides instrides Hs
              (fun tout tin m0 H =>
                 move_item_spec elsize outstrides instrides tout tin m0 Hs H)
              (Z.to_nat N) dst src m Hdd Hds') as [Hin1 Hout1].
  destruct (strided_loop_spec (memcpy_item elsize outstrides instrides)
              elsize outstrides instrides Hs
              (fun tout tin m0 _ => conj eq_refl (fun x => eq_refl))
              (Z.to_nat N) dst src m Hdd Hds') as [Hin2 Hout2].
  split.
  - intros i j Hi Hj. split; [apply Hin1 | apply Hin2]; lia.
  - intros x Hx. split; [apply Hout1 | apply Hout2]; intros i Hi; apply Hx; lia.
Qed.

Lemma strided_byte_copy_items_witness :
  _strided_byte_copy 200 4 100 (-3) 2 3 (bytes_at 95 [1; 2; 3; 4; 5; 6; 7; 8])
    (200 + 1 * 4 + 2) = 5.
Proof.
  destruct (strided_byte_copy_items 200 4 100 (-3) 2 3
              (bytes_at 95 [1; 2; 3; 4; 5; 6; 7; 8])
              ltac:(lia) ltac:(lia) ltac:(intros; lia)) as [Hin _].
  destruct (Hin 1 2 ltac:(lia) ltac:(lia)) as [H _].
  rewrite H. reflexivity.
Defined.

End ByteCopy.

(** ** Properties of the memory extents and of the overlap test *)

Module Extents.

Import Move.

(** An index into an array of extents [dims]: one coordinate per axis,
    within the extent. *)
Fixpoint valid_index (idx dims : list Z) : bool :=
  match idx, dims with
  | [], [] => true
  | i :: idx', d :: dims' => (0 <=? i) && (i <? d) && valid_index idx' dims'
  | _, _ => false
  end.

(** The byte offset of the element at [idx] from the data pointer. *)
Fixpoint element_offset (idx strides : list Z) : Z :=
  match idx, strides with
  | i :: idx', s :: strides' => i * s + element_offset idx' strides'
  | _, _ => 0
  end.

(** Every axis has a stride, and no product [stride * (dim - 1)] leaves the
    range of [npy_intp]. *)
Fixpoint spans_fit (dims strides : list Z) : bool :=
  match dims, strides with
  | [], [] => true
  | d :: dims', s :: strides' =>
      (NPY_MIN_INTP <=? s * (d - 1)) && (s * (d - 1) <=? NPY_MAX_INTP)
      && spans_fit dims' strides'
  | _, _ => false
  end.

(** The array lies in the address space: its lowest and highest bytes are
    addresses, computed without wrap-around. *)
Definition in_address_space (arr : PyArrayObject) : bool :=
  let ndim := Z.to_nat (PyArray_NDIM arr) in
  let dims := take ndim (dimensions arr) in
  let st := take ndim (strides arr) in
  spans_fit dims st
  && (0 <=? data arr + span_down dims st)
  && (data arr + span_up dims st + elsize (descr arr) <? uintp_modulus).

(** The address of the element of [arr] at [idx]. *)
Definition element_address (arr : PyArrayObject) (idx : list Z) : Z :=
  data arr
  + element_offset idx (take (Z.to_nat (PyArray_NDIM arr)) (strides arr)).

Lemma valid_index_nonzero idx : forall dims,
  valid_index idx dims = true -> Forall (fun d => d <> 0) dims.
Proof.
  induction idx as [|i idx IH]; intros [|d dims] Hv; try discriminate Hv;
    [constructor|].
  cbn [valid_index] in Hv. apply andb_prop in Hv as [Hi Hv].
  apply andb_prop in Hi as [H0 Hd].
  apply Z.leb_le in H0. apply Z.ltb_lt in Hd.
  constructor; [lia | apply IH, Hv].
Qed.

Lemma offset_between idx : forall dims st,
  valid_index idx dims = true -> spans_fit dims st = true ->
  span_down dims st <= element_offset idx st <= span_up dims st.
Proof.
  induction idx as [|i idx IH]; intros [|d dims] [|s st] Hv Hf;
    try discriminate Hv; try discriminate Hf; [cbn; lia|].
  cbn [valid_index spans_fit] in Hv, Hf.
  apply andb_prop in Hv as [Hi Hv]. apply andb_prop in Hi as [H0 Hd].
  apply andb_prop in Hf as [Hb Hf]. apply andb_prop in Hb as [Hlo Hhi].
  apply Z.leb_le in H0, Hlo, Hhi. apply Z.ltb_lt in Hd.
  specialize (IH dims st Hv Hf).
  cbn [span_down span_up element_offset].
  rewrite to_intp_small by lia.
  destruct (Z.ltb_spec 0 s); [nia|].
  destruct (Z.ltb_spec s 0); nia.
Qed.

Lemma extents_cover (arr : PyArrayObject) (idx : list Z) :
  in_address_space arr = true ->
  valid_index idx (take (Z.to_nat (PyArray_NDIM arr)) (dimensions arr)) = true ->
  0 <= elsize (descr arr) ->
  (_get_memory_extents arr).1 <= element_address arr idx /\
  element_address arr idx + elsize (descr arr) <= (_get_memory_extents arr).2.
Proof.
  intros Hsp Hv Hel. unfold in_address_space in Hsp.
  apply andb_prop in Hsp as [Hsp Hhi]. apply andb_prop in Hsp as [Hfit Hlo].
  apply Z.leb_le in Hlo. apply Z.ltb_lt in Hhi.
  pose proof (offset_between _ _ _ Hv Hfit) as Hoff.
  pose proof (offset_between _ _ _ Hv Hfit) as Hspan.
  rewrite get_memory_extents_nonzero by (eapply valid_index_nonzero, Hv).
  cbn [fst snd]. unfold element_address.
  rewrite !to_uintp_small by (unfold uintp_modulus in *; lia).
  lia.
Qed.

(** X14.  The extents computed by [_get_memory_extents] hold every element
    of an array that lies in the address space: for every index within the
    shape, the bytes of that element are between the start and the end
    returned. *)
Theorem memory_extents_cover (arr : PyArrayObject) (idx : list Z) (x : Z) :
  in_address_space arr = true ->
  valid_index idx (take (Z.to_nat (PyArray_NDIM arr)) (dimensions arr)) = true ->
  element_address arr idx <= x < element_address arr idx + elsize (descr arr) ->
  (_get_memory_extents arr).1 <= x < (_get_memory_extents arr).2.
Proof.
  intros Hsp Hv Hx.
  destruct (extents_cover arr idx Hsp Hv ltac:(lia)) as [Hlo Hhi]. lia.
Qed.

Lemma memory_extents_cover_witness :
  (_get_memory_extents SimpleCopy.a_reversed).1 <= 1003
  < (_get_memory_extents SimpleCopy.a_reversed).2.
Proof.
  apply (memory_extents_cover SimpleCopy.a_reversed [2] 1003);
    [reflexivity | reflexivity |
     vm_compute; split; [discriminate | reflexivity]].
Defined.

(** X15.  The overlap test misses no overlap: if an element of one array
    and an element of another share a byte, [_arrays_overlap] reports that
    the arrays overlap. *)
Theorem arrays_overlap_sound (a b : PyArrayObject) (ia ib : list Z) (x : Z) :
  in_address_space a = true -> in_address_space b = true ->
  valid_index ia (take (Z.to_nat (PyArray_NDIM a)) (dimensions a)) = true ->
  valid_index ib (take (Z.to_nat (PyArray_NDIM b)) (dimensions b)) = true ->
  element_address a ia <= x < element_address a ia + elsize (descr a) ->
  element_address b ib <= x < element_address b ib + elsize (descr b) ->
  _arrays_overlap a b = true.
Proof.
  intros Ha Hb Hia Hib Hxa Hxb.
  destruct (extents_cover a ia Ha Hia ltac:(lia)) as [Hlo1 Hhi1].
  destruct (extents_cover b ib Hb Hib ltac:(lia)) as [Hlo2 Hhi2].
  apply arrays_overlap_extents. lia.
Qed.

Lemma arrays_overlap_sound_witness :
  _arrays_overlap SimpleCopy.a_reversed SimpleCopy.a_arr = true.
Proof.
  apply (arrays_overlap_sound SimpleCopy.a_reversed SimpleCopy.a_arr
           [0] [2] 1016);
    try reflexivity;
    vm_compute; (split; [discriminate | reflexivity]).
Defined.

End Extents.

(** ** Properties of the constructor: sub-array descriptors, borrowed data *)

Module ConstructorProperties.

Import Strides Alloc.

Lemma to_uintp_to_intp z : to_uintp (to_intp z) = to_uintp z.
Proof.
  unfold to_uintp, to_intp.
  rewrite Zminus_mod_idemp_l. f_equal. lia.
Qed.

Lemma to_intp_mul_l a b : to_intp (to_intp a * b) = to_intp (a * b).
Proof.
  apply to_intp_congr.
  rewrite <- to_uintp_mul_l, to_uintp_to_intp, to_uintp_mul_l. reflexivity.
Qed.

Lemma list_prod_rev l : list_prod (rev l) = list_prod l.
Proof.
  induction l as [|x l IH]; [reflexivity|].
  cbn [rev]. rewrite list_prod_app, IH, list_prod_singleton, list_prod_cons. lia.
Qed.

Lemma fmap_rev (f : Z -> Z) l : f <$> rev l = rev (f <$> l).
Proof.
  induction l as [|x l IH]; [reflexivity|].
  cbn [rev]. rewrite fmap_app, IH. reflexivity.
Qed.

(** The strides appended for a sub-array, in closed form. *)
Lemma substrides_spec l : forall t,
  NPY_MIN_INTP <= t <= NPY_MAX_INTP ->
  length (substrides l t) = length l /\
  forall i : nat, (i < length l)%nat ->
    substrides l t !! i
    = Some (to_intp (t * list_prod (dim_or_1 <$> take (length l - 1 - i) l))).
Proof.
  induction l as [|d rest IH]; intros t Ht; cbn [substrides length].
  - split; [reflexivity | intros i Hi; lia].
  - destruct (IH (to_intp (t * dim_or_1 d)) (to_intp_range _)) as [Hlen Hval].
    split; [rewrite length_app, Hlen; cbn; lia|].
    intros i Hi. destruct (decide (i < length rest)%nat) as [Hlt|Hge].
    + rewrite lookup_app_l by lia. rewrite Hval by exact Hlt. f_equal.
      replace (S (length rest) - 1 - i)%nat with (S (length rest - 1 - i)) by lia.
      rewrite firstn_cons, fmap_cons, list_prod_cons.
      rewrite to_intp_mul_l. f_equal. lia.
    + assert (i = length rest) by lia. subst i.
      rewrite lookup_app_r by lia. rewrite Hlen, Nat.sub_diag.
      replace (S (length rest) - 1 - length rest)%nat with 0%nat by lia.
      cbn. rewrite Z.mul_1_r, to_intp_small by exact Ht. reflexivity.
Qed.

(** X16.  [_update_descr_and_dimensions], when the axes of the sub-array
    fit: the descriptor becomes the base of the sub-array, the extents of
    the sub-array are appended to the shape, and, strides being given, the
    strides appended are the C-contiguous ones of the base element: the
    stride of appended axis [i] is the base element size times the later
    sub-array extents, an extent 0 counting as 1. *)
Theorem update_descr_and_dimensions_appends
    (old : PyArray_Descr) (sub : PyArray_ArrayDescr)
    (newdims st : list Z) (oldnd : Z) (w : World) :
  let extents := subshape_extents (sub_shape sub) in
  oldnd + Z.of_nat (length extents) <= MAX_DIMS ->
  NPY_MIN_INTP <= elsize (sub_base sub) <= NPY_MAX_INTP ->
  exists appended w',
    _update_descr_and_dimensions old sub newdims (Some st) oldnd w
    = (sub_base sub, newdims ++ extents, Some (st ++ appended),
       oldnd + Z.of_nat (length extents), w') /\
    length appended = length extents /\
    forall i : nat, (i < length extents)%nat ->
      appended !! i
      = Some (to_intp
                (elsize (sub_base sub)
                 * foldr Z.mul 1
                     ((fun extent => if extent =? 0 then 1 else extent) <$>
                        drop (S i) extents))).
Proof.
  intros extents Hfit Hel. unfold _update_descr_and_dimensions.
  fold extents. destruct (Z.ltb_spec MAX_DIMS (oldnd + Z.of_nat (length extents)));
    [lia|].
  destruct (substrides_spec (rev extents) (elsize (sub_base sub)) Hel)
    as [Hlen Hval].
  rewrite length_rev in Hlen, Hval.
  eexists _, _. split; [reflexivity|]. split; [exact Hlen|].
  intros i Hi. rewrite Hval by exact Hi. f_equal. f_equal. f_equal.
  rewrite firstn_rev.
  replace (length extents - (length extents - 1 - i))%nat with (S i) by lia.
  rewrite <- (list_prod_rev (dim_or_1 <$> drop (S i) extents)).
  rewrite fmap_rev. reflexivity.
Qed.

Definition descr_2x3 : PyArray_Descr :=
  {| descr_id := 2%nat; type_num := 20; elsize := 48; needs_init := false;
     native_byteorder := true;
     subarray := Some {| sub_base := Simple.long_descr;
                         sub_shape := ShapeTuple [2; 3] |} |}.

Definition sub_2x3 : PyArray_ArrayDescr :=
  {| sub_base := Simple.long_descr; sub_shape := ShapeTuple [2; 3] |}.

(** A sub-array of the shape [(2, 0, 3)] of 8-byte integers, and a
    descriptor of it (of no byte, for the extent 0): the zero extent
    counts as 1 in the strides appended. *)
Definition sub_2x0x3 : PyArray_ArrayDescr :=
  {| sub_base := Simple.long_descr; sub_shape := ShapeTuple [2; 0; 3] |}.

Definition descr_2x0x3 : PyArray_Descr :=
  {| descr_id := 3%nat; type_num := 20; elsize := 0; needs_init := false;
     native_byteorder := true; subarray := Some sub_2x0x3 |}.

Lemma update_descr_and_dimensions_appends_witness :
  exists w',
    _update_descr_and_dimensions descr_2x0x3 sub_2x0x3 [5] (Some [0]) 1
      Simple.world0
    = (Simple.long_descr, [5; 2; 0; 3], Some [0; 24; 24; 8], 4, w').
Proof.
  destruct (update_descr_and_dimensions_appends descr_2x0x3 sub_2x0x3 [5] [0]
              1 Simple.world0)
    as (appended & w' & Heq & Hlen & Hval);
    [unfold MAX_DIMS; cbn; lia
    | unfold NPY_MIN_INTP, NPY_MAX_INTP; cbn; lia |].
  exists w'. rewrite Heq.
  assert (Happ : appended = [24; 24; 8]).
  { apply Strides.list_eq_by_lookup; [exact Hlen|].
    intros i Hi. refine (eq_trans (Hval i Hi) _).
    destruct i as [|[|[|i]]]; [reflexivity .. | simpl in Hi; lia]. }
  rewrite Happ. reflexivity.
Defined.

Section Construct.

Context `{RT : Runtime}.

Lemma NewFromDescr_subarray subtype descr sub nd dims strides data flags obj w :
  subarray descr = Some sub ->
  PyArray_NewFromDescr subtype descr nd dims strides data flags obj w
  = let newdims := take (Z.to_nat nd) dims in
    let newstrides :=
      match strides with
      | Some st => Some (take (Z.to_nat nd) st)
      | None => None
      end in
    let '(des, newdims, newstrides, nd, w) :=
      _update_descr_and_dimensions descr sub newdims newstrides nd w in
    PyArray_NewFromDescr subtype (sub_base sub) nd newdims newstrides data
      flags obj w.
Proof.
  intros Hsub. destruct descr as [id tn es ni nb sa]. cbn [subarray] in Hsub.
  subst sa. destruct sub as [base shape]. reflexivity.
Qed.


(** X19.  Construction with a sub-array descriptor: the array that
    [PyArray_NewFromDescr] returns for a shape [dims] and a descriptor whose
    sub-array has the extents [extents] has the shape [dims ++ extents],
    the base of the sub-array as its descriptor (or its replacement when
    the element size was 0), and strides contiguous over the whole shape in
    the order asked for.  This for the base array type, neither strides nor
    memory being passed in, and a sub-array whose base has no sub-array of
    its own. *)
Theorem new_from_descr_subarray_shape
    (descr : PyArray_Descr) (sub : PyArray_ArrayDescr) (nd : Z) (dims : list Z)
    (flags : Z) (obj : option nat) (w : World) (arr : PyArrayObject)
    (w' : World) :
  subarray descr = Some sub ->
  subarray (sub_base sub) = None ->
  nd = Z.of_nat (length dims) ->
  PyArray_NewFromDescr PyArray_Type descr nd dims None None flags obj w
    = (Some arr, w') ->
  let shape := dims ++ subshape_extents (sub_shape sub) in
  PyArray_NDIM arr = Z.of_nat (length shape) /\
  dimensions arr = shape /\
  (exists w1, Objects.descr arr = (replace_empty_elsize (sub_base sub) w1).1) /\
  length (strides arr) = length shape /\
  (forall i : nat, (i < length shape)%nat ->
     strides arr !! i =
       Some (to_intp (elsize (Objects.descr arr) *
               list_prod (dim_or_1 <$>
                 (if negb (flags =? 0) then take i shape
                  else drop (S i) shape))))).
Proof using Type.
  intros Hsub Hbase Hnd Hnew shape.
  rewrite (NewFromDescr_subarray _ _ _ _ _ _ _ _ _ _ Hsub) in Hnew.
  cbv zeta in Hnew. unfold _update_descr_and_dimensions in Hnew.
  rewrite Hnd, Nat2Z.id, firstn_all in Hnew.
  destruct (Z.ltb_spec MAX_DIMS
              (Z.of_nat (length dims)
               + Z.of_nat (length (subshape_extents (sub_shape sub)))))
    as [Hdeep|Hfit].
  - rewrite (NewFromDescr_plain _ _ _ _ _ _ _ _ _ Hbase) in Hnew.
    unfold new_from_descr_plain in Hnew.
    destruct (Z.ltb_spec (Z.of_nat (length dims)
               + Z.of_nat (length (subshape_extents (sub_shape sub)))) 0);
      [lia|].
    destruct (Z.ltb_spec MAX_DIMS
                (Z.of_nat (length dims)
                 + Z.of_nat (length (subshape_extents (sub_shape sub)))));
      [discriminate Hnew | lia].
  - apply NewFromDescr_fresh in Hnew;
      [| exact Hbase | rewrite length_app; lia].
    destruct Hnew as (H1 & H2 & H3 & _ & H5 & H6 & _).
    subst shape. rewrite length_app.
    split; [rewrite H1; lia|]. split; [exact H2|].
    split; [eexists; exact H3|].
    split; [rewrite H5, length_app; reflexivity|].
    intros i Hi. apply H6. rewrite length_app. exact Hi.
Qed.

Lemma CHKFLAGS_pow2 f k : 0 <= k -> CHKFLAGS f (2 ^ k) = Z.testbit f k.
Proof.
  intros Hk. unfold CHKFLAGS. destruct (Z.testbit f k) eqn:E.
  - apply Z.eqb_eq. apply Z.bits_inj'. intros n Hn.
    rewrite Z.land_spec, Z.pow2_bits_eqb by exact Hk.
    destruct (Z.eqb_spec k n) as [<-|]; [rewrite E; reflexivity|].
    apply andb_false_r.
  - apply Z.eqb_neq. intros H.
    assert (Hb : Z.testbit (Z.land f (2 ^ k)) k = Z.testbit (2 ^ k) k)
      by (rewrite H; reflexivity).
    rewrite Z.land_spec, E, Z.pow2_bits_true in Hb by exact Hk.
    discriminate Hb.
Qed.

(** [_array_fill_strides] changes no flag other than the two contiguity
    flags. *)
Lemma fill_strides_other_flags strides dims nd itemsize inflag objflags n :
  2 <= n ->
  Z.testbit (_array_fill_strides strides dims nd itemsize inflag objflags).1.2 n
  = Z.testbit objflags n.
Proof.
  intros Hn. unfold _array_fill_strides.
  assert (H1 : Z.testbit CONTIGUOUS n = false).
  { change CONTIGUOUS with (2 ^ 0). apply Z.pow2_bits_false. lia. }
  assert (H2 : Z.testbit FORTRAN n = false).
  { change FORTRAN with (2 ^ 1). apply Z.pow2_bits_false. lia. }
  destruct (negb (Z.land inflag FORTRAN =? 0) && (Z.land inflag CONTIGUOUS =? 0)).
  - destruct (fortran_loop dims (Z.to_nat nd) 0 (strides, to_uintp itemsize)).
    cbn [fst snd]. destruct (1 <? nd);
      rewrite ?Z.land_spec, ?Z.lor_spec, ?Z.lnot_spec, ?H1, ?H2 by lia;
      cbn; rewrite ?orb_false_r, ?andb_true_r; reflexivity.
  - destruct (c_loop dims (Z.to_nat nd) (strides, to_uintp itemsize)).
    cbn [fst snd]. destruct (1 <? nd);
      rewrite ?Z.land_spec, ?Z.lor_spec, ?Z.lnot_spec, ?H1, ?H2 by lia;
      cbn; rewrite ?orb_false_r, ?andb_true_r; reflexivity.
Qed.

(** The subtypes whose arrays the constructor returns as built: the base
    type, and a subtype on whose instances [__array_finalize__] is missing
    or [None].  For any other subtype the flags are recomputed and the array
    is handed to the finalizer before it is returned. *)
Definition returned_as_built (subtype : PyTypeObject) : bool :=
  match subtype with
  | PyArray_Type
  | PySubtype Finalize_NULL
  | PySubtype Finalize_None => true
  | PySubtype (Finalize_Capsule _)
  | PySubtype (Finalize_Callable _) => false
  end.

Definition borrows (arr : PyArrayObject) (p flags : Z) : Prop :=
  data arr = p /\
  CHKFLAGS (Objects.flags arr) OWNDATA = false /\
  CHKFLAGS (Objects.flags arr) UPDATEIFCOPY = false /\
  CHKFLAGS (Objects.flags arr) WRITEABLE = CHKFLAGS flags WRITEABLE /\
  CHKFLAGS (Objects.flags arr) ALIGNED = CHKFLAGS flags ALIGNED.

Lemma plain_borrowed_data subtype descr nd dims strides p flags obj w arr w' :
  returned_as_built subtype = true ->
  new_from_descr_plain subtype descr nd dims strides (Some p) flags obj w
    = (Some arr, w') ->
  borrows arr p flags.
Proof using Type.
  intros Hsubtype Hnew.
  unfold new_from_descr_plain, fail_descr in Hnew.
  destruct (nd <? 0); [discriminate Hnew|].
  destruct (MAX_DIMS <? nd); [discriminate Hnew|].
  destruct ((to_uintp (elsize descr) =? 0)
            && negb (PyDataType_ISSTRING descr)); [discriminate Hnew|].
  destruct (replace_empty_elsize descr w) as [d1 w1].
  destruct (check_dims (take (Z.to_nat nd) dims) 1
              (initial_largest (to_uintp (elsize d1))))
    as [size largest| |]; [|discriminate Hnew..].
  unfold build_array in Hnew.
  destruct (tp_alloc w1) as [[id|] w2]; [|discriminate Hnew].
  set (sflags := Z.land flags (Z.lnot UPDATEIFCOPY)) in Hnew.
  assert (Hbits : exists F,
            Objects.flags arr = Z.land F (Z.lnot OWNDATA) /\ data arr = p /\
            forall n, 2 <= n -> Z.testbit F n = Z.testbit sflags n).
  { destruct subtype as [|[| |cfunc|call]]; try discriminate Hsubtype.
    all: destruct (0 <? nd);
      [ destruct (PyDimMem_NEW (2 * nd) w2) as [[|] w3]; [|discriminate Hnew];
        destruct strides as [given|];
        [ inversion Hnew; subst arr w'; cbn [Objects.flags data]; eauto
        | pose proof (fill_strides_other_flags (replicate (Z.to_nat nd) 0)
                        dims nd (to_uintp (elsize d1)) flags sflags) as Hfl;
          destruct (_array_fill_strides (replicate (Z.to_nat nd) 0) dims nd
                      (to_uintp (elsize d1)) flags sflags)
            as [[st sflags'] sd'];
          cbn [fst snd] in Hfl;
          inversion Hnew; subst arr w'; cbn [Objects.flags data]; eauto ]
      | inversion Hnew; subst arr w'; cbn [Objects.flags data]; eauto ]. }
  destruct Hbits as (F & HF0 & Hp & HF). unfold borrows. rewrite HF0.
  split; [exact Hp|].
  change OWNDATA with (2 ^ 2). change UPDATEIFCOPY with (2 ^ 12).
  change WRITEABLE with (2 ^ 10). change ALIGNED with (2 ^ 8).
  rewrite !CHKFLAGS_pow2 by lia.
  rewrite !Z.land_spec, !Z.lnot_spec, !HF by lia. subst sflags.
  rewrite !Z.land_spec, !Z.lnot_spec by lia.
  change UPDATEIFCOPY with (2 ^ 12).
  rewrite !Z.pow2_bits_eqb by lia. cbn.
  rewrite ?andb_false_r, ?andb_true_r. auto.
Qed.

(** The sub-array levels of the descriptor are expanded one by one, the
    memory and the flags of the caller being passed on unchanged. *)
Lemma NewFromDescr_borrowed_data subtype p flags obj :
  returned_as_built subtype = true ->
  forall descr nd dims strides w arr w',
    PyArray_NewFromDescr subtype descr nd dims strides (Some p) flags obj w
      = (Some arr, w') ->
    borrows arr p flags.
Proof using Type.
  intros Hsubtype.
  fix IH 1. intros descr nd dims strides w arr w' Hnew.
  destruct descr as [id tn es ni nb [[base shape]|]].
  - cbn [PyArray_NewFromDescr subarray] in Hnew.
    destruct (_update_descr_and_dimensions _ _ _ _ _ _)
      as [[[[des newdims] newstrides] nd1] w1] in Hnew.
    exact (IH base _ _ _ _ _ _ Hnew).
  - rewrite NewFromDescr_plain in Hnew by reflexivity.
    exact (plain_borrowed_data _ _ _ _ _ _ _ _ _ _ _ Hsubtype Hnew).
Qed.

(** X18.  An array built on memory passed by the caller does not own it.
    For the base array type, or a subtype without [__array_finalize__]
    (missing or [None]), and whatever the descriptor (with or without
    sub-array), the shape, the strides and the flags asked for, the array
    that [PyArray_NewFromDescr] returns points at the memory given, has
    neither [OWNDATA] nor [UPDATEIFCOPY] set, and is writeable and aligned
    exactly when the caller's flags say so. *)
Theorem new_from_descr_borrowed_data
    (subtype : PyTypeObject) (descr : PyArray_Descr) (nd : Z) (dims : list Z)
    (strides : option (list Z)) (p : Z) (flags : Z) (obj : option nat)
    (w : World) (arr : PyArrayObject) (w' : World) :
  subtype = PyArray_Type \/ subtype = PySubtype Finalize_NULL
    \/ subtype = PySubtype Finalize_None ->
  PyArray_NewFromDescr subtype descr nd dims strides (Some p) flags obj w
    = (Some arr, w') ->
  data arr = p /\
  CHKFLAGS (Objects.flags arr) OWNDATA = false /\
  CHKFLAGS (Objects.flags arr) UPDATEIFCOPY = false /\
  CHKFLAGS (Objects.flags arr) WRITEABLE = CHKFLAGS flags WRITEABLE /\
  CHKFLAGS (Objects.flags arr) ALIGNED = CHKFLAGS flags ALIGNED.
Proof using Type.
  intros Hsubtype Hnew.
  apply (NewFromDescr_borrowed_data subtype p flags obj) in Hnew;
    [exact Hnew|].
  destruct Hsubtype as [->|[->| ->]]; reflexivity.
Qed.

End Construct.


Lemma new_from_descr_subarray_shape_witness :
  let r := PyArray_NewFromDescr (RT := Simple.simple_runtime) PyArray_Type
             descr_2x3 1 [5] None None 0 None Simple.world0 in
  match r.1 with
  | Some arr => dimensions arr = [5; 2; 3] /\ strides arr = [48; 24; 8]
  | None => False
  end.
Proof.
  destruct (PyArray_NewFromDescr (RT := Simple.simple_runtime) PyArray_Type
              descr_2x3 1 [5] None None 0 None Simple.world0)
    as [[arr|] w'] eqn:Hnew; [|vm_compute in Hnew; discriminate Hnew].
  destruct (new_from_descr_subarray_shape (RT := Simple.simple_runtime)
              descr_2x3 sub_2x3 1 [5] 0 None Simple.world0 arr w'
              eq_refl eq_refl eq_refl Hnew) as (_ & Hdims & _).
  split; [exact Hdims|].
  vm_compute in Hnew. inversion Hnew. reflexivity.
Defined.

(** On the memory at 1000: an array of three integers for the base type,
    and one of the shape [(5, 2, 3)] from a sub-array descriptor for a
    subtype without finalizer, writeable as the flags ask. *)
Lemma new_from_descr_borrowed_data_witness :
  (let r := PyArray_NewFromDescr (RT := Simple.simple_runtime) PyArray_Type
              Simple.long_descr 1 [3] None (Some 1000) DEFAULT None
              Simple.world0 in
   match r.1 with
   | Some arr =>
       data arr = 1000 /\ CHKFLAGS (Objects.flags arr) OWNDATA = false /\
       CHKFLAGS (Objects.flags arr) WRITEABLE = true
   | None => False
   end) /\
  (let r := PyArray_NewFromDescr (RT := Simple.simple_runtime)
              (PySubtype Finalize_None) descr_2x3 1 [5] None (Some 1000)
              ALIGNED None Simple.world0 in
   match r.1 with
   | Some arr =>
       dimensions arr = [5; 2; 3] /\
       data arr = 1000 /\ CHKFLAGS (Objects.flags arr) OWNDATA = false /\
       CHKFLAGS (Objects.flags arr) WRITEABLE = false /\
       CHKFLAGS (Objects.flags arr) ALIGNED = true
   | None => False
   end).
Proof.
  split.
  - destruct (PyArray_NewFromDescr (RT := Simple.simple_runtime) PyArray_Type
                Simple.long_descr 1 [3] None (Some 1000) DEFAULT None
                Simple.world0)
      as [[arr|] w'] eqn:Hnew; [|vm_compute in Hnew; discriminate Hnew].
    destruct (new_from_descr_borrowed_data (RT := Simple.simple_runtime)
                PyArray_Type Simple.long_descr 1 [3] None 1000 DEFAULT None
                Simple.world0 arr w' (or_introl eq_refl) Hnew)
      as (Hp & Hown & _ & Hwr & _).
    cbn [fst]. split; [exact Hp|]. split; [exact Hown|].
    rewrite Hwr. reflexivity.
  - destruct (PyArray_NewFromDescr (RT := Simple.simple_runtime)
                (PySubtype Finalize_None) descr_2x3 1 [5] None (Some 1000)
                ALIGNED None Simple.world0)
      as [[arr|] w'] eqn:Hnew; [|vm_compute in Hnew; discriminate Hnew].
    destruct (new_from_descr_borrowed_data (RT := Simple.simple_runtime)
                (PySubtype Finalize_None) descr_2x3 1 [5] None 1000 ALIGNED
                None Simple.world0 arr w' (or_intror (or_intror eq_refl)) Hnew)
      as (Hp & Hown & _ & Hwr & Hal).
    cbn [fst]. split; [vm_compute in Hnew; inversion Hnew; reflexivity|].
    split; [exact Hp|]. split; [exact Hown|].
    rewrite Hwr, Hal. split; reflexivity.
Defined.

(** A finalizer is handed the array before it is returned, and what it
    leaves in the flags is what the caller gets: here one that marks the
    memory as owned. *)
Definition owning_finalizer : FinalizeAttr :=
  Finalize_Capsule
    (fun self _ w =>
       (0,
        {| ob_id := ob_id self; data := data self; nd := nd self;
           dimensions := dimensions self; strides := strides self;
           base := base self; descr := Objects.descr self;
           flags := Z.lor (Objects.flags self) OWNDATA |},
        w)).

Example finalizer_changes_flags :
  let r := PyArray_NewFromDescr (RT := Simple.simple_runtime)
             (PySubtype owning_finalizer) Simple.long_descr 1 [3] None
             (Some 1000) DEFAULT None Simple.world0 in
  match r.1 with
  | Some arr =>
      data arr = 1000 /\ CHKFLAGS (Objects.flags arr) OWNDATA = true
  | None => False
  end.
Proof. vm_compute. split; reflexivity. Qed.

End ConstructorProperties.

(** ** Depth and shape of nested lists ([object_depth_and_dimension]) *)

Module NestedList.

(** The objects [object_depth_and_dimension] distinguishes: a list, a tuple
    (each with its items), and any other object. *)
Inductive PyObject : Type :=
| PyList (items : list PyObject)
| PyTuple (items : list PyObject)
| PyOther.

Section Depth.

(** [PyArray_CompareLists(l1, l2, n)], defined elsewhere. *)
Variable PyArray_CompareLists : list Z -> list Z -> Z -> bool.

Section Loop.

Variable rec : PyObject -> Z * list Z.
Variable newdims : list Z.
Variable nd : Z.

(** The loop [for (i = 1; i < size; i++)] over the items after the first,
    [rec] being the recursive call on an item; gives the final [nd], which
    is 0 after the [break]. *)
Fixpoint compare_items (rest : list PyObject) : Z :=
  match rest with
  | [] => nd
  | obj :: rest' =>
      let '(test_nd, test_dims) := rec obj in
      if negb (nd =? test_nd)
         || negb (PyArray_CompareLists newdims test_dims nd)
      then 0
      else compare_items rest'
  end.

End Loop.

(** [object_depth_and_dimension(s, max, dims)]: the result, and the extents
    written to [dims[0]], ..., [dims[result - 1]]. *)
Fixpoint object_depth_and_dimension (s : PyObject) (max : Z) {struct s}
    : Z * list Z :=
  match s with
  | PyOther => (0, [])
  | PyList items | PyTuple items =>
      match items with
      | [] => (0, [])
      | obj :: rest =>
          let size := Z.of_nat (length items) in
          if max <? 1 then (0, [])
          else if max <? 2 then (1, [size])
          else
            let '(nd, newdims) := object_depth_and_dimension obj (max - 1) in
            let nd :=
              compare_items
                (fun o => object_depth_and_dimension o (max - 1))
                newdims nd rest in
            (nd + 1, size :: take (Z.to_nat nd) newdims)
      end
  end.

(** The items of a list or tuple. *)
Definition sequence_items (s : PyObject) : option (list PyObject) :=
  match s with
  | PyList items | PyTuple items => Some items
  | PyOther => None
  end.

(** [s] is a nest of lists or tuples of the shape [shape], whose innermost
    items are other objects or empty. *)
Fixpoint regular (shape : list Z) (s : PyObject) : bool :=
  match shape with
  | [] =>
      match sequence_items s with
      | Some (_ :: _) => false
      | _ => true
      end
  | n :: shape' =>
      match sequence_items s with
      | Some items =>
          (Z.of_nat (length items) =? n) && negb (n =? 0)
          && forallb (regular shape') items
      | None => false
      end
  end.

Lemma depth_of_items s obj rest max :
  sequence_items s = Some (obj :: rest) ->
  object_depth_and_dimension s max =
    let size := Z.of_nat (length (obj :: rest)) in
    if max <? 1 then (0, [])
    else if max <? 2 then (1, [size])
    else
      let '(nd, newdims) := object_depth_and_dimension obj (max - 1) in
      let nd :=
        compare_items
          (fun o => object_depth_and_dimension o (max - 1))
          newdims nd rest in
      (nd + 1, size :: take (Z.to_nat nd) newdims).
Proof. destruct s; intros H; inversion H; reflexivity. Qed.

Lemma depth_of_leaf s max :
  match sequence_items s with Some (_ :: _) => False | _ => True end ->
  object_depth_and_dimension s max = (0, []).
Proof. destruct s as [[|]|[|]|]; intros H; try reflexivity; destruct H. Qed.

Lemma compare_items_cases rec newdims nd rest :
  compare_items rec newdims nd rest = nd \/
  compare_items rec newdims nd rest = 0.
Proof.
  induction rest as [|obj rest IH]; cbn [compare_items]; [left; reflexivity|].
  destruct (rec obj) as [test_nd test_dims].
  destruct (negb (nd =? test_nd)
            || negb (PyArray_CompareLists newdims test_dims nd));
    [right; reflexivity | exact IH].
Qed.

Lemma depth_bounds (n : nat) : forall s max,
  (Z.to_nat max <= n)%nat ->
  let r := object_depth_and_dimension s max in
  0 <= r.1 <= Z.max 0 max /\
  Z.of_nat (length r.2) = r.1 /\
  Forall (fun d => 1 <= d) r.2 /\
  (0 < r.1 -> exists items,
     sequence_items s = Some items /\
     r.2 !! 0%nat = Some (Z.of_nat (length items))).
Proof.
  induction n as [|n IH]; intros s max Hn r; subst r.
  - destruct (sequence_items s) as [[|obj rest]|] eqn:Hs.
    + rewrite depth_of_leaf by (rewrite Hs; exact I).
      cbn. repeat split; try lia. constructor.
    + rewrite (depth_of_items _ _ _ _ Hs). cbv zeta.
      destruct (Z.ltb_spec max 1); [|lia].
      cbn. repeat split; try lia. constructor.
    + rewrite depth_of_leaf by (rewrite Hs; exact I).
      cbn. repeat split; try lia. constructor.
  - destruct (sequence_items s) as [[|obj rest]|] eqn:Hs.
    + rewrite depth_of_leaf by (rewrite Hs; exact I).
      cbn. repeat split; try lia. constructor.
    + rewrite (depth_of_items _ _ _ _ Hs). cbv zeta.
      destruct (Z.ltb_spec max 1).
      { cbn. repeat split; try lia. constructor. }
      destruct (Z.ltb_spec max 2).
      { cbn [fst snd length]. repeat split; try lia.
        - constructor; [lia | constructor].
        - intros _. eexists. split; reflexivity. }
      destruct (IH obj (max - 1) ltac:(lia)) as (Hr & Hlen & Hall & _).
      destruct (object_depth_and_dimension obj (max - 1)) as [nd newdims].
      cbn [fst snd] in Hr, Hlen, Hall.
      pose proof (compare_items_cases
                    (fun o => object_depth_and_dimension o (max - 1))
                    newdims nd rest) as Hc.
      set (nd' := compare_items _ newdims nd rest) in *.
      assert (Hnd' : 0 <= nd' <= nd) by (destruct Hc; lia).
      cbn [fst snd length].
      split; [lia|].
      split; [rewrite length_take; lia|].
      split.
      { constructor; [lia|]. apply Forall_take. exact Hall. }
      intros _. eexists. split; reflexivity.
    + rewrite depth_of_leaf by (rewrite Hs; exact I).
      cbn. repeat split; try lia. constructor.
Qed.

(** X20.  [object_depth_and_dimension] returns a depth between 0 and
    [max], writes exactly that many extents, each of them at least 1, and,
    when the depth is not 0, the first extent is the number of items of the
    list or tuple given. *)
Theorem object_depth_and_dimension_bounds (s : PyObject) (max : Z) :
  let r := object_depth_and_dimension s max in
  0 <= r.1 <= Z.max 0 max /\
  Z.of_nat (length r.2) = r.1 /\
  Forall (fun d => 1 <= d) r.2 /\
  (0 < r.1 -> exists items,
     sequence_items s = Some items /\
     r.2 !! 0%nat = Some (Z.of_nat (length items))).
Proof using Type. exact (depth_bounds (Z.to_nat max) s max (Nat.le_refl _)). Qed.

Lemma compare_items_differ rec newdims nd rest o :
  In o rest -> (rec o).1 <> nd ->
  compare_items rec newdims nd rest = 0.
Proof.
  induction rest as [|obj rest IH]; intros Hin Hne; [destruct Hin|].
  cbn [compare_items]. destruct (rec obj) as [test_nd test_dims] eqn:Hobj.
  destruct (Z.eqb_spec nd test_nd) as [Heq|]; [|reflexivity].
  cbn [negb orb].
  destruct (negb (PyArray_CompareLists newdims test_dims nd)); [reflexivity|].
  destruct Hin as [->|Hin]; [|exact (IH Hin Hne)].
  rewrite Hobj in Hne. cbn [fst] in Hne. congruence.
Qed.

(** X22.  A nest that is ragged in depth is cut at the first level: when
    some item of a list or tuple has a depth other than that of the first
    item, [object_depth_and_dimension] (with [max] at least 2) returns 1
    and writes the number of items only. *)
Theorem object_depth_and_dimension_ragged
    (s obj o : PyObject) (rest : list PyObject) (max : Z) :
  sequence_items s = Some (obj :: rest) -> In o rest -> 2 <= max ->
  (object_depth_and_dimension o (max - 1)).1
    <> (object_depth_and_dimension obj (max - 1)).1 ->
  object_depth_and_dimension s max = (1, [Z.of_nat (length (obj :: rest))]).
Proof using Type.
  intros Hs Hin Hmax Hne. rewrite (depth_of_items _ _ _ _ Hs). cbv zeta.
  destruct (Z.ltb_spec max 1); [lia|]. destruct (Z.ltb_spec max 2); [lia|].
  destruct (object_depth_and_dimension obj (max - 1)) as [nd newdims].
  cbn [fst] in Hne.
  rewrite (compare_items_differ _ newdims nd rest o Hin Hne). reflexivity.
Qed.

Hypothesis CompareLists_same : forall l n, PyArray_CompareLists l l n = true.

Lemma compare_items_same rec newdims nd rest :
  Forall (fun o => rec o = (nd, newdims)) rest ->
  compare_items rec newdims nd rest = nd.
Proof using CompareLists_same.
  induction 1 as [|obj rest Hobj _ IH]; cbn [compare_items]; [reflexivity|].
  rewrite Hobj, Z.eqb_refl, CompareLists_same. exact IH.
Qed.

Lemma depth_regular shape : forall s max,
  regular shape s = true -> 0 <= max ->
  object_depth_and_dimension s max
  = (Z.of_nat (length (take (Z.to_nat max) shape)), take (Z.to_nat max) shape).
Proof using CompareLists_same.
  induction shape as [|n shape IH]; intros s max Hreg Hmax.
  - cbn [regular] in Hreg. rewrite take_nil.
    apply depth_of_leaf. destruct (sequence_items s) as [[|]|]; try exact I.
    discriminate Hreg.
  - cbn [regular] in Hreg.
    destruct (sequence_items s) as [items|] eqn:Hs; [|discriminate Hreg].
    apply andb_prop in Hreg as [Hn Hitems]. apply andb_prop in Hn as [Hn Hnz].
    apply Z.eqb_eq in Hn. apply negb_true_iff, Z.eqb_neq in Hnz.
    destruct items as [|obj rest]; [cbn in Hn; lia|].
    rewrite (depth_of_items _ _ _ _ Hs). cbv zeta. rewrite Hn.
    destruct (Z.ltb_spec max 1).
    { replace (Z.to_nat max) with 0%nat by lia. reflexivity. }
    destruct (Z.ltb_spec max 2).
    { replace (Z.to_nat max) with 1%nat by lia. cbn. reflexivity. }
    cbn [forallb] in Hitems. apply andb_prop in Hitems as [Hobj Hrest].
    rewrite (IH obj (max - 1) Hobj) by lia.
    rewrite compare_items_same.
    + replace (Z.to_nat max) with (S (Z.to_nat (max - 1))) by lia.
      cbn [take length]. rewrite Nat2Z.id, firstn_all. f_equal. lia.
    + rewrite forallb_forall in Hrest. apply Forall_forall.
      intros o Ho. apply IH; [apply Hrest, list_elem_of_In, Ho | lia].
Qed.

(** X21.  On a nest of lists or tuples of a regular shape,
    [object_depth_and_dimension] recovers the shape: with [max] at least
    the depth of the nest it returns that depth and writes the extents of
    the shape (and in general the first [max] of them), provided the list
    comparison accepts equal lists. *)
Theorem object_depth_and_dimension_regular
    (shape : list Z) (s : PyObject) (max : Z) :
  regular shape s = true -> Z.of_nat (length shape) <= max ->
  object_depth_and_dimension s max = (Z.of_nat (length shape), shape).
Proof using CompareLists_same.
  intros Hreg Hmax. rewrite (depth_regular shape s max Hreg) by lia.
  rewrite firstn_all2 by lia. reflexivity.
Qed.

End Depth.

(** A comparison of the first [n] entries of two lists. *)
Definition compare_first (l1 l2 : list Z) (n : Z) : bool :=
  bool_decide (take (Z.to_nat n) l1 = take (Z.to_nat n) l2).

Lemma object_depth_and_dimension_regular_witness :
  object_depth_and_dimension compare_first
    (PyList [PyTuple [PyOther; PyOther; PyOther];
             PyTuple [PyOther; PyOther; PyOther]]) 32
  = (2, [2; 3]).
Proof.
  apply (object_depth_and_dimension_regular compare_first
           (fun l n => bool_decide_eq_true_2 _ eq_refl) [2; 3]);
    [reflexivity | cbn; lia].
Defined.

Lemma object_depth_and_dimension_ragged_witness :
  object_depth_and_dimension compare_first
    (PyList [PyList [PyOther; PyOther]; PyOther]) 32
  = (1, [2]).
Proof.
  apply (object_depth_and_dimension_ragged compare_first
           (PyList [PyList [PyOther; PyOther]; PyOther])
           (PyList [PyOther; PyOther]) PyOther [PyOther] 32);
    [reflexivity | left; reflexivity | lia | discriminate].
Defined.

Example depth_ragged_extent :
  object_depth_and_dimension compare_first
    (PyList [PyList [PyOther; PyOther]; PyList [PyOther]]) 32
  = (1, [2]).
Proof. reflexivity. Qed.

End NestedList.

(** ** Layout of a PEP 3118 buffer ([_array_from_buffer_3118]) *)

Module Buffer3118.

Import Strides.

(** The fields of [Py_buffer] the routine reads; [view_shape] and
    [view_strides] are [None] when the pointers are NULL. *)
Record Py_buffer : Type := Build_Py_buffer {
  buf : Z;
  len : Z;
  view_itemsize : Z;
  readonly : bool;
  ndim : Z;
  view_shape : option (list Z);
  view_strides : option (list Z)
}.

(** Modelled from the spec: the limit [NPY_MAXDIMS] of the array header,
    equal to [MAX_DIMS], and [BEHAVED], the two flags of a well-behaved
    array. *)
Definition NPY_MAXDIMS : Z := 32.
Definition BEHAVED : Z := Z.lor ALIGNED WRITEABLE.

(** Outcome of the layout block: the values passed on to the constructor,
    the jump to [fail], or a division by zero. *)
Inductive Layout : Type :=
| Layout_ok (nd : Z) (shape strides : list Z) (flags : Z)
| Layout_fail
| Layout_undefined.

(** [d = view->len; for (k = 0; k < nd; ++k) { d /= view->shape[k];
    strides[k] = d; }] on the extents still to visit; [None] is a division
    by zero. *)
Fixpoint default_strides (shape : list Z) (d : Z) : option (list Z) :=
  match shape with
  | [] => Some []
  | s :: shape' =>
      if s =? 0 then None
      else
        let d := Z.quot d s in
        match default_strides shape' d with
        | Some l => Some (d :: l)
        | None => None
        end
  end.

(** The block of [_array_from_buffer_3118] from [if (view->shape != NULL)]
    to the computation of [flags]: the number of dimensions, the shape, the
    strides and the flags handed to [PyArray_NewFromDescr]. *)
Definition buffer_layout (view : Py_buffer) : Layout :=
  let flags :=
    Z.land BEHAVED (if readonly view then Z.lnot WRITEABLE else Z.lnot 0) in
  match view_shape view with
  | Some vshape =>
      let nd := ndim view in
      if (NPY_MAXDIMS <=? nd) || (nd <? 0) then Layout_fail
      else
        let shape := take (Z.to_nat nd) vshape in
        match view_strides view with
        | Some vstrides =>
            Layout_ok nd shape (take (Z.to_nat nd) vstrides) flags
        | None =>
            match default_strides shape (len view) with
            | Some strides => Layout_ok nd shape strides flags
            | None => Layout_undefined
            end
        end
  | None =>
      if view_itemsize view =? 0 then Layout_undefined
      else
        Layout_ok 1 [Z.quot (len view) (view_itemsize view)]
          [view_itemsize view] flags
  end.

Lemma default_strides_contiguous shape : forall itemsize,
  Forall (fun s => 0 < s) shape ->
  exists strides,
    default_strides shape (itemsize * list_prod shape) = Some strides /\
    length strides = length shape /\
    forall k : nat, (k < length shape)%nat ->
      strides !! k = Some (itemsize * list_prod (drop (S k) shape)).
Proof.
  induction shape as [|s shape IH]; intros itemsize Hpos.
  - exists []. repeat split. intros k Hk. cbn in Hk. lia.
  - inversion Hpos as [|? ? Hs Hrest]; subst.
    destruct (IH itemsize Hrest) as (strides & Hd & Hlen & Hval).
    cbn [default_strides]. destruct (Z.eqb_spec s 0); [lia|].
    rewrite list_prod_cons.
    replace (itemsize * (s * list_prod shape))
      with (itemsize * list_prod shape * s) by lia.
    rewrite Z.quot_mul by lia. rewrite Hd.
    eexists. split; [reflexivity|]. split; [cbn; lia|].
    intros [|k] Hk; [reflexivity|]. cbn. apply Hval. cbn in Hk. lia.
Qed.

(** X23.  A buffer that gives a shape of positive extents and no strides
    is laid out in C order: when its length is the item size times the
    number of items, the strides computed for it are, axis by axis, the
    item size times the extents of the later axes. *)
Theorem buffer_layout_default_strides (view : Py_buffer) (shape : list Z) :
  view_shape view = Some shape -> view_strides view = None ->
  ndim view = Z.of_nat (length shape) -> ndim view < NPY_MAXDIMS ->
  Forall (fun s => 0 < s) shape ->
  len view = view_itemsize view * list_prod shape ->
  exists strides flags,
    buffer_layout view = Layout_ok (ndim view) shape strides flags /\
    length strides = length shape /\
    forall k : nat, (k < length shape)%nat ->
      strides !! k
      = Some (view_itemsize view * list_prod (drop (S k) shape)).
Proof.
  intros Hshape Hstrides Hnd Hmax Hpos Hlen. unfold buffer_layout.
  rewrite Hshape, Hstrides.
  destruct (Z.leb_spec NPY_MAXDIMS (ndim view)); [lia|].
  destruct (Z.ltb_spec (ndim view) 0); [lia|]. cbn [orb].
  rewrite Hnd, Nat2Z.id, firstn_all, Hlen.
  destruct (default_strides_contiguous shape (view_itemsize view) Hpos)
    as (strides & Hd & Hl & Hval).
  rewrite Hd. eauto.
Qed.

Lemma buffer_layout_default_strides_witness :
  exists strides flags,
    buffer_layout {| buf := 1000; len := 48; view_itemsize := 8;
                     readonly := true; ndim := 2;
                     view_shape := Some [2; 3]; view_strides := None |}
    = Layout_ok 2 [2; 3] strides flags /\
    length strides = 2%nat /\
    forall k : nat, (k < 2)%nat ->
      strides !! k = Some (8 * list_prod (drop (S k) [2; 3])).
Proof.
  apply (buffer_layout_default_strides
           {| buf := 1000; len := 48; view_itemsize := 8;
              readonly := true; ndim := 2;
              view_shape := Some [2; 3]; view_strides := None |} [2; 3]);
    try reflexivity.
  repeat constructor.
Defined.

End Buffer3118.

(** ** Validation of an axis argument ([PyArray_CheckAxis]) *)

From Stdlib Require DecimalString.

Module Axis.

Import Alloc.

(** The message of [PyErr_Format(PyExc_ValueError, "axis(=%d) out of
    bounds", axis)]. *)
Definition axis_message (axis : Z) : string :=
  ("axis(=" ++ DecimalString.NilZero.string_of_int (Z.to_int axis)
   ++ ") out of bounds")%string.

Section CheckAxis.

Context `{RT : Runtime}.

(** [PyArray_Ravel(arr, order)] and
    [PyArray_CheckFromAny(op, NULL, 0, 0, flags, NULL)], defined
    elsewhere. *)
Variable PyArray_Ravel :
  PyArrayObject -> Z -> World -> option PyArrayObject * World.
Variable PyArray_CheckFromAny :
  PyArrayObject -> Z -> World -> option PyArrayObject * World.

(** The routine from [if (flags)] on, [temp1] and [*axis] being set: the
    array returned, the final [*axis], and the state. *)
Definition check_axis_tail (temp1 : PyArrayObject) (axis flags : Z) (w : World)
    : option PyArrayObject * Z * World :=
  let converted :=
    if negb (flags =? 0) then
      let '(temp2, w) := PyArray_CheckFromAny temp1 flags w in
      (temp2, Py_DECREF_array temp1 w)
    else (Some temp1, w) in
  match converted with
  | (None, w) => (None, axis, w)
  | (Some temp2, w) =>
      let n := PyArray_NDIM temp2 in
      let axis := if axis <? 0 then axis + n else axis in
      if (axis <? 0) || (n <=? axis) then
        (None, axis,
         Py_DECREF_array temp2
           (PyErr_SetString PyExc_ValueError (axis_message axis) w))
      else (Some temp2, axis, w)
  end.

(** [if (!flags && *axis == 0) return temp1;] and what follows. *)
Definition check_axis_flat (temp1 : PyArrayObject) (axis flags : Z) (w : World)
    : option PyArrayObject * Z * World :=
  if (flags =? 0) && (axis =? 0) then (Some temp1, axis, w)
  else check_axis_tail temp1 axis flags w.

(** [PyArray_CheckAxis(arr, &axis, flags)] *)
Definition PyArray_CheckAxis (arr : PyArrayObject) (axis flags : Z) (w : World)
    : option PyArrayObject * Z * World :=
  let n := nd arr in
  if (axis =? MAX_DIMS) || (n =? 0) then
    if negb (n =? 1) then
      match PyArray_Ravel arr 0 w with
      | (None, w) => (None, 0, w)
      | (Some temp1, w) =>
          check_axis_flat temp1
            (if axis =? MAX_DIMS then PyArray_NDIM temp1 - 1 else axis)
            flags w
      end
    else check_axis_flat arr 0 flags (Py_INCREF (ob_id arr) w)
  else check_axis_tail arr axis flags (Py_INCREF (ob_id arr) w).

Lemma check_axis_tail_in_range temp1 axis flags w r axis' w' :
  check_axis_tail temp1 axis flags w = (Some r, axis', w') ->
  0 <= axis' < PyArray_NDIM r.
Proof using Type.
  unfold check_axis_tail. intros Ht.
  destruct (if negb (flags =? 0)
            then let '(temp2, w0) := PyArray_CheckFromAny temp1 flags w in
                 (temp2, Py_DECREF_array temp1 w0)
            else (Some temp1, w)) as [[temp2|] w1]; [|discriminate Ht].
  cbv zeta in Ht.
  destruct (Z.ltb_spec (if axis <? 0 then axis + PyArray_NDIM temp2 else axis) 0);
    [discriminate Ht|].
  destruct (Z.leb_spec (PyArray_NDIM temp2)
              (if axis <? 0 then axis + PyArray_NDIM temp2 else axis));
    [discriminate Ht|].
  inversion Ht; subst. lia.
Qed.

(** X24.  The axis that [PyArray_CheckAxis] hands back is an axis of the
    array it returns: whenever an array is returned, the final [*axis] is
    at least 0 and below the number of dimensions of that array, provided
    [PyArray_Ravel] returns arrays of one dimension. *)
Theorem check_axis_in_range
    (arr : PyArrayObject) (axis flags : Z) (w : World)
    (r : PyArrayObject) (axis' : Z) (w' : World) :
  (forall a o w0 t w1,
     PyArray_Ravel a o w0 = (Some t, w1) -> PyArray_NDIM t = 1) ->
  PyArray_CheckAxis arr axis flags w = (Some r, axis', w') ->
  0 <= axis' < PyArray_NDIM r.
Proof using Type.
  intros Hravel Hc. unfold PyArray_CheckAxis, check_axis_flat in Hc.
  destruct ((axis =? MAX_DIMS) || (nd arr =? 0));
    [|exact (check_axis_tail_in_range _ _ _ _ _ _ _ Hc)].
  destruct (Z.eqb_spec (nd arr) 1) as [Hn1|Hn1]; cbn [negb] in Hc.
  - destruct ((flags =? 0) && (0 =? 0));
      [|exact (check_axis_tail_in_range _ _ _ _ _ _ _ Hc)].
    inversion Hc; subst. unfold PyArray_NDIM. lia.
  - destruct (PyArray_Ravel arr 0 w) as [[temp1|] w0] eqn:Hr;
      [|discriminate Hc].
    pose proof (Hravel _ _ _ _ _ Hr) as H1.
    destruct ((flags =? 0)
              && ((if axis =? MAX_DIMS then PyArray_NDIM temp1 - 1 else axis)
                  =? 0)) eqn:Hearly;
      [|exact (check_axis_tail_in_range _ _ _ _ _ _ _ Hc)].
    inversion Hc; subst. apply andb_prop in Hearly as [_ Ha].
    apply Z.eqb_eq in Ha. lia.
Qed.

End CheckAxis.

(** A ravel that gives the flat view of a contiguous array. *)
Definition flat_view (arr : PyArrayObject) (order : Z) (w : World)
    : option PyArrayObject * World :=
  (Some {| ob_id := next_obj w; data := data arr; nd := 1;
           dimensions := [PyArray_SIZE arr];
           strides := [PyArray_ITEMSIZE arr]; base := Some (ob_id arr);
           descr := descr arr; flags := flags arr |},
   (Simple.new_object (Py_INCREF (ob_id arr) w)).2).

Lemma check_axis_in_range_witness :
  let r := PyArray_CheckAxis (RT := Simple.simple_runtime) flat_view
             (fun a _ w => (Some a, w)) SimpleCopy.a_arr (-1) 0
             SimpleCopy.world_a in
  r.1.1 = Some SimpleCopy.a_arr /\ 0 <= r.1.2 < 1.
Proof.
  split; [reflexivity|].
  apply (check_axis_in_range (RT := Simple.simple_runtime) flat_view
           (fun a _ w => (Some a, w)) SimpleCopy.a_arr (-1) 0
           SimpleCopy.world_a SimpleCopy.a_arr _ _
           ltac:(intros a o w0 t w1 H; inversion H; reflexivity) eq_refl).
Defined.

End Axis.

(** ** Assignment from a nested sequence ([setArrayFromSequence],
    [Assign_Array]) *)

Module Assign.

(** The objects assigned from: a sequence with its items (an array of the
    base class included), an instance of an array subclass, which
    [PyArray_EnsureArray] turns into a base-class array of the same items,
    and an object without length.  The references taken on the sequence and
    on each item are released again by the routine and are not tracked. *)
Inductive PyObject : Type :=
| PySeq (items : list PyObject)
| PyArraySubclass (items : list PyObject)
| PyAtom (v : Z).

Definition sequence_items (s : PyObject) : option (list PyObject) :=
  match s with
  | PySeq items | PyArraySubclass items => Some items
  | PyAtom _ => None
  end.

Definition dimensions_mismatch : string :=
  "setArrayFromSequence: sequence/array dimensions mismatch.".

Definition shape_mismatch : string :=
  "setArrayFromSequence: sequence/array shape mismatch.".

Section Routines.

(** [a->descr->f->setitem(o, ptr, a)] *)
Variable setitem : PyObject -> Z -> PyArrayObject -> World -> Z * World.

Section Items.

(** The call made on an item at an offset, and [a->strides[dim]]. *)
Variable body : PyObject -> Z -> World -> Z * World.
Variable stride : Z.

(** The loop [for (i = 0; i < slen; i++)] over the items still to visit. *)
Fixpoint items_loop (items : list PyObject) (offset : Z) (w : World)
    : Z * World :=
  match items with
  | [] => (0, w)
  | o :: rest =>
      let '(res, w) := body o offset w in
      if res <? 0 then (res, w)
      else items_loop rest (to_intp (offset + stride)) w
  end.

End Items.

(** [setArrayFromSequence(a, s, dim, offset)].  For [dim] equal to [a->nd]
    the extent read is past the extents of the array and is read as 0. *)
Fixpoint setArrayFromSequence (a : PyArrayObject) (s : PyObject)
    (dim offset : Z) (w : World) {struct s} : Z * World :=
  if nd a <? dim then
    (-1, PyErr_SetString PyExc_ValueError dimensions_mismatch w)
  else
    match s with
    | PyAtom _ =>
        (* PySequence_Length fails and gives -1 *)
        let w := PyErr_SetString PyExc_TypeError "" w in
        if negb (-1 =? PyArray_DIM a (Z.to_nat dim)) then
          (-1, PyErr_SetString PyExc_ValueError shape_mismatch w)
        else (0, w)
    | PySeq items | PyArraySubclass items =>
        if negb (Z.of_nat (length items) =? PyArray_DIM a (Z.to_nat dim)) then
          (-1, PyErr_SetString PyExc_ValueError shape_mismatch w)
        else
          items_loop
            (fun o offset w =>
               if 1 <? nd a - dim
               then setArrayFromSequence a o (dim + 1) offset w
               else setitem o (data a + offset) a w)
            (PyArray_STRIDE a (Z.to_nat dim)) items offset w
    end.

(** [Assign_Array(self, v)] *)
Definition Assign_Array (self : PyArrayObject) (v : PyObject) (w : World)
    : Z * World :=
  match sequence_items v with
  | None =>
      (-1, PyErr_SetString PyExc_ValueError "assignment from non-sequence" w)
  | Some _ =>
      if nd self =? 0 then
        (-1, PyErr_SetString PyExc_ValueError "assignment to 0-d array" w)
      else setArrayFromSequence self v 0 0 w
  end.

(** *** The assignment as a flat sequence of stores *)

(** [s] is a nest of sequences of the shape [shape]. *)
Fixpoint shaped (shape : list Z) (s : PyObject) : bool :=
  match shape with
  | [] => true
  | n :: shape' =>
      match sequence_items s with
      | Some items =>
          (Z.of_nat (length items) =? n) && forallb (shaped shape') items
      | None => false
      end
  end.

(** The objects at depth [depth] of [s], in order. *)
Fixpoint leaves (depth : nat) (s : PyObject) : list PyObject :=
  match depth with
  | O => [s]
  | S depth' =>
      match sequence_items s with
      | Some items => flat_map (leaves depth') items
      | None => []
      end
  end.

(** The stores of the objects [l] at their offsets, one after the other,
    up to the first that fails. *)
Fixpoint store_all (a : PyArrayObject) (l : list (PyObject * Z)) (w : World)
    : Z * World :=
  match l with
  | [] => (0, w)
  | (o, offset) :: rest =>
      let '(res, w) := setitem o (data a + offset) a w in
      if res <? 0 then (res, w) else store_all a rest w
  end.

(** The bytes the offsets of a layout may reach: the sum over the axes of
    extent times the size of the stride. *)
Fixpoint reach (dims strides : list Z) : Z :=
  match dims, strides with
  | d :: dims', s :: strides' => d * Z.abs s + reach dims' strides'
  | _, _ => 0
  end.

(** A result code as the loops read it: negative, or success. *)
Definition settled (r : Z * World) : Z * World :=
  (if r.1 <? 0 then r.1 else 0, r.2).

Lemma store_all_app a l1 : forall l2 w,
  store_all a (l1 ++ l2) w =
    let '(res, w1) := store_all a l1 w in
    if res <? 0 then (res, w1) else store_all a l2 w1.
Proof.
  induction l1 as [|[o off] l1 IH]; intros l2 w; cbn [store_all app].
  - reflexivity.
  - destruct (setitem o (data a + off) a w) as [res w1].
    destruct (Z.ltb_spec res 0) as [Hneg|Hpos].
    + destruct (Z.ltb_spec res 0); [reflexivity | lia].
    + apply IH.
Qed.

Lemma store_all_settled a l w : settled (store_all a l w) = store_all a l w.
Proof.
  revert w. induction l as [|[o off] l IH]; intros w; cbn [store_all].
  - reflexivity.
  - destruct (setitem o (data a + off) a w) as [res w1].
    destruct (Z.ltb_spec res 0) as [Hneg|Hpos]; [|apply IH].
    unfold settled. cbn [fst snd]. destruct (Z.ltb_spec res 0); [reflexivity|lia].
Qed.

Lemma reach_nonneg dims : forall sts,
  Forall (fun d => 0 <= d) dims -> 0 <= reach dims sts.
Proof.
  induction dims as [|d dims IH]; intros [|s sts] Hd; cbn [reach]; try lia.
  inversion Hd; subst. specialize (IH sts ltac:(assumption)). nia.
Qed.

Lemma flat_map_length_const {A B : Type} (f : A -> list B) (l : list A) (n : nat) :
  (forall x, In x l -> length (f x) = n) ->
  length (flat_map f l) = (length l * n)%nat.
Proof.
  induction l as [|x l IH]; intros H; [reflexivity|].
  cbn [flat_map length]. rewrite length_app, (H x (or_introl eq_refl)), IH.
  - lia.
  - intros y Hy. apply H. right. exact Hy.
Qed.

Lemma leaves_length shape : forall sts s,
  length sts = length shape -> shaped shape s = true ->
  length (leaves (length shape) s) = length (SimpleCopy.offsets shape sts).
Proof.
  induction shape as [|n shape IH]; intros [|st sts] s Hlen Hs;
    try discriminate Hlen; [reflexivity|].
  cbn [shaped length leaves SimpleCopy.offsets] in *.
  destruct (sequence_items s) as [items|]; [|discriminate Hs].
  apply andb_prop in Hs as [Hn Hitems]. apply Z.eqb_eq in Hn.
  rewrite forallb_forall in Hitems.
  rewrite (flat_map_length_const _ _ (length (SimpleCopy.offsets shape sts))).
  - rewrite (flat_map_length_const _ _ (length (SimpleCopy.offsets shape sts))).
    + rewrite length_seq. f_equal. lia.
    + intros i _. apply length_map.
  - intros o Ho. apply IH; [lia | apply Hitems, Ho].
Qed.

Section ItemsSpec.

Variables (a : PyArrayObject) (body : PyObject -> Z -> World -> Z * World)
          (stride : Z) (k : nat) (X : list Z) (off0 : Z).

Lemma items_loop_spec items : forall (j : nat) w,
  (forall o (i : nat) w', In o items ->
     (j <= i < j + length items)%nat ->
     settled (body o (off0 + Z.of_nat i * stride) w')
     = store_all a (zip (leaves k o)
                        (map (Z.add (off0 + Z.of_nat i * stride)) X)) w') ->
  (forall o, In o items -> length (leaves k o) = length X) ->
  (forall i : nat, (i <= j + length items)%nat ->
     NPY_MIN_INTP <= off0 + Z.of_nat i * stride <= NPY_MAX_INTP) ->
  items_loop body stride items (off0 + Z.of_nat j * stride) w
  = store_all a
      (zip (flat_map (leaves k) items)
           (map (Z.add off0)
              (flat_map (fun i => map (Z.add (Z.of_nat i * stride)) X)
                 (seq j (length items))))) w.
Proof.
  induction items as [|o rest IH]; intros j w Hbody Hlen Hfit;
    cbn [items_loop flat_map length seq]; [reflexivity|].
  rewrite map_app, zip_with_app
    by (rewrite !length_map; apply Hlen; left; reflexivity).
  rewrite store_all_app.
  rewrite map_map.
  rewrite (map_ext (fun x => off0 + (Z.of_nat j * stride + x))
             (Z.add (off0 + Z.of_nat j * stride))) by (intros; lia).
  rewrite <- (Hbody o j w (or_introl eq_refl)) by (cbn [length]; lia).
  destruct (body o (off0 + Z.of_nat j * stride) w) as [res w1].
  unfold settled. cbn [fst snd].
  destruct (Z.ltb_spec res 0) as [Hneg|Hpos].
  - destruct (Z.ltb_spec res 0); [reflexivity | lia].
  - cbn [Z.ltb Z.compare].
    rewrite to_intp_small.
    + replace (off0 + Z.of_nat j * stride + stride)
        with (off0 + Z.of_nat (S j) * stride) by lia.
      apply IH.
      * intros o' i w' Ho' Hi. apply Hbody; [right; exact Ho'|].
        cbn [length]. lia.
      * intros o' Ho'. apply Hlen. right. exact Ho'.
      * intros i Hi. apply Hfit. cbn [length]. lia.
    + specialize (Hfit (S j) ltac:(cbn [length]; lia)). lia.
Qed.

End ItemsSpec.

Lemma set_from_items a s items dim offset w :
  sequence_items s = Some items -> dim <= nd a ->
  setArrayFromSequence a s dim offset w =
    if negb (Z.of_nat (length items) =? PyArray_DIM a (Z.to_nat dim)) then
      (-1, PyErr_SetString PyExc_ValueError shape_mismatch w)
    else
      items_loop
        (fun o offset w =>
           if 1 <? nd a - dim
           then setArrayFromSequence a o (dim + 1) offset w
           else setitem o (data a + offset) a w)
        (PyArray_STRIDE a (Z.to_nat dim)) items offset w.
Proof.
  intros Hs Hdim.
  destruct s; inversion Hs; subst; cbn [setArrayFromSequence];
    (destruct (Z.ltb_spec (nd a) dim); [lia | reflexivity]).
Qed.

Lemma drop_head {A : Type} `{Inhabited A} (l : list A) (n : nat) x rest :
  drop n l = x :: rest -> l !!! n = x /\ drop (S n) l = rest.
Proof.
  revert n. induction l as [|y l IH]; intros n Hd.
  - rewrite drop_nil in Hd. discriminate Hd.
  - destruct n as [|n].
    + cbn in Hd. inversion Hd; subst. split; reflexivity.
    + cbn in Hd. apply IH in Hd. exact Hd.
Qed.

Section Spec.

Variable a : PyArrayObject.
Hypothesis nd_dims : nd a = Z.of_nat (length (dimensions a)).
Hypothesis strides_dims : length (strides a) = length (dimensions a).
Hypothesis dims_nonneg : Forall (fun d => 0 <= d) (dimensions a).

Lemma set_spec rem : forall (dim : nat) s off w,
  drop dim (dimensions a) = rem -> rem <> [] -> shaped rem s = true ->
  Z.abs off + reach rem (drop dim (strides a)) <= NPY_MAX_INTP ->
  setArrayFromSequence a s (Z.of_nat dim) off w
  = store_all a
      (zip (leaves (length rem) s)
           (map (Z.add off)
              (SimpleCopy.offsets rem (drop dim (strides a))))) w.
Proof using nd_dims strides_dims dims_nonneg.
  induction rem as [|d rem' IH]; intros dim s off w Hdrop Hne Hs Hfit;
    [contradiction|].
  assert (Hdimlt : (dim < length (dimensions a))%nat).
  { destruct (decide (dim < length (dimensions a))%nat) as [|Hge]; [assumption|].
    rewrite drop_ge in Hdrop by lia. discriminate Hdrop. }
  destruct (drop dim (strides a)) as [|st sts'] eqn:Hst.
  { apply (f_equal length) in Hst. rewrite length_drop in Hst.
    cbn in Hst. lia. }
  destruct (drop_head _ _ _ _ Hdrop) as [Hd Hrem'].
  destruct (drop_head _ _ _ _ Hst) as [Hs0 Hsts'].
  assert (Hlen' : length sts' = length rem').
  { rewrite <- Hsts', <- Hrem', !length_drop. lia. }
  assert (Hnn : Forall (fun d => 0 <= d) rem').
  { rewrite <- Hrem'. apply Forall_drop. exact dims_nonneg. }
  pose proof (reach_nonneg rem' sts' Hnn) as Hreach.
  cbn [shaped] in Hs.
  destruct (sequence_items s) as [items|] eqn:Hitems; [|discriminate Hs].
  apply andb_prop in Hs as [Hn Hall]. apply Z.eqb_eq in Hn.
  rewrite forallb_forall in Hall.
  cbn [reach] in Hfit.
  rewrite (set_from_items a s items _ off w Hitems) by lia.
  unfold PyArray_DIM, PyArray_STRIDE. rewrite Nat2Z.id, Hd, Hs0.
  destruct (Z.eqb_spec (Z.of_nat (length items)) d) as [_|]; [|lia].
  cbn [negb length leaves SimpleCopy.offsets]. rewrite Hitems.
  replace (Z.to_nat d) with (length items) by lia.
  replace off with (off + Z.of_nat 0 * st) at 1 by lia.
  apply (items_loop_spec a _ st (length rem') (SimpleCopy.offsets rem' sts') off).
  - intros o i w' Ho Hi.
    assert (Hoff : Z.abs (off + Z.of_nat i * st) + reach rem' sts'
                   <= NPY_MAX_INTP) by nia.
    destruct rem' as [|d' rem''].
    + rewrite nd_dims.
      assert (Hl : length (dimensions a) = S dim).
      { apply (f_equal length) in Hrem'. rewrite length_drop in Hrem'.
        cbn in Hrem'. lia. }
      rewrite Hl. destruct (Z.ltb_spec 1 (Z.of_nat (S dim) - Z.of_nat dim)); [lia|].
      cbn [leaves SimpleCopy.offsets map zip_with store_all length].
      rewrite Z.add_0_r. unfold settled.
      destruct (setitem o (data a + (off + Z.of_nat i * st)) a w') as [res w1].
      cbn [fst snd]. destruct (res <? 0); reflexivity.
    + assert (Hl : (S dim < length (dimensions a))%nat).
      { apply (f_equal length) in Hrem'. rewrite length_drop in Hrem'.
        cbn in Hrem'. lia. }
      rewrite nd_dims.
      destruct (Z.ltb_spec 1 (Z.of_nat (length (dimensions a)) - Z.of_nat dim));
        [|lia].
      replace (Z.of_nat dim + 1) with (Z.of_nat (S dim)) by lia.
      rewrite (IH (S dim) o _ w' Hrem' ltac:(discriminate)
                 (Hall o Ho)) by (rewrite Hsts'; exact Hoff).
      rewrite Hsts'. apply store_all_settled.
  - intros o Ho. apply leaves_length; [exact Hlen' | apply Hall, Ho].
  - intros i Hi. unfold NPY_MIN_INTP, NPY_MAX_INTP in *. nia.
Qed.

(** X25.  Assignment from a nested sequence of the shape of the array is
    the sequence of [setitem] calls on the innermost items, in C order,
    each at the data pointer plus the strided offset of its index, up to
    the first call that fails: [Assign_Array] returns what that flat
    sequence of stores returns. *)
Theorem assign_array_stores (v : PyObject) (w : World) :
  0 < nd a ->
  shaped (dimensions a) v = true ->
  reach (dimensions a) (strides a) <= NPY_MAX_INTP ->
  Assign_Array a v w
  = store_all a
      (zip (leaves (length (dimensions a)) v)
           (SimpleCopy.offsets (dimensions a) (strides a))) w.
Proof using nd_dims strides_dims dims_nonneg.
  intros Hnd Hs Hfit. unfold Assign_Array.
  assert (Hne : dimensions a <> []).
  { intros E. rewrite E in nd_dims. cbn in nd_dims. lia. }
  assert (Hv : sequence_items v <> None).
  { clear - Hs Hne. destruct (dimensions a) as [|d dims']; [contradiction|].
    cbn [shaped] in Hs. destruct (sequence_items v); [discriminate|].
    discriminate Hs. }
  destruct (sequence_items v) as [items|]; [|contradiction].
  destruct (Z.eqb_spec (nd a) 0); [lia|].
  assert (Hb : Z.abs 0 + reach (dimensions a) (drop 0 (strides a))
               <= NPY_MAX_INTP)
    by (rewrite drop_0; change (Z.abs 0) with 0; lia).
  pose proof (set_spec (dimensions a) 0 v 0 w eq_refl Hne Hs Hb) as Hset.
  change (Z.of_nat 0) with 0 in Hset. rewrite Hset.
  rewrite drop_0. f_equal. f_equal.
  rewrite (map_ext (Z.add 0) id) by (intros; reflexivity). apply map_id.
Qed.

End Spec.

End Routines.

(** Storing the value of an atom as an 8-byte integer; any other object is
    refused. *)
Definition store_atom (o : PyObject) (p : Z) (a : PyArrayObject) (w : World)
    : Z * World :=
  match o with
  | PyAtom v => (0, set_mem (SimpleInterp.store_long p v (mem w)) w)
  | _ => (-1, PyErr_SetString PyExc_TypeError "" w)
  end.

Lemma assign_array_stores_witness :
  let r := Assign_Array store_atom SimpleCopy.a_reversed
             (PySeq [PyAtom 7; PyAtom 8; PyAtom 9]) SimpleCopy.world_a in
  r.1 = 0 /\ SimpleCopy.read_longs (mem r.2) 1000 3 = [9; 8; 7].
Proof.
  cbv zeta.
  rewrite (assign_array_stores store_atom SimpleCopy.a_reversed
             eq_refl eq_refl ltac:(repeat constructor; lia)
             (PySeq [PyAtom 7; PyAtom 8; PyAtom 9]) SimpleCopy.world_a
             ltac:(reflexivity) eq_refl ltac:(vm_compute; discriminate)).
  vm_compute. split; reflexivity.
Defined.

End Assign.

(** ** Construction from an iterator ([PyArray_FromIter]) *)

Module FromIter.

Import Alloc.

(** An iterator: the values [PyIter_Next] gives one after the other, and
    the exception, if any, with which it ends instead of being exhausted.
    The references to the iterator and to each value are released by the
    routine and are not tracked. *)
Record PyIter (V : Type) : Type := Build_PyIter {
  iter_values : list V;
  iter_error : option (PyExc * string)
}.
Arguments iter_values {V} _.
Arguments iter_error {V} _.

Definition set_data (a : PyArrayObject) (p : Z) : PyArrayObject :=
  {| ob_id := ob_id a; data := p; nd := nd a; dimensions := dimensions a;
     strides := strides a; base := base a; descr := descr a; flags := flags a |}.

(** [ret->dimensions[0] = n] *)
Definition set_dim0 (a : PyArrayObject) (n : Z) : PyArrayObject :=
  {| ob_id := ob_id a; data := data a; nd := nd a;
     dimensions := <[0%nat := n]> (dimensions a);
     strides := strides a; base := base a; descr := descr a; flags := flags a |}.

(** [(i >> 1) + (i < 4 ? 4 : 2) + i], an [npy_intp]. *)
Definition grow (i : Z) : Z :=
  to_intp (Z.shiftr i 1 + (if i <? 4 then 4 else 2) + i).

(** How the loop is left: by its condition, with the final [i], or by a
    [goto done]. *)
Inductive LoopExit : Type :=
| Exit_loop (i : Z) (ret : PyArrayObject) (w : World)
| Exit_done (ret : PyArrayObject) (w : World).

Section Routine.

Context `{RT : Runtime}.

Variable V : Type.

(** [PyDataType_REFCHK], [PyDataMem_RENEW(ptr, size)], [index2ptr(mp, i)]
    and [ret->descr->f->setitem(value, item, ret)], defined elsewhere. *)
Variable PyDataType_REFCHK : PyArray_Descr -> bool.
Variable PyDataMem_RENEW : Z -> Z -> World -> option Z * World.
Variable index2ptr : PyArrayObject -> Z -> World -> option Z * World.
Variable setitem : V -> Z -> PyArrayObject -> World -> Z * World.

(** The loop [for (i = 0; (i < count || count == -1) && (value =
    PyIter_Next(iter)); i++)] on the values the iterator still holds. *)
Fixpoint iter_loop (count elsize : Z) (it_err : option (PyExc * string))
    (values : list V) (i elcount : Z) (ret : PyArrayObject) (w : World)
    : LoopExit :=
  if (i <? count) || (count =? -1) then
    match values with
    | [] =>
        Exit_loop i ret
          match it_err with
          | Some (e, msg) => PyErr_SetString e msg w
          | None => w
          end
    | value :: rest =>
        let grown :=
          if elcount <=? i then
            (* Grow ret->data *)
            let elcount := grow i in
            let '(new_data, w) :=
              if elcount <=? Z.quot NPY_MAX_INTP elsize
              then PyDataMem_RENEW (data ret) (elcount * elsize) w
              else (None, w) in
            match new_data with
            | None =>
                inl (PyErr_SetString PyExc_MemoryError
                       "cannot allocate array memory" w)
            | Some p => inr (elcount, set_data ret p, w)
            end
          else inr (elcount, ret, w) in
        match grown with
        | inl w => Exit_done ret w
        | inr (elcount, ret, w) =>
            let ret := set_dim0 ret (i + 1) in
            match index2ptr ret i w with
            | (None, w) => Exit_done ret w
            | (Some item, w) =>
                let '(r, w) := setitem value item ret w in
                if r =? -1 then Exit_done ret w
                else iter_loop count elsize it_err rest (i + 1) elcount ret w
            end
        end
    end
  else Exit_loop i ret w.

(** The exit block [done:]: [dtype] and [ret] are the pointers as they
    stand, [None] for NULL. *)
Definition done (dtype : option PyArray_Descr) (ret : option PyArrayObject)
    (w : World) : option PyArrayObject * World :=
  let w := match dtype with
           | Some d => Py_DECREF (descr_id d) w
           | None => w
           end in
  if PyErr_Occurred w then
    (None, match ret with
           | Some r => Py_DECREF_array r w
           | None => w
           end)
  else (ret, w).

(** [PyArray_FromIter(obj, dtype, count)]; [obj] is given by the iterator
    [PyObject_GetIter] makes of it, [None] when it fails, leaving its
    exception. *)
Definition PyArray_FromIter (obj : option (PyIter V)) (dtype : PyArray_Descr)
    (count : Z) (w : World) : option PyArrayObject * World :=
  match obj with
  | None => done (Some dtype) None (PyErr_SetString PyExc_TypeError "" w)
  | Some it =>
      let elcount := if count <? 0 then 0 else count in
      let elsize := elsize dtype in
      if elsize =? 0 then
        done (Some dtype) None
          (PyErr_SetString PyExc_ValueError
             "Must specify length when using variable-size data-type." w)
      else if PyDataType_REFCHK dtype then
        done (Some dtype) None
          (PyErr_SetString PyExc_ValueError
             "cannot create object arrays from iterator" w)
      else
        match PyArray_NewFromDescr PyArray_Type dtype 1 [elcount] None None 0
                None w with
        | (None, w) => done None None w
        | (Some ret, w) =>
            match iter_loop count elsize (iter_error it) (iter_values it)
                    0 elcount ret w with
            | Exit_done ret w => done None (Some ret) w
            | Exit_loop i ret w =>
                if i <? count then
                  done None (Some ret)
                    (PyErr_SetString PyExc_ValueError "iterator too short" w)
                else
                  (* Realloc the data so that don't keep extra memory *)
                  let i := if i =? 0 then 1 else i in
                  match PyDataMem_RENEW (data ret) (i * elsize) w with
                  | (None, w) =>
                      done None (Some ret)
                        (PyErr_SetString PyExc_MemoryError
                           "cannot allocate array memory" w)
                  | (Some p, w) => done None (Some (set_data ret p)) w
                  end
            end
        end
  end.

(** The number of values the routine takes from an iterator of [n]
    values. *)
Definition consumed (count : Z) (n : nat) : Z :=
  if count =? -1 then Z.of_nat n else if count <? 0 then 0 else count.

Hypothesis index2ptr_succeeds : forall r i w, (index2ptr r i w).1 <> None.
Hypothesis setitem_succeeds : forall v p r w, (setitem v p r w).1 <> -1.

Lemma iter_loop_exit count elsize it_err values : forall i elcount ret w,
  0 <= i -> length (dimensions ret) = 1%nat ->
  match iter_loop count elsize it_err values i elcount ret w with
  | Exit_done _ w' => PyErr_Occurred w' = true
  | Exit_loop i' ret' _ =>
      length (dimensions ret') = 1%nat /\
      ((i' = i /\ dimensions ret' = dimensions ret) \/
       (i < i' /\ dimensions ret' = [i'])) /\
      (i' < count -> i' = i + Z.of_nat (length values)) /\
      (count = -1 -> i' = i + Z.of_nat (length values)) /\
      (count <> -1 -> i' <= Z.max i count) /\
      i' <= i + Z.of_nat (length values)
  end.
Proof using index2ptr_succeeds setitem_succeeds.
  induction values as [|value rest IH]; intros i elcount ret w Hi Hdim;
    cbn [iter_loop].
  - destruct ((i <? count) || (count =? -1)) eqn:Hc.
    + cbn [length]. repeat split; try lia; auto;
        intros Hne; apply orb_prop in Hc as [Hc|Hc]; lia.
    + apply orb_false_elim in Hc as [Hc1 Hc2].
      apply Z.ltb_ge in Hc1. apply Z.eqb_neq in Hc2.
      repeat split; try lia; auto.
  - destruct ((i <? count) || (count =? -1)) eqn:Hc.
    2:{ apply orb_false_elim in Hc as [Hc1 Hc2].
        apply Z.ltb_ge in Hc1. apply Z.eqb_neq in Hc2.
        repeat split; try lia; auto. }
    assert (Hstep : forall elcount0 ret0 w0,
              dimensions ret0 = dimensions ret ->
              match
                (let ret1 := set_dim0 ret0 (i + 1) in
                 match index2ptr ret1 i w0 with
                 | (None, w1) => Exit_done ret1 w1
                 | (Some item, w1) =>
                     let '(r, w2) := setitem value item ret1 w1 in
                     if r =? -1 then Exit_done ret1 w2
                     else iter_loop count elsize it_err rest (i + 1)
                            elcount0 ret1 w2
                 end)
              with
              | Exit_done _ w' => PyErr_Occurred w' = true
              | Exit_loop i' ret' _ =>
                  length (dimensions ret') = 1%nat /\
                  ((i' = i /\ dimensions ret' = dimensions ret) \/
                   (i < i' /\ dimensions ret' = [i'])) /\
                  (i' < count -> i' = i + Z.of_nat (length (value :: rest))) /\
                  (count = -1 -> i' = i + Z.of_nat (length (value :: rest))) /\
                  (count <> -1 -> i' <= Z.max i count) /\
                  i' <= i + Z.of_nat (length (value :: rest))
              end).
    { intros elcount0 ret0 w0 Hd0. cbv zeta.
      pose proof (index2ptr_succeeds (set_dim0 ret0 (i + 1)) i w0) as Hix.
      destruct (index2ptr (set_dim0 ret0 (i + 1)) i w0) as [[item|] w1];
        [|contradiction].
      pose proof (setitem_succeeds value item (set_dim0 ret0 (i + 1)) w1) as Hset.
      destruct (setitem value item (set_dim0 ret0 (i + 1)) w1) as [r w2].
      cbn [fst] in Hset. destruct (Z.eqb_spec r (-1)); [contradiction|].
      assert (Hd1 : dimensions (set_dim0 ret0 (i + 1)) = [i + 1]).
      { cbn [set_dim0 dimensions]. rewrite Hd0.
        destruct (dimensions ret) as [|x [|y l]]; try discriminate Hdim.
        reflexivity. }
      specialize (IH (i + 1) elcount0 (set_dim0 ret0 (i + 1)) w2 ltac:(lia)
                    ltac:(rewrite Hd1; reflexivity)).
      destruct (iter_loop count elsize it_err rest (i + 1) elcount0
                  (set_dim0 ret0 (i + 1)) w2) as [i' ret' w'|ret' w'];
        [|exact IH].
      destruct IH as (Hl & Hcase & Hshort & Hall & Hmax & Hle).
      cbn [length]. split; [exact Hl|].
      split.
      { right. destruct Hcase as [[-> Hd]|[Hlt Hd]].
        - split; [lia|]. rewrite Hd, Hd1. reflexivity.
        - split; [lia | exact Hd]. }
      split; [intros H; specialize (Hshort H); lia|].
      split; [intros H; specialize (Hall H); lia|].
      split; [|lia].
      intros H. specialize (Hmax H).
      apply orb_prop in Hc as [Hc|Hc]; lia. }
    destruct (Z.leb_spec elcount i).
    + destruct (if grow i <=? Z.quot NPY_MAX_INTP elsize
                then PyDataMem_RENEW (data ret) (grow i * elsize) w
                else (None, w)) as [[p|] w0].
      * apply (Hstep (grow i) (set_data ret p) w0). reflexivity.
      * reflexivity.
    + apply (Hstep elcount ret w). reflexivity.
Qed.

(** X26.  An array returned by [PyArray_FromIter] has exactly as many
    elements as values were taken from the iterator: all of them when
    [count] is -1, [count] of them when [count] is not negative (the
    iterator then holding at least [count] values), and none for any other
    negative [count]; this provided [index2ptr] and [setitem] do not
    fail, and for an element type without sub-array. *)
Theorem from_iter_length
    (it : PyIter V) (dtype : PyArray_Descr) (count : Z) (w : World)
    (ret : PyArrayObject) (w' : World) :
  subarray dtype = None ->
  PyArray_FromIter (Some it) dtype count w = (Some ret, w') ->
  dimensions ret = [consumed count (length (iter_values it))] /\
  (0 <= count -> count <= Z.of_nat (length (iter_values it))).
Proof using index2ptr_succeeds setitem_succeeds.
  intros Hsub Hr. unfold PyArray_FromIter in Hr. cbv zeta in Hr.
  assert (Hdone : forall d r0 w0,
            PyErr_Occurred w0 = true -> done d r0 w0 = (Some ret, w') -> False).
  { intros d r0 w0 He Hd. unfold done in Hd.
    assert (He' : PyErr_Occurred
                    match d with
                    | Some d0 => Py_DECREF (descr_id d0) w0
                    | None => w0
                    end = true) by (destruct d; exact He).
    rewrite He' in Hd. discriminate Hd. }
  destruct (elsize dtype =? 0); [exfalso; eapply Hdone; [|exact Hr]; reflexivity|].
  destruct (PyDataType_REFCHK dtype);
    [exfalso; eapply Hdone; [|exact Hr]; reflexivity|].
  destruct (PyArray_NewFromDescr PyArray_Type dtype 1
              [if count <? 0 then 0 else count] None None 0 None w)
    as [[ret0|] w0] eqn:Hnew.
  2:{ unfold done in Hr. destruct (PyErr_Occurred w0); discriminate Hr. }
  apply NewFromDescr_fresh in Hnew; [| exact Hsub | reflexivity].
  destruct Hnew as (_ & Hdims & _).
  pose proof (iter_loop_exit count (elsize dtype) (iter_error it)
                (iter_values it) 0 (if count <? 0 then 0 else count) ret0 w0
                ltac:(lia) ltac:(rewrite Hdims; reflexivity)) as Hloop.
  destruct (iter_loop count (elsize dtype) (iter_error it) (iter_values it) 0
              (if count <? 0 then 0 else count) ret0 w0)
    as [i' ret' w1|ret' w1].
  2:{ exfalso. eapply Hdone; [exact Hloop | exact Hr]. }
  destruct Hloop as (Hl & Hcase & Hshort & Hall & Hmax & Hle).
  destruct (Z.ltb_spec i' count) as [Hlt|Hge];
    [exfalso; eapply Hdone; [|exact Hr]; reflexivity|].
  destruct (PyDataMem_RENEW (data ret') ((if i' =? 0 then 1 else i')
                                          * elsize dtype) w1)
    as [[p|] w2]; [|exfalso; eapply Hdone; [|exact Hr]; reflexivity].
  unfold done in Hr. destruct (PyErr_Occurred w2); [discriminate Hr|].
  inversion Hr; subst ret w'. cbn [set_data dimensions].
  unfold consumed.
  destruct (Z.eqb_spec count (-1)) as [Hc|Hc].
  - specialize (Hall Hc). split; [|lia].
    destruct Hcase as [[Hi Hd]|[Hi Hd]].
    + rewrite Hd, Hdims. subst count. cbn. f_equal; lia.
    + rewrite Hd. f_equal; lia.
  - specialize (Hmax Hc). destruct (Z.ltb_spec count 0) as [Hneg|Hpos].
    + split; [|lia]. destruct Hcase as [[Hi Hd]|[Hi Hd]]; [|lia].
      rewrite Hd, Hdims. destruct (Z.ltb_spec count 0); [reflexivity | lia].
    + split; [|lia]. destruct Hcase as [[Hi Hd]|[Hi Hd]].
      * rewrite Hd, Hdims.
        destruct (Z.ltb_spec count 0); [lia | f_equal; lia].
      * rewrite Hd. f_equal; lia.
Qed.

End Routine.

(** An iterator over integers stored as 8-byte values. *)
Definition store_value (v : Z) (p : Z) (a : PyArrayObject) (w : World)
    : Z * World :=
  (0, set_mem (SimpleInterp.store_long p v (mem w)) w).

Definition simple_index2ptr (a : PyArrayObject) (i : Z) (w : World)
    : option Z * World :=
  (Some (data a + i * PyArray_STRIDE a 0), w).

Definition simple_RENEW (p size : Z) (w : World) : option Z * World :=
  (Some p, w).

(** The capacities the loop goes through when it starts from none. *)
Example grow_sequence :
  map grow [0; 4; 8; 14; 23; 36; 56] = [4; 8; 14; 23; 36; 56; 86].
Proof. reflexivity. Qed.

(** The new capacity holds the element about to be written. *)
Lemma grow_exceeds i : 0 <= i < 2 ^ 62 -> i < grow i.
Proof.
  intros Hi. unfold grow. rewrite Z.shiftr_div_pow2 by lia.
  change (2 ^ 62) with 4611686018427387904 in Hi. change (2 ^ 1) with 2.
  assert (0 <= i / 2) by (apply Z.div_pos; lia).
  assert (2 * (i / 2) <= i) by (apply Z.mul_div_le; lia).
  rewrite to_intp_small by
    (unfold NPY_MIN_INTP, NPY_MAX_INTP; destruct (i <? 4); lia).
  destruct (i <? 4); lia.
Qed.

Lemma from_iter_length_witness :
  let r := PyArray_FromIter (RT := Simple.simple_runtime) Z (fun _ => false)
             simple_RENEW simple_index2ptr store_value
             (Some {| iter_values := [5; 6; 7; 8; 9]; iter_error := None |})
             Simple.long_descr (-1) Simple.world0 in
  match r.1 with
  | Some ret => dimensions ret = [5]
  | None => False
  end.
Proof.
  destruct (PyArray_FromIter (RT := Simple.simple_runtime) Z (fun _ => false)
              simple_RENEW simple_index2ptr store_value
              (Some {| iter_values := [5; 6; 7; 8; 9]; iter_error := None |})
              Simple.long_descr (-1) Simple.world0)
    as [[ret|] w'] eqn:Hr; [|vm_compute in Hr; discriminate Hr].
  exact (proj1 (from_iter_length (RT := Simple.simple_runtime) Z
                  (fun _ => false) simple_RENEW simple_index2ptr store_value
                  ltac:(discriminate) ltac:(discriminate)
                  {| iter_values := [5; 6; 7; 8; 9]; iter_error := None |}
                  Simple.long_descr (-1) Simple.world0 ret w' eq_refl Hr)).
Defined.

End FromIter.

(** ** Copy by flattening ([PyArray_CopyAnyInto]) *)

Module CopyAny.

Import Alloc Move.

(** An iterator over one array in C order without inner iteration: the
    inner stride, and the runs [(dataptr, count)] it goes through;
    [iternext] is [false] when [NpyIter_GetIterNext] gives NULL. *)
Record NpyIter1 : Type := Build_NpyIter1 {
  inner_stride : Z;
  first : Z * Z;
  next : list (Z * Z);
  iternext : bool
}.

Section Routine.

Context `{RT : Runtime} `{TR : Transfer}.

(** [PyArray_CompareLists(l1, l2, n)] and [NpyIter_New] with the flags of
    the destination ([true]) or of the source ([false]), defined
    elsewhere. *)
Variable PyArray_CompareLists : list Z -> list Z -> Z -> bool.
Variable NpyIter_New : PyArrayObject -> bool -> World -> option NpyIter1 * World.

Section Loop.

Variables (stransfer : StridedTransferFn) (dst_stride src_stride : Z)
          (src_itemsize : Z).

(** The loop [for (;;)], on the runs the two iterators still hold and the
    current run of each.  [count] being the smaller of the two counts, the
    tests [dst_count == count] and [src_count == count] are read off the
    comparison of the counts. *)
Fixpoint chunk_loop (dst_next : list (Z * Z)) {struct dst_next}
    : list (Z * Z) -> Z -> Z -> Z -> Z -> World -> World :=
  fix on_src (src_next : list (Z * Z)) (dst_data dst_count src_data src_count : Z)
      (w : World) {struct src_next} : World :=
    (* Transfer the biggest amount that fits both *)
    let count := if src_count <? dst_count then src_count else dst_count in
    let w := stransfer dst_data dst_stride src_data src_stride count
               src_itemsize w in
    if src_count <? dst_count then
      (* the dst block goes on, the src block is exhausted *)
      match src_next with
      | [] => w
      | (src_data', src_count') :: src_next' =>
          on_src src_next' (dst_data + count * dst_stride) (dst_count - count)
            src_data' src_count' w
      end
    else
      (* the dst block is exhausted *)
      match dst_next with
      | [] => w
      | (dst_data', dst_count') :: dst_next' =>
          if src_count =? count then
            match src_next with
            | [] => w
            | (src_data', src_count') :: src_next' =>
                chunk_loop dst_next' src_next' dst_data' dst_count'
                  src_data' src_count' w
            end
          else
            chunk_loop dst_next' src_next dst_data' dst_count'
              (src_data + count * src_stride) (src_count - count) w
      end.

End Loop.

(** [PyArray_CopyAnyInto(dst, src)]; as in [PyArray_CopyInto], releasing
    the interpreter lock around the loop is not modelled. *)
Definition PyArray_CopyAnyInto (dst src : PyArrayObject) (w : World)
    : Z * World :=
  if negb (PyArray_ISWRITEABLE dst) then
    (-1, PyErr_SetString PyExc_RuntimeError "cannot write to array" w)
  else if (PyArray_NDIM dst =? PyArray_NDIM src)
          && PyArray_CompareLists (dimensions dst) (dimensions src)
               (PyArray_NDIM dst)
  then PyArray_CopyInto dst src w
  else if negb (PyArray_SIZE dst =? PyArray_SIZE src) then
    (-1, PyErr_SetString PyExc_ValueError
           "arrays must have the same number of elements for copy" w)
  else if PyArray_SIZE dst =? 0 then (0, w)
  else
    match NpyIter_New dst true w with
    | (None, w) => (-1, w)
    | (Some dst_iter, w) =>
        match NpyIter_New src false w with
        | (None, w) => (-1, w)
        | (Some src_iter, w) =>
            if negb (iternext dst_iter) || negb (iternext src_iter)
            then (-1, w)
            else
              match PyArray_GetDTypeTransferFunction
                      (PyArray_ISALIGNED src && PyArray_ISALIGNED dst)
                      (inner_stride src_iter) (inner_stride dst_iter)
                      (descr src) (descr dst) w with
              | (None, w) => (-1, w)
              | (Some stransfer, w) =>
                  result_code
                    (chunk_loop stransfer (inner_stride dst_iter)
                       (inner_stride src_iter) (elsize (descr src))
                       (next dst_iter) (next src_iter)
                       (first dst_iter).1 (first dst_iter).2
                       (first src_iter).1 (first src_iter).2 w)
              end
        end
    end.

(** *** The flattening pairs the elements in order *)

(** The addresses of the elements of a run, and of a list of runs. *)
Definition run_elems (stride : Z) (r : Z * Z) : list Z :=
  map (fun j => r.1 + Z.of_nat j * stride) (seq 0 (Z.to_nat r.2)).

Definition runs_elems (stride : Z) (runs : list (Z * Z)) : list Z :=
  flat_map (run_elems stride) runs.

Lemma run_elems_length stride r :
  length (run_elems stride r) = Z.to_nat r.2.
Proof. unfold run_elems. rewrite length_map, length_seq. reflexivity. Qed.

Lemma map_seq_shift {A : Type} (m : nat) : forall (f : nat -> A) (n : nat),
  map f (seq n m) = map (fun j => f (n + j)%nat) (seq 0 m).
Proof.
  induction m as [|m IH]; intros f n; cbn [seq map]; [reflexivity|].
  f_equal; [f_equal; lia|].
  rewrite (IH f (S n)), (IH (fun j => f (n + j)%nat) 1%nat).
  apply map_ext. intros j. f_equal. lia.
Qed.

Lemma run_elems_split stride d a b :
  0 <= a -> 0 <= b ->
  run_elems stride (d, a + b)
  = run_elems stride (d, a) ++ run_elems stride (d + a * stride, b).
Proof.
  intros Ha Hb. unfold run_elems. cbn [fst snd].
  rewrite Z2Nat.inj_add, seq_app, map_app by lia. f_equal.
  rewrite map_seq_shift. apply map_ext. intros j.
  rewrite Nat2Z.inj_add, Nat2Z.inj_add, Z2Nat.id by lia. cbn. lia.
Qed.

Lemma run_elems_1 stride d : run_elems stride (d, 1) = [d].
Proof.
  unfold run_elems. change (Z.to_nat (d, 1).2) with 1%nat.
  cbn [seq map fst]. f_equal. lia.
Qed.

Section Pairs.

Variables (stransfer : StridedTransferFn) (dst_stride src_stride : Z)
          (src_itemsize : Z).

(** The transfer of one element. *)
Definition single (w : World) (p : Z * Z) : World :=
  stransfer p.1 dst_stride p.2 src_stride 1 src_itemsize w.

(** The transfer function handles a run element by element. *)
Hypothesis transfer_none : forall d s w,
  stransfer d dst_stride s src_stride 0 src_itemsize w = w.
Hypothesis transfer_step : forall d s n w, 0 <= n ->
  stransfer d dst_stride s src_stride (1 + n) src_itemsize w
  = stransfer (d + dst_stride) dst_stride (s + src_stride) src_stride n
      src_itemsize (stransfer d dst_stride s src_stride 1 src_itemsize w).

Lemma transfer_elems (k : nat) : forall d s w,
  stransfer d dst_stride s src_stride (Z.of_nat k) src_itemsize w
  = foldl single w (zip (run_elems dst_stride (d, Z.of_nat k))
                        (run_elems src_stride (s, Z.of_nat k))).
Proof using transfer_none transfer_step.
  induction k as [|k IH]; intros d s w.
  - cbn. apply transfer_none.
  - replace (Z.of_nat (S k)) with (1 + Z.of_nat k) by lia.
    rewrite transfer_step by lia.
    rewrite !(run_elems_split _ _ 1 (Z.of_nat k)) by lia.
    rewrite zip_with_app by (rewrite !run_elems_length; reflexivity).
    rewrite foldl_app, IH. rewrite !Z.mul_1_l, !run_elems_1. reflexivity.
Qed.

Lemma chunk_loop_unfold dst_next src_next dst_data dst_count src_data
    src_count w :
  chunk_loop stransfer dst_stride src_stride src_itemsize dst_next src_next
    dst_data dst_count src_data src_count w
  = let count := if src_count <? dst_count then src_count else dst_count in
    let w := stransfer dst_data dst_stride src_data src_stride count
               src_itemsize w in
    if src_count <? dst_count then
      match src_next with
      | [] => w
      | (src_data', src_count') :: src_next' =>
          chunk_loop stransfer dst_stride src_stride src_itemsize dst_next
            src_next' (dst_data + count * dst_stride) (dst_count - count)
            src_data' src_count' w
      end
    else
      match dst_next with
      | [] => w
      | (dst_data', dst_count') :: dst_next' =>
          if src_count =? count then
            match src_next with
            | [] => w
            | (src_data', src_count') :: src_next' =>
                chunk_loop stransfer dst_stride src_stride src_itemsize
                  dst_next' src_next' dst_data' dst_count'
                  src_data' src_count' w
            end
          else
            chunk_loop stransfer dst_stride src_stride src_itemsize
              dst_next' src_next dst_data' dst_count'
              (src_data + count * src_stride) (src_count - count) w
      end.
Proof. destruct dst_next, src_next; reflexivity. Qed.

Lemma zip_short_l {A B : Type} (l1 : list A) (k1 k2 : list B) :
  length l1 = length k1 -> zip l1 (k1 ++ k2) = zip l1 k1.
Proof.
  intros H. rewrite <- (app_nil_r l1) at 1.
  rewrite zip_with_app by exact H. cbn. apply app_nil_r.
Qed.

Lemma zip_short_r {A B : Type} (l1 l2 : list A) (k1 : list B) :
  length l1 = length k1 -> zip (l1 ++ l2) k1 = zip l1 k1.
Proof.
  intros H. rewrite <- (app_nil_r k1) at 1.
  rewrite zip_with_app by exact H.
  destruct l2; cbn; apply app_nil_r.
Qed.

Lemma transfer_run n d s w :
  0 <= n ->
  stransfer d dst_stride s src_stride n src_itemsize w
  = foldl single w (zip (run_elems dst_stride (d, n))
                        (run_elems src_stride (s, n))).
Proof using transfer_none transfer_step.
  intros Hn. rewrite <- (Z2Nat.id n) by exact Hn. apply transfer_elems.
Qed.

Lemma run_elems_at stride d n a :
  0 <= a < n ->
  run_elems stride (d, n)
  = run_elems stride (d, a) ++ run_elems stride (d + a * stride, n - a).
Proof.
  intros Ha. rewrite <- run_elems_split by lia. do 2 f_equal. lia.
Qed.

Lemma chunk_loop_pairs dst_next : forall src_next dd dc sd sc w,
  0 <= dc -> 0 <= sc ->
  Forall (fun r => 0 <= r.2) dst_next -> Forall (fun r => 0 <= r.2) src_next ->
  chunk_loop stransfer dst_stride src_stride src_itemsize dst_next src_next
    dd dc sd sc w
  = foldl single w
      (zip (run_elems dst_stride (dd, dc) ++ runs_elems dst_stride dst_next)
           (run_elems src_stride (sd, sc) ++ runs_elems src_stride src_next)).
Proof using transfer_none transfer_step.
  induction dst_next as [|[dd' dc'] dst_next' IHd];
    induction src_next as [|[sd' sc'] src_next' IHs];
    intros dd dc sd sc w Hdc Hsc Hdn Hsn;
    rewrite chunk_loop_unfold; cbv zeta;
    (destruct (Z.ltb_spec sc dc) as [Hlt|Hge];
     [ | destruct (Z.eqb_spec sc dc) as [->|Hne] ]);
    try (inversion Hdn as [|? ? Hd1 Hdn']; subst; cbn [snd] in Hd1);
    try (inversion Hsn as [|? ? Hs1 Hsn']; subst; cbn [snd] in Hs1);
    cbn [runs_elems flat_map]; rewrite ?app_nil_r;
    try (rewrite (run_elems_at dst_stride dd dc sc) by lia);
    try (rewrite (run_elems_at src_stride sd sc dc) by lia);
    rewrite <- ?app_assoc;
    first [ rewrite zip_with_app by (rewrite !run_elems_length; reflexivity)
          | rewrite zip_short_l by (rewrite !run_elems_length; reflexivity)
          | rewrite zip_short_r by (rewrite !run_elems_length; reflexivity)
          | idtac ];
    rewrite ?foldl_app; rewrite <- ?transfer_run by lia;
    rewrite ?IHs, ?IHd by (try assumption; try (constructor; assumption); lia);
    cbn [runs_elems flat_map]; rewrite ?app_nil_r;
    reflexivity.
Qed.

End Pairs.

End Routine.

(** X27. The loop of [PyArray_CopyAnyInto] pairs the elements of the two
    flattened arrays in order, whatever the lengths of the runs the two
    iterators deliver: with a transfer function that handles a run element
    by element, the loop does what transferring the [k]-th element of the
    source traversal to the [k]-th element of the destination traversal one
    by one does, up to the end of the shorter traversal. *)
Theorem copy_any_pairs_in_order (stransfer : StridedTransferFn)
    (dst_stride src_stride src_itemsize : Z)
    (dst_first src_first : Z * Z) (dst_next src_next : list (Z * Z))
    (w : World) :
  (forall d s w, stransfer d dst_stride s src_stride 0 src_itemsize w = w) ->
  (forall d s n w, 0 <= n ->
     stransfer d dst_stride s src_stride (1 + n) src_itemsize w
     = stransfer (d + dst_stride) dst_stride (s + src_stride) src_stride n
         src_itemsize (stransfer d dst_stride s src_stride 1 src_itemsize w)) ->
  Forall (fun r => 0 <= r.2) (dst_first :: dst_next) ->
  Forall (fun r => 0 <= r.2) (src_first :: src_next) ->
  chunk_loop stransfer dst_stride src_stride src_itemsize dst_next src_next
    dst_first.1 dst_first.2 src_first.1 src_first.2 w
  = foldl (single stransfer dst_stride src_stride src_itemsize) w
      (zip (runs_elems dst_stride (dst_first :: dst_next))
           (runs_elems src_stride (src_first :: src_next))).
Proof.
  intros Hnone Hstep Hd Hs.
  destruct dst_first as [dd dc], src_first as [sd sc].
  inversion Hd as [|? ? Hd1 Hdn]; inversion Hs as [|? ? Hs1 Hsn]; subst.
  apply chunk_loop_pairs; assumption.
Qed.

(** The raw copy of [SimpleCopy] handles a run element by element. *)
Lemma raw_transfer_none d ds s ss itemsize w :
  SimpleCopy.raw_transfer d ds s ss 0 itemsize w = w.
Proof. destruct w; reflexivity. Qed.

Lemma raw_transfer_step d ds s ss itemsize n w :
  0 <= n ->
  SimpleCopy.raw_transfer d ds s ss (1 + n) itemsize w
  = SimpleCopy.raw_transfer (d + ds) ds (s + ss) ss n itemsize
      (SimpleCopy.raw_transfer d ds s ss 1 itemsize w).
Proof.
  intros Hn. unfold SimpleCopy.raw_transfer.
  rewrite Z2Nat.inj_add by lia.
  change (Z.to_nat 1) with 1%nat. cbn [Nat.add SimpleCopy.strided_copy].
  destruct w; reflexivity.
Qed.

(** Six bytes in runs of two copied to runs of three. *)
Lemma copy_any_pairs_in_order_witness :
  chunk_loop SimpleCopy.raw_transfer 1 1 1 [(200, 3)] [(10, 2); (20, 2)]
    100 3 0 2 Simple.world0
  = foldl (single SimpleCopy.raw_transfer 1 1 1) Simple.world0
      (zip (runs_elems 1 [(100, 3); (200, 3)])
           (runs_elems 1 [(0, 2); (10, 2); (20, 2)])).
Proof.
  apply (copy_any_pairs_in_order SimpleCopy.raw_transfer 1 1 1
           (100, 3) (0, 2) [(200, 3)] [(10, 2); (20, 2)] Simple.world0
           (fun d s w => raw_transfer_none d 1 s 1 1 w)
           (fun d s n w H => raw_transfer_step d 1 s 1 1 n w H)).
  - repeat constructor; cbn; lia.
  - repeat constructor; cbn; lia.
Defined.

(** *** A run on concrete arrays

    An iterator that delivers one run per row of the last axis, and the six
    bytes of a 3x2 transposed view copied into a contiguous 2x3 array. *)
Definition row_iter (arr : PyArrayObject) (writing : bool) (w : World)
    : option NpyIter1 * World :=
  let '(stride, runs) :=
    match rev (dimensions arr), rev (strides arr) with
    | n :: rdims, s :: rstrides =>
        (s, map (fun o => (data arr + o, n))
              (SimpleCopy.offsets (rev rdims) (rev rstrides)))
    | _, _ => (0, [(data arr, 1)])
    end in
  match runs with
  | [] => (None, w)
  | r :: rest =>
      (Some {| inner_stride := stride; first := r; next := rest;
               iternext := true |}, w)
  end.

Definition byte_descr : PyArray_Descr :=
  {| descr_id := 1%nat; type_num := 2; elsize := 1; needs_init := false;
     native_byteorder := true; subarray := None |}.

Definition dst_2x3 : PyArrayObject :=
  {| ob_id := 2%nat; data := 100; nd := 2; dimensions := [2; 3];
     strides := [3; 1]; base := None; descr := byte_descr;
     flags := Z.lor (Z.lor CONTIGUOUS ALIGNED) WRITEABLE |}.

Definition src_3x2 : PyArrayObject :=
  {| ob_id := 3%nat; data := 0; nd := 2; dimensions := [3; 2];
     strides := [1; 3]; base := None; descr := byte_descr;
     flags := Z.lor ALIGNED WRITEABLE |}.

Example copy_any_transposed :
  let r := PyArray_CopyAnyInto (TR := SimpleCopy.simple_transfer)
             (fun l1 l2 _ => SimpleCopy.CompareLists l1 l2) row_iter
             dst_2x3 src_3x2
             (set_mem (Swap.bytes_at 0 [10; 11; 12; 13; 14; 15])
                Simple.world0) in
  r.1 = 0 /\ Swap.read_bytes (mem r.2) 100 6 = [10; 13; 11; 14; 12; 15].
Proof. vm_compute. split; reflexivity. Qed.

End CopyAny.

(** ** Arrays on a buffer ([PyArray_FromBuffer]) *)

Module FromBuffer.

Import Strides Alloc.

(** The range of a C [int], the type of [elsize]. *)
Definition INT_MIN : Z := -2147483648.
Definition INT_MAX : Z := 2147483647.

(** The message of [PyErr_Format] for an offset outside the buffer (the
    spelling is the source's). *)
Definition offset_message (ts : Z) : string :=
  ("offset must be non-negative and smaller than buffer lenth ("
   ++ DecimalString.NilZero.string_of_int (Z.to_int ts) ++ ")")%string.

Definition clear_writeable (a : PyArrayObject) : PyArrayObject :=
  {| ob_id := ob_id a; data := data a; nd := nd a; dimensions := dimensions a;
     strides := strides a; base := base a; descr := descr a;
     flags := Z.land (flags a) (Z.lnot WRITEABLE) |}.

Definition set_base (a : PyArrayObject) (b : nat) : PyArrayObject :=
  {| ob_id := ob_id a; data := data a; nd := nd a; dimensions := dimensions a;
     strides := strides a; base := Some b; descr := descr a;
     flags := flags a |}.

Section Routine.

Context `{RT : Runtime}.

(** Defined elsewhere: [PyDataType_REFCHK]; whether the type of an object
    has the buffer slots; [PyObject_GetAttrString(buf, "__buffer__")];
    [PyObject_AsWriteBuffer] and [PyObject_AsReadBuffer], which give the
    address and the length of the buffer; [PyArray_UpdateFlags(ret,
    ALIGNED)]. *)
Variable PyDataType_REFCHK : PyArray_Descr -> bool.
Variable has_buffer_slots : nat -> bool.
Variable GetAttrString_buffer : nat -> World -> option nat * World.
Variable PyObject_AsWriteBuffer : nat -> World -> option (Z * Z) * World.
Variable PyObject_AsReadBuffer : nat -> World -> option (Z * Z) * World.
Variable UpdateFlags_ALIGNED : PyArrayObject -> PyArrayObject.

(** The product [n*itemsize] of an [npy_intp] and an [int], taken in
    [npy_intp]; what it gives when the product does not fit is left to the
    compiler. *)
Variable intp_mul : Z -> Z -> Z.

(** The object whose buffer is used, with a reference to it. *)
Definition acquire (buf : nat) (w : World) : option nat * World :=
  if negb (has_buffer_slots buf) then GetAttrString_buffer buf w
  else (Some buf, Py_INCREF buf w).

(** The buffer: its address, its length and whether it can be written. *)
Definition open_buffer (buf : nat) (w : World)
    : option (Z * Z * bool) * World :=
  match PyObject_AsWriteBuffer buf w with
  | (Some (data, ts), w) => (Some (data, ts, true), w)
  | (None, w) =>
      let w := Range.PyErr_Clear w in
      match PyObject_AsReadBuffer buf w with
      | (Some (data, ts), w) => (Some (data, ts, false), w)
      | (None, w) => (None, w)
      end
  end.

(** The number of elements: all that remain when [count] is negative
    ([%] and [/] of C truncate), else [count]. *)
Definition element_count (s count itemsize : Z) : string + Z :=
  if count <? 0 then
    if negb (Z.rem s itemsize =? 0) then
      inl "buffer size must be a multiple of element size"%string
    else inr (Z.quot s itemsize)
  else if s <? intp_mul count itemsize then
    inl "buffer is smaller than requested size"%string
  else inr count.

(** [PyArray_FromBuffer(buf, type, count, offset)] *)
Definition PyArray_FromBuffer (buf : nat) (type : PyArray_Descr)
    (count offset : Z) (w : World) : option PyArrayObject * World :=
  if PyDataType_REFCHK type then
    (None, Py_DECREF (descr_id type)
             (PyErr_SetString PyExc_ValueError
                "cannot create an OBJECT array from memory buffer" w))
  else if elsize type =? 0 then
    (None, Py_DECREF (descr_id type)
             (PyErr_SetString PyExc_ValueError
                "itemsize cannot be zero in type" w))
  else
    match acquire buf w with
    | (None, w) => (None, Py_DECREF (descr_id type) w)
    | (Some buf, w) =>
        match open_buffer buf w with
        | (None, w) => (None, Py_DECREF (descr_id type) (Py_DECREF buf w))
        | (Some (data, ts, write), w) =>
            if (offset <? 0) || (ts <=? offset) then
              (None, Py_DECREF (descr_id type)
                       (Py_DECREF buf
                          (PyErr_SetString PyExc_ValueError
                             (offset_message ts) w)))
            else
              let data := data + offset in
              let s := ts - offset in
              let itemsize := elsize type in
              match element_count s count itemsize with
              | inl msg =>
                  (None, Py_DECREF (descr_id type)
                           (Py_DECREF buf
                              (PyErr_SetString PyExc_ValueError msg w)))
              | inr n =>
                  match PyArray_NewFromDescr PyArray_Type type 1 [n] None
                          (Some data) DEFAULT None w with
                  | (None, w) => (None, Py_DECREF buf w)
                  | (Some ret, w) =>
                      let ret := if write then ret else clear_writeable ret in
                      (* Store a reference for decref on deallocation *)
                      let ret := set_base ret buf in
                      (Some (UpdateFlags_ALIGNED ret), w)
                  end
              end
        end
    end.

(** *** The view lies within the buffer *)

(** What the constructor returns for one axis on memory passed by the
    caller. *)
Lemma NewFromDescr_on_data descr n p flags obj w arr w' :
  subarray descr = None ->
  to_uintp (elsize descr) <> 0 ->
  PyArray_NewFromDescr PyArray_Type descr 1 [n] None (Some p) flags obj w
    = (Some arr, w') ->
  data arr = p /\ dimensions arr = [n] /\ Objects.descr arr = descr /\
  (n = 0 \/ 0 < n <= initial_largest (to_uintp (elsize descr))) /\
  forall k, 3 <= k -> k <> 12 ->
    Z.testbit (Objects.flags arr) k = Z.testbit flags k.
Proof using Type.
  intros Hsub Hsd Hnew.
  rewrite (NewFromDescr_plain _ _ _ _ _ _ _ _ _ Hsub) in Hnew.
  unfold new_from_descr_plain, fail_descr in Hnew.
  change (1 <? 0) with false in Hnew. change (MAX_DIMS <? 1) with false in Hnew.
  cbv iota in Hnew.
  apply Z.eqb_neq in Hsd. unfold replace_empty_elsize in Hnew.
  rewrite Hsd in Hnew. cbn [andb] in Hnew.
  change (Z.to_nat 1) with 1%nat in Hnew. cbn [take] in Hnew.
  assert (Hn : (n = 0 \/ 0 < n <= initial_largest (to_uintp (elsize descr)))
               /\ exists size,
                 build_array PyArray_Type descr 1 [n] None (Some p) flags obj
                   size w = (Some arr, w')).
  { unfold check_dims in Hnew.
    destruct (Z.eqb_spec n 0) as [->|Hn0]; [split; [left; reflexivity|eauto]|].
    destruct (Z.ltb_spec n 0); [discriminate Hnew|].
    destruct (Z.ltb_spec (initial_largest (to_uintp (elsize descr))) n);
      [discriminate Hnew|].
    split; [right; lia|eauto]. }
  destruct Hn as [Hn [size Hb]]. clear Hnew.
  unfold build_array in Hb.
  destruct (tp_alloc w) as [[id|] w2]; [|discriminate Hb].
  change (0 <? 1) with true in Hb. cbv iota in Hb.
  destruct (PyDimMem_NEW (2 * 1) w2) as [[|] w3]; [|discriminate Hb].
  change (Z.to_nat 1) with 1%nat in Hb. cbn [take] in Hb.
  pose proof (ConstructorProperties.fill_strides_other_flags
                (replicate 1 0) [n] 1 (to_uintp (elsize descr)) flags
                (Z.land flags (Z.lnot UPDATEIFCOPY))) as Hfl.
  destruct (_array_fill_strides (replicate 1 0) [n] 1
              (to_uintp (elsize descr)) flags
              (Z.land flags (Z.lnot UPDATEIFCOPY))) as [[st sflags'] sd'].
  cbn [fst snd] in Hfl.
  inversion Hb; subst arr w'. cbn [data dimensions Objects.descr Objects.flags].
  repeat split; try reflexivity; try exact Hn.
  intros k Hk Hk12.
  rewrite Z.land_spec, Z.lnot_spec, Hfl, Z.land_spec, Z.lnot_spec by lia.
  change OWNDATA with (2 ^ 2). change UPDATEIFCOPY with (2 ^ 12).
  rewrite !Z.pow2_bits_eqb by lia.
  destruct (Z.eqb_spec 12 k); [lia|].
  destruct (Z.eqb_spec 2 k); [lia|].
  cbn. rewrite !andb_true_r. reflexivity.
Qed.

(** The bound of the size check, for an element size that is an [int]: a
    positive extent passes only when the element size is positive and the
    size in bytes fits [npy_intp]. *)
Lemma largest_admits e n :
  INT_MIN <= e <= INT_MAX -> e <> 0 ->
  0 < n <= initial_largest (to_uintp e) ->
  0 < e /\ n * e <= NPY_MAX_INTP.
Proof.
  unfold INT_MIN, INT_MAX. intros He He0 Hn.
  destruct (Z.lt_ge_cases 0 e) as [Hpos|Hneg].
  - rewrite to_uintp_small in Hn by (unfold uintp_modulus; lia).
    rewrite initial_largest_div in Hn by (unfold NPY_MAX_INTP; lia).
    split; [exact Hpos|].
    pose proof (Z.mul_div_le NPY_MAX_INTP e Hpos). nia.
  - exfalso. unfold initial_largest in Hn.
    assert (Hu : to_uintp e = e + uintp_modulus).
    { unfold to_uintp. symmetry.
      apply (Z.mod_unique_pos _ _ (-1)); unfold uintp_modulus; lia. }
    rewrite Hu in Hn.
    rewrite (to_uintp_small NPY_MAX_INTP) in Hn
      by (unfold NPY_MAX_INTP, uintp_modulus; lia).
    rewrite Z.div_small in Hn
      by (unfold NPY_MAX_INTP, uintp_modulus; lia).
    change (to_intp 0) with 0 in Hn. lia.
Qed.

Section View.

(** The product is exact when it fits [npy_intp]. *)
Hypothesis intp_mul_exact : forall a b,
  NPY_MIN_INTP <= a * b <= NPY_MAX_INTP -> intp_mul a b = a * b.

(** [PyArray_UpdateFlags(ret, ALIGNED)] changes the flag [ALIGNED] at
    most. *)
Hypothesis UpdateFlags_aligned_only : forall a,
  data (UpdateFlags_ALIGNED a) = data a /\
  dimensions (UpdateFlags_ALIGNED a) = dimensions a /\
  base (UpdateFlags_ALIGNED a) = base a /\
  descr (UpdateFlags_ALIGNED a) = descr a /\
  forall k, k <> 8 ->
    Z.testbit (flags (UpdateFlags_ALIGNED a)) k = Z.testbit (flags a) k.

Lemma element_count_fits s count e n :
  0 < s -> INT_MIN <= e <= INT_MAX -> e <> 0 ->
  element_count s count e = inr n ->
  n = 0 \/ 0 < n <= initial_largest (to_uintp e) ->
  0 <= n /\ n * e <= s /\
  (0 <= count -> n = count) /\ (count < 0 -> n * e = s).
Proof using intp_mul_exact.
  intros Hs He He0 Hc Hn. unfold element_count in Hc.
  destruct (Z.ltb_spec count 0) as [Hneg|Hpos].
  - destruct (Z.eqb_spec (Z.rem s e) 0) as [Hrem|]; [|discriminate Hc].
    cbn [negb] in Hc. inversion Hc as [Hq]. clear Hc.
    pose proof (Z.quot_rem' s e) as Hqr. rewrite Hrem, Hq in Hqr.
    destruct Hn as [->|Hn]; [lia|].
    repeat split; lia.
  - destruct (Z.ltb_spec s (intp_mul count e)) as [|Hfit]; [discriminate Hc|].
    inversion Hc; subst n. clear Hc.
    destruct Hn as [->|Hn]; [repeat split; lia|].
    destruct (largest_admits e count He He0 Hn) as [Hepos Hle].
    rewrite intp_mul_exact in Hfit by (unfold NPY_MIN_INTP; nia).
    repeat split; lia.
Qed.

(** X28.  The array that [PyArray_FromBuffer] returns lies within the
    buffer: it starts [offset] bytes into it, its elements end at or before
    the end of the buffer (at the end exactly when [count] is negative), it
    holds [count] elements when [count] is not negative, it keeps the
    object of the buffer as its base, and it is writeable exactly when the
    buffer could be opened for writing.  This holds whatever the product
    [n*itemsize] gives when it does not fit, since the constructor rejects
    the extents whose size in bytes does not fit.  This for an element type
    without sub-array. *)
Theorem from_buffer_within_buffer (buf : nat) (type : PyArray_Descr)
    (count offset : Z) (w : World) (ret : PyArrayObject) (w' : World) :
  subarray type = None ->
  INT_MIN <= elsize type <= INT_MAX ->
  PyArray_FromBuffer buf type count offset w = (Some ret, w') ->
  exists obj w1 p ts write w2 n,
    acquire buf w = (Some obj, w1) /\
    open_buffer obj w1 = (Some (p, ts, write), w2) /\
    base ret = Some obj /\
    dimensions ret = [n] /\ descr ret = type /\
    0 <= n /\ (0 <= count -> n = count) /\
    (count < 0 -> offset + n * elsize type = ts) /\
    data ret = p + offset /\
    p <= data ret /\ data ret + n * elsize type <= p + ts /\
    PyArray_ISWRITEABLE ret = write.
Proof using intp_mul_exact UpdateFlags_aligned_only.
  intros Hsub Hint Hret. unfold PyArray_FromBuffer in Hret.
  destruct (PyDataType_REFCHK type); [discriminate Hret|].
  destruct (Z.eqb_spec (elsize type) 0) as [|He0]; [discriminate Hret|].
  destruct (acquire buf w) as [[obj|] w1] eqn:Hacq; [|discriminate Hret].
  destruct (open_buffer obj w1) as [[[[p ts] write]|] w2] eqn:Hopen;
    [|discriminate Hret].
  destruct (Z.ltb_spec offset 0) as [|Hoff]; [discriminate Hret|].
  destruct (Z.leb_spec ts offset) as [|Hts]; [discriminate Hret|].
  cbn [orb] in Hret. cbv zeta in Hret.
  destruct (element_count (ts - offset) count (elsize type)) as [msg|n] eqn:Hc;
    [discriminate Hret|].
  destruct (PyArray_NewFromDescr PyArray_Type type 1 [n] None
              (Some (p + offset)) DEFAULT None w2) as [[r|] w3] eqn:Hnew;
    [|discriminate Hret].
  inversion Hret; subst ret w'. clear Hret.
  assert (Hsd : to_uintp (elsize type) <> 0).
  { unfold INT_MIN, INT_MAX in Hint. unfold to_uintp, uintp_modulus.
    intros H. apply Z.mod_divide in H; [|lia].
    destruct H as [q Hq]. lia. }
  destruct (NewFromDescr_on_data _ _ _ _ _ _ _ _ Hsub Hsd Hnew)
    as (Hdata & Hdims & Hdescr & Hn & Hbits).
  destruct (element_count_fits (ts - offset) count (elsize type) n
              ltac:(lia) Hint He0 Hc Hn)
    as (Hn0 & Hle & Hcount & Hall).
  destruct (UpdateFlags_aligned_only
              (set_base (if write then r else clear_writeable r) obj))
    as (Ud & Udim & Ub & Udescr & Uf).
  exists obj, w1, p, ts, write, w2, n.
  rewrite Ud, Udim, Ub, Udescr.
  assert (Hfields :
            data (set_base (if write then r else clear_writeable r) obj)
              = p + offset /\
            dimensions (set_base (if write then r else clear_writeable r) obj)
              = [n] /\
            descr (set_base (if write then r else clear_writeable r) obj)
              = type).
  { destruct write; cbn; auto. }
  destruct Hfields as (-> & -> & ->).
  repeat split; try reflexivity; try assumption; try lia.
  unfold PyArray_ISWRITEABLE. change WRITEABLE with (2 ^ 10).
  rewrite ConstructorProperties.CHKFLAGS_pow2, Uf by lia.
  destruct write; cbn [set_base clear_writeable flags].
  - rewrite Hbits by lia. reflexivity.
  - rewrite Z.land_spec, Z.lnot_spec by lia.
    change WRITEABLE with (2 ^ 10). rewrite Z.pow2_bits_true by lia.
    apply andb_false_r.
Qed.

End View.

End Routine.

(** *** A run on a concrete buffer

    Object 5 has a writeable buffer of 24 bytes at address 1000, any other
    object a read-only one of 16 bytes at address 2000; the product wraps
    around. *)
Definition AsWriteBuffer (buf : nat) (w : World) : option (Z * Z) * World :=
  if Nat.eqb buf 5 then (Some (1000, 24), w)
  else (None, PyErr_SetString PyExc_TypeError "expected a writeable buffer" w).

Definition AsReadBuffer (buf : nat) (w : World) : option (Z * Z) * World :=
  (Some (2000, 16), w).

Definition wrap_mul (a b : Z) : Z := to_intp (a * b).

Definition from_buffer (buf : nat) (count offset : Z)
    : option PyArrayObject * World :=
  PyArray_FromBuffer (RT := Simple.simple_runtime) (fun _ => false)
    (fun _ => true) (fun _ w => (None, w)) AsWriteBuffer AsReadBuffer
    (fun a => a) wrap_mul buf Simple.long_descr count offset Simple.world0.

Lemma from_buffer_within_buffer_witness :
  match (from_buffer 5 (-1) 8).1 with
  | Some ret =>
      dimensions ret = [2] /\ data ret = 1008 /\ PyArray_ISWRITEABLE ret = true
  | None => False
  end.
Proof.
  unfold from_buffer.
  destruct (PyArray_FromBuffer (RT := Simple.simple_runtime) (fun _ => false)
              (fun _ => true) (fun _ w => (None, w)) AsWriteBuffer AsReadBuffer
              (fun a => a) wrap_mul 5 Simple.long_descr (-1) 8 Simple.world0)
    as [[ret|] w'] eqn:Hret; [|vm_compute in Hret; discriminate Hret].
  destruct (from_buffer_within_buffer (RT := Simple.simple_runtime)
              (fun _ => false) (fun _ => true) (fun _ w => (None, w))
              AsWriteBuffer AsReadBuffer (fun a => a) wrap_mul
              (fun a b H => to_intp_small (a * b) H)
              (fun a => conj eq_refl (conj eq_refl (conj eq_refl
                          (conj eq_refl (fun k _ => eq_refl)))))
              5%nat Simple.long_descr (-1) 8 Simple.world0 ret w'
              eq_refl ltac:(vm_compute; split; discriminate) Hret)
    as (obj & w1 & p & ts & write & w2 & n & Hacq & Hopen & _ & Hdims & _
        & _ & _ & Hall & Hdata & _ & _ & Hwr).
  unfold acquire in Hacq. cbn [negb] in Hacq.
  injection Hacq as <- <-.
  unfold open_buffer, AsWriteBuffer in Hopen. cbn [Nat.eqb] in Hopen.
  injection Hopen as <- <- <- <-.
  cbn [fst]. change (elsize Simple.long_descr) with 8 in Hall.
  assert (n = 2) as -> by lia.
  repeat split; [exact Hdims | exact Hdata | exact Hwr].
Defined.

(** A count whose size in bytes wraps around to 8 passes the test against
    the 24 bytes of the buffer, and is rejected by the constructor. *)
Example from_buffer_wrapped_count :
  let r := from_buffer 5 (2 ^ 61 + 1) 0 in
  r.1 = None /\ err r.2 = Some (PyExc_ValueError, "array is too big."%string).
Proof. vm_compute. split; reflexivity. Qed.

(** A read-only buffer gives an array that cannot be written. *)
Example from_buffer_read_only :
  match (from_buffer 6 2 0).1 with
  | Some ret => dimensions ret = [2] /\ PyArray_ISWRITEABLE ret = false
  | None => False
  end.
Proof. vm_compute. split; reflexivity. Qed.

End FromBuffer.

(** ** Arrays from text ([array_from_text], [PyArray_FromString]) *)

Module FromText.

Import Strides Alloc Separator SkipSeparator.

Definition FROM_BUFFER_SIZE : Z := 4096.

Section Routine.

Context `{RT : Runtime}.

(** [PyDataMem_RENEW(ptr, size)], defined elsewhere. *)
Variable PyDataMem_RENEW : Z -> Z -> World -> option Z * World.

Section Text.

(** The stream read from, and the two routines of its kind:
    [next(&stream, dptr, dtype, stream_data)] and
    [skip_sep(&stream, clean_sep, stream_data)], which give their result
    and the stream as they leave it. *)
Variable Stream : Type.
Variable next : Stream -> Z -> PyArray_Descr -> World -> Z * Stream * World.
Variable skip_sep : Stream -> string -> Z * Stream.

(** The variables of the loop of [array_from_text]: [*nread] is a [size_t],
    the other counters are [npy_intp]; [r_data] is [r->data]. *)
Record TextState : Type := Build_TextState {
  i : Z;
  stream : Stream;
  dptr : Z;
  nread : Z;
  thisbuf : Z;
  totalbytes : Z;
  r_data : Z;
  world : World
}.

(** What an iteration ends with: the next iteration, or a [break], with
    the value of [err]. *)
Inductive Step : Type :=
| Continue (st : TextState)
| Break (st : TextState) (err : bool).

Section Loop.

Variables (dtype : PyArray_Descr) (num : Z) (clean_sep : string)
          (size bytes : Z).

(** The condition [num < 0 || i < num] of the loop. *)
Definition text_cond (st : TextState) : bool :=
  (num <? 0) || (i st <? num).

(** The body of the loop, and [i++]. *)
Definition text_step (st : TextState) : Step :=
  let '(rc, stream, w) := next (stream st) (dptr st) dtype (world st) in
  if rc <? 0 then
    Break {| i := i st; stream := stream; dptr := dptr st; nread := nread st;
             thisbuf := thisbuf st; totalbytes := totalbytes st;
             r_data := r_data st; world := w |} false
  else
    let nread := to_uintp (nread st + 1) in
    let thisbuf := to_intp (thisbuf st + 1) in
    let dptr := dptr st + elsize dtype in
    let grown :=
      if (num <? 0) && (thisbuf =? size) then
        let totalbytes := to_intp (totalbytes st + bytes) in
        match PyDataMem_RENEW (r_data st) (to_uintp totalbytes) w with
        | (None, w) => inl (totalbytes, w)
        | (Some tmp, w) =>
            inr (tmp, tmp + (totalbytes - bytes), 0, totalbytes, w)
        end
      else inr (r_data st, dptr, thisbuf, totalbytes st, w) in
    match grown with
    | inl (totalbytes, w) =>
        Break {| i := i st; stream := stream; dptr := dptr; nread := nread;
                 thisbuf := thisbuf; totalbytes := totalbytes;
                 r_data := r_data st; world := w |} true
    | inr (r_data, dptr, thisbuf, totalbytes, w) =>
        let '(rc, stream) := skip_sep stream clean_sep in
        let st' := {| i := i st; stream := stream; dptr := dptr;
                      nread := nread; thisbuf := thisbuf;
                      totalbytes := totalbytes; r_data := r_data;
                      world := w |} in
        if rc <? 0 then Break st' false
        else
          Continue {| i := to_intp (i st + 1); stream := stream; dptr := dptr;
                      nread := nread; thisbuf := thisbuf;
                      totalbytes := totalbytes; r_data := r_data;
                      world := w |}
    end.

(** The loop, for at most [fuel] iterations: the variables it is left
    with and [err], or nothing when the iterations do not suffice. *)
Fixpoint text_loop (fuel : nat) (st : TextState) : option (TextState * bool) :=
  if negb (text_cond st) then Some (st, false)
  else
    match fuel with
    | O => None
    | S fuel' =>
        match text_step st with
        | Continue st' => text_loop fuel' st'
        | Break st' err => Some (st', err)
        end
    end.


End Loop.

(** The variables on entry to the loop. *)
Definition text_init (r : PyArrayObject) (bytes nread0 : Z) (stream0 : Stream)
    (w : World) : TextState :=
  {| i := 0; stream := stream0; dptr := data r; nread := nread0;
     thisbuf := 0; totalbytes := bytes; r_data := data r; world := w |}.

(** [array_from_text(dtype, num, sep, nread, stream, next, skip_sep,
    stream_data)] with [*nread] on entry: the array, [*nread] on return and
    the state; nothing when [fuel] iterations do not suffice.  The
    arithmetic on [npy_intp] and [size_t] wraps around. *)
Definition array_from_text (fuel : nat) (dtype : PyArray_Descr) (num : Z)
    (sep : string) (nread0 : Z) (stream0 : Stream) (w : World)
    : option (option PyArrayObject * Z * World) :=
  let size := if 0 <=? num then num else FROM_BUFFER_SIZE in
  match PyArray_NewFromDescr PyArray_Type dtype 1 [size] None None 0 None w with
  | (None, w) => Some (None, nread0, w)
  | (Some r, w) =>
      let clean_sep := swab_separator sep in
      let bytes := to_intp (size * elsize dtype) in
      match text_loop dtype num clean_sep size bytes fuel
              (text_init r bytes nread0 stream0 w) with
      | None => None
      | Some (st, err) =>
          let r := FromIter.set_data r (r_data st) in
          let '(r, err, w) :=
            if num <? 0 then
              match PyDataMem_RENEW (data r)
                      (to_uintp (Z.max (nread st) 1 * elsize dtype))
                      (world st) with
              | (None, w) => (r, true, w)
              | (Some tmp, w) =>
                  (FromIter.set_data
                     (FromIter.set_dim0 r (to_intp (nread st))) tmp, err, w)
              end
            else (r, err, world st) in
          let w := if err then PyErr_NoMemory w else w in
          if PyErr_Occurred w then Some (None, nread st, Py_DECREF_array r w)
          else Some (Some r, nread st, w)
      end
  end.

(** *** The elements are parsed into the block of the array *)


Section InBounds.

Variables (dtype : PyArray_Descr) (num : Z) (clean_sep : string).

Let size : Z := if 0 <=? num then num else FROM_BUFFER_SIZE.
Let bytes : Z := size * elsize dtype.

Hypothesis elsize_positive : 0 < elsize dtype.
Hypothesis size_positive : 0 < size.
Hypothesis bytes_fit : bytes <= NPY_MAX_INTP.

(** The allocator gives no block of more than [NPY_MAX_INTP] bytes. *)
Hypothesis RENEW_bounded : forall p n w,
  NPY_MAX_INTP < n -> (PyDataMem_RENEW p n w).1 = None.






End InBounds.


End Text.

(** *** Text held in a string *)

(** A string read from: the characters from [*s] up to the terminating
    NUL, and [end] as an offset from [*s] ([None] for NULL). *)
Definition StrStream : Type := string * option Z.

Definition advance (st : StrStream) (n : nat) : StrStream :=
  (string_drop n st.1, (fun e => e - Z.of_nat n) <$> st.2).

(** [dtype->f->fromstr(s, dptr, &e, dtype)], defined elsewhere: the result
    and [e - s]. *)
Variable fromstr : PyArray_Descr -> string -> Z -> World -> Z * nat * World.

(** [fromstr_next_element(&s, dptr, dtype, end)] *)
Definition fromstr_next_element (st : StrStream) (dptr : Z)
    (dtype : PyArray_Descr) (w : World) : Z * StrStream * World :=
  let '(r, n, w) := fromstr dtype st.1 dptr w in
  let st := advance st n in
  (match st.2 with
   | Some e => if e <? 0 then -1 else r
   | None => r
   end, st, w).

(** [fromstr_skip_separator(&s, sep, end)] on such a string. *)
Definition skip_separator (st : StrStream) (sep : string) : Z * StrStream :=
  let '(r, n) := fromstr_skip_separator st.1 sep st.2 in
  (r, advance st n).

(** Defined elsewhere: [PyArray_DescrFromType(PyArray_DEFAULT)],
    [PyDataType_FLAGCHK(dtype, NPY_ITEM_IS_POINTER)] and whether
    [dtype->f->scanfunc] is set. *)
Variable DescrFromType_DEFAULT : World -> PyArray_Descr * World.
Variable ITEM_IS_POINTER : PyArray_Descr -> bool.
Variable has_scanfunc : PyArray_Descr -> bool.

Definition fail_dtype (dtype : PyArray_Descr) (msg : string) (w : World)
    : option (option PyArrayObject * World) :=
  Some (None, Py_DECREF (descr_id dtype)
                (PyErr_SetString PyExc_ValueError msg w)).

(** [PyArray_FromString(data, slen, dtype, num, sep)]: [text] is the
    characters at [data] up to the terminating NUL, [None] stands for a
    NULL [dtype] or [sep]; nothing when [fuel] iterations of the text loop
    do not suffice.  [%] and [/] of C truncate. *)
Definition PyArray_FromString (fuel : nat) (data : Z) (text : string)
    (slen : Z) (dtype : option PyArray_Descr) (num : Z) (sep : option string)
    (w : World) : option (option PyArrayObject * World) :=
  let '(dtype, w) :=
    match dtype with
    | None => DescrFromType_DEFAULT w
    | Some d => (d, w)
    end in
  if ITEM_IS_POINTER dtype then
    fail_dtype dtype "Cannot create an object array from a string" w
  else
    let itemsize := elsize dtype in
    if itemsize =? 0 then fail_dtype dtype "zero-valued itemsize" w
    else
      let binary :=
        match sep with
        | None => true
        | Some s => (String.length s =? 0)%nat
        end in
      if binary then
        let counted :=
          if num <? 0 then
            if negb (Z.rem slen itemsize =? 0) then
              inl "string size must be a multiple of element size"%string
            else inr (Z.quot slen itemsize)
          else if slen <? to_intp (num * itemsize) then
            inl "string is smaller than requested size"%string
          else inr num in
        match counted with
        | inl msg => fail_dtype dtype msg w
        | inr num =>
            match PyArray_NewFromDescr PyArray_Type dtype 1 [num] None None 0
                    None w with
            | (None, w) => Some (None, w)
            | (Some ret, w) =>
                Some (Some ret,
                      set_mem (memcpy (Objects.data ret) data
                                 (to_uintp (to_intp (num * elsize dtype)))
                                 (mem w)) w)
            end
        end
      else
        (* read from character-based string *)
        if negb (has_scanfunc dtype) then
          fail_dtype dtype
            "don't know how to read character strings with that array type" w
        else
          let end_ := if slen <? 0 then None else Some slen in
          match array_from_text StrStream fromstr_next_element skip_separator
                  fuel dtype num (default ""%string sep) 0 (text, end_) w with
          | None => None
          | Some (ret, _, w) => Some (ret, w)
          end.

(** *** The text loop on a string ends *)

Lemma length_string_drop n : forall s,
  String.length (string_drop n s) = (String.length s - n)%nat.
Proof.
  induction n as [|n IH]; intros [|c s]; cbn; try reflexivity.
  apply IH.
Qed.

(** An iteration that goes on has passed at least one character: the
    separator never matches the empty text. *)
Lemma text_step_shortens dtype num clean_sep size bytes st st' :
  text_step StrStream fromstr_next_element skip_separator dtype num clean_sep
    size bytes st = Continue StrStream st' ->
  (String.length (stream StrStream st').1
   < String.length (stream StrStream st).1)%nat.
Proof using Type.
  unfold text_step, fromstr_next_element, skip_separator.
  destruct (fromstr dtype (stream StrStream st).1 (dptr StrStream st)
              (world StrStream st)) as [[r n] w1].
  cbv zeta.
  set (s1 := advance (stream StrStream st) n).
  destruct (_ <? 0); [discriminate|].
  set (grown := if _ : bool then _ else _).
  assert (Hlen1 : (String.length s1.1 <= String.length (stream StrStream st).1)%nat).
  { subst s1. unfold advance. cbn [fst]. rewrite length_string_drop. lia. }
  destruct grown as [[tb w2]|[[[[rd dp] tbuf] tb] w2]]; [discriminate|].
  pose proof (fromstr_loop_bounds s1.2 s1.1 clean_sep 0) as Hb.
  unfold fromstr_skip_separator.
  destruct (fromstr_loop s1.2 s1.1 clean_sep 0) as [rc adv].
  cbv zeta in Hb. cbn [fst snd] in Hb.
  destruct Hb as (Hrc & Hadv & _ & Hpos).
  destruct (Z.ltb_spec rc 0) as [|Hge]; [discriminate|].
  intros H. injection H as <-. cbn [stream advance fst].
  rewrite length_string_drop.
  destruct Hpos as [Hpos _]; lia.
Qed.

Lemma text_loop_ends dtype num clean_sep size bytes fuel : forall st,
  (String.length (stream StrStream st).1 < fuel)%nat ->
  is_Some (text_loop StrStream fromstr_next_element skip_separator dtype num
             clean_sep size bytes fuel st).
Proof using Type.
  induction fuel as [|fuel IH]; intros st Hlen; [lia|].
  cbn [text_loop].
  destruct (negb (text_cond StrStream num st)); [eauto|].
  destruct (text_step StrStream fromstr_next_element skip_separator dtype num
              clean_sep size bytes st) as [st'|st' err] eqn:Hstep; [|eauto].
  apply IH. apply text_step_shortens in Hstep. lia.
Qed.

(** X29.  Reading text from a string ends: whatever the parser of the
    elements does, [PyArray_FromString] returns within one iteration of the
    loop of [array_from_text] per character of the text, since an iteration
    that does not leave the loop has matched the separator, and the
    separator never matches without passing a character. *)
Theorem from_string_returns (fuel : nat) (data : Z) (text : string)
    (slen : Z) (dtype : option PyArray_Descr) (num : Z) (sep : option string)
    (w : World) :
  (String.length text < fuel)%nat ->
  is_Some (PyArray_FromString fuel data text slen dtype num sep w).
Proof using Type.
  intros Hfuel. unfold PyArray_FromString, fail_dtype.
  destruct (match dtype with
            | Some d => (d, w)
            | None => DescrFromType_DEFAULT w
            end) as [d w1].
  destruct (ITEM_IS_POINTER d); [eauto|].
  destruct (elsize d =? 0); [eauto|].
  destruct (match sep with
            | Some s => (String.length s =? 0)%nat
            | None => true
            end).
  - destruct (if num <? 0 then _ else _) as [msg|n]; [eauto|].
    destruct (PyArray_NewFromDescr PyArray_Type d 1 [n] None None 0 None w1)
      as [[ret|] w2]; eauto.
  - destruct (negb (has_scanfunc d)); [eauto|].
    unfold array_from_text.
    destruct (PyArray_NewFromDescr PyArray_Type d 1
                [if 0 <=? num then num else FROM_BUFFER_SIZE] None None 0
                None w1) as [[r|] w2]; [|eauto].
    cbv zeta.
    destruct (text_loop_ends d num (swab_separator (default ""%string sep))
                (if 0 <=? num then num else FROM_BUFFER_SIZE)
                (to_intp ((if 0 <=? num then num else FROM_BUFFER_SIZE)
                          * elsize d)) fuel
                (text_init StrStream r
                   (to_intp ((if 0 <=? num then num else FROM_BUFFER_SIZE)
                             * elsize d)) 0
                   (text, if slen <? 0 then None else Some slen) w2) Hfuel)
      as [[st err] ->].
    destruct (if num <? 0 then _ else _) as [[r' err'] w3].
    destruct (PyErr_Occurred _); eauto.
Qed.

End Routine.

(** *** Runs on concrete text

    A parser of one decimal digit into one byte, and an allocator that
    resizes in place and gives no block above [NPY_MAX_INTP] bytes. *)
Definition digit_fromstr (dtype : PyArray_Descr) (s : string) (dptr : Z)
    (w : World) : Z * nat * World :=
  match s with
  | String c _ =>
      let n := Z.of_nat (nat_of_ascii c) in
      if (48 <=? n) && (n <=? 57)
      then (0, 1%nat, set_mem (memset dptr (n - 48) 1 (mem w)) w)
      else (-1, 0%nat, w)
  | EmptyString => (-1, 0%nat, w)
  end.

Definition bounded_RENEW (p size : Z) (w : World) : option Z * World :=
  if NPY_MAX_INTP <? size then (None, w) else (Some p, w).


Definition from_string (fuel : nat) (text : string) (num : Z) (sep : string)
    : option (option PyArrayObject * World) :=
  PyArray_FromString (RT := Simple.simple_runtime) bounded_RENEW
    digit_fromstr (fun w => (Simple.long_descr, w)) (fun _ => false)
    (fun _ => true) fuel 0 text (-1) (Some CopyAny.byte_descr) num (Some sep)
    Simple.world0.

Example from_string_digits :
  match from_string 6 "1 ,2 ,3" (-1) "," with
  | Some (Some ret, w) =>
      dimensions ret = [3] /\ Swap.read_bytes (mem w) (data ret) 3 = [1; 2; 3]
  | _ => False
  end.
Proof. vm_compute. split; reflexivity. Qed.

(** With a count given the array has that many elements, as many as were
    read or not. *)
Example from_string_count :
  match from_string 6 "1,2" 4 "," with
  | Some (Some ret, w) => dimensions ret = [4]
  | _ => False
  end.
Proof. vm_compute. reflexivity. Qed.

Lemma from_string_returns_witness :
  is_Some (from_string 9 "1 ,2 ,3" (-1) ",").
Proof.
  apply (from_string_returns (RT := Simple.simple_runtime) bounded_RENEW
           digit_fromstr (fun w => (Simple.long_descr, w)) (fun _ => false)
           (fun _ => true) 9 0 "1 ,2 ,3" (-1) (Some CopyAny.byte_descr) (-1)
           (Some ","%string) Simple.world0).
  cbn. lia.
Defined.


End FromText.
